(** * Stock purchase pipeline: price cache, tolerance gate, ledger, portfolio

    A shallow embedding of the services of the trading backend:

    - [StocksService] (stocks.service.ts): [getStocksFromVendor],
      [getStockBySymbol], [buyStock], [updateStockCache],
      [updateUserPortfolio];
    - [TransactionsService] (transactions.service.ts):
      [createTransaction], [updateTransactionStatus], [getTransactionById],
      [getUserTransactions], [getTransactionsByStatus],
      [getTransactionsForDateRange], [getDailyTransactionStats];
    - [ReportsService] (reports.service.ts): [generateDailyReport];
    - [PortfoliosService] (portfolios.service.ts): [getUserPortfolios],
      [getPortfolioById], [createPortfolio], [getOrCreateDefaultPortfolio];
    - [StocksController] (stocks.controller.ts) behind
      [GlobalExceptionFilter] (global-exception.filter.ts);
    - [getConfiguration] (config/configuration.ts).

    Conventions of the embedding.

    - A JavaScript [number] holding a price or an amount is an exact
      rational ([Q]); the rounding of IEEE-754 doubles is outside the model.
      Quantities and HTTP status codes are integers ([Z]).
    - A [Date] is its time value, milliseconds since the epoch ([Z]); only
      valid dates are modelled.  A method that changes a [Date] object it
      was given also returns the time value it leaves in that object.
    - Prisma's [cuid()] identifiers are drawn from a counter that never
      repeats ([nextId]).
    - A table is the list of its rows in insertion order.
    - An [async] method is a function [World -> Result A * World]: it returns
      a value or throws, and leaves a new world behind.  The world holds the
      database, the wall clock, the number of HTTP requests sent so far and
      the snapshots of the database after every write (most recent first).
      The clock moves only while a request waits before a retry.
    - The vendor is an oracle of the environment ([Env]): the outcome of
      each HTTP request.  So are the stock upserts that the storage layer
      rejects.  The other storage calls succeed, except the update of a
      record that does not exist and the creation of a transaction whose
      stock is not stored.  Referential integrity toward the [users] table,
      which is not modelled, is taken for granted. *)

From Stdlib Require Import ZArith QArith Qabs Lqa List String Ascii Bool Lia.
From Stdlib Require Import Permutation DecimalString.
Import ListNotations.

Local Open Scope string_scope.
Local Open Scope list_scope.

(** ** Data model (prisma/schema.prisma) *)

Abbreviation Id := nat (only parsing).
Abbreviation Date := Z (only parsing).

Inductive TransactionType := BUY | SELL.
Inductive TransactionStatus := PENDING | SUCCESS | FAILED.

Definition TransactionStatus_eqb (a b : TransactionStatus) : bool :=
  match a, b with
  | PENDING, PENDING | SUCCESS, SUCCESS | FAILED, FAILED => true
  | _, _ => false
  end.

Record Stock := mkStock {
  stock_id : Id;
  stock_symbol : string;
  stock_name : string;
  stock_price : Q;
  stock_lastUpdated : Date }.

Record Portfolio := mkPortfolio {
  portfolio_id : Id;
  portfolio_userId : string;
  portfolio_name : string;
  portfolio_createdAt : Date;
  portfolio_updatedAt : Date }.

Record PortfolioStock := mkPortfolioStock {
  ps_id : Id;
  ps_portfolioId : Id;
  ps_stockId : Id;
  ps_quantity : Z;
  ps_averagePrice : Q;
  ps_createdAt : Date;
  ps_updatedAt : Date }.

Record Transaction := mkTransaction {
  tx_id : Id;
  tx_userId : string;
  tx_stockId : Id;
  tx_portfolioId : option Id;
  tx_type : TransactionType;
  tx_quantity : Z;
  tx_price : Q;
  tx_totalAmount : Q;
  tx_status : TransactionStatus;
  tx_errorMessage : option string;
  tx_createdAt : Date;
  tx_processedAt : option Date }.

Record Db := mkDb {
  stocks : list Stock;
  portfolios : list Portfolio;
  portfolioStocks : list PortfolioStock;
  transactions : list Transaction;
  nextId : Id }.

(** ** DTOs (stock.dto.ts, common.dto.ts, transaction.dto.ts) *)

Record StockDto := mkStockDto {
  dto_id : Id;
  dto_symbol : string;
  dto_name : string;
  dto_price : Q;
  dto_lastUpdated : Date }.

Record VendorStockDto := mkVendorStock {
  vs_symbol : string;
  vs_name : string;
  vs_price : Q }.

Record StockListResponseDto := mkStockList {
  items : list VendorStockDto;
  nextToken : option string }.

Record ApiResponseDto := mkApiResponse {
  api_status : Z;
  api_data : StockListResponseDto }.

Record BuyStockDto := mkBuy {
  buy_price : Q;
  buy_quantity : Z }.

Record TransactionDto := mkTransactionDto {
  tdto_id : Id;
  tdto_userId : string;
  tdto_stockId : Id;
  tdto_symbol : string;
  tdto_type : TransactionType;
  tdto_quantity : Z;
  tdto_price : Q;
  tdto_total : Q;
  tdto_status : TransactionStatus;
  tdto_errorMessage : option string;
  tdto_createdAt : Date;
  tdto_processedAt : option Date }.

Record ProcessTransactionDto := mkProcess {
  pt_transactionId : Id;
  pt_status : TransactionStatus;
  pt_errorMessage : option string }.

(** ** Configuration (config/configuration.ts) *)

Record VendorApiConfig := mkVendorConfig {
  retryAttempts : Z;
  retryDelay : Z }.

(** [parseInt(s) || d]: [parseInt] yields an integer or [NaN] ([None]);
    [NaN] and [0] are falsy, so both are replaced by the default. *)
Definition parseIntOr (parsed : option Z) (d : Z) : Z :=
  match parsed with
  | None => d
  | Some 0%Z => d
  | Some n => n
  end.

Definition getConfiguration (API_RETRY_ATTEMPTS API_RETRY_DELAY : option Z)
  : VendorApiConfig :=
  {| retryAttempts := parseIntOr API_RETRY_ATTEMPTS 3;
     retryDelay := parseIntOr API_RETRY_DELAY 1000 |}.

(** ** Errors, results and the world *)

Inductive ErrKind :=
| NetworkError
| TimeoutError
| StatusError (code : Z).

Record AxiosError := mkAxiosError {
  ae_kind : ErrKind;
  ae_message : string }.

Inductive Error :=
| HttpException (msg : string) (status : Z)
| VendorError (e : AxiosError)
| PrismaError (msg : string)
| TypeError (msg : string).

Definition message (e : Error) : string :=
  match e with
  | HttpException m _ => m
  | VendorError a => ae_message a
  | PrismaError m => m
  | TypeError m => m
  end.

Inductive Result (A : Type) :=
| Ok (a : A)
| Throw (e : Error).
Arguments Ok {A} a.
Arguments Throw {A} e.

Record World := mkWorld {
  db : Db;
  clock : Date;
  httpCalls : nat;
  history : list Db }.

Definition M (A : Type) := World -> Result A * World.

Definition ret {A} (a : A) : M A := fun w => (Ok a, w).
Definition throw {A} (e : Error) : M A := fun w => (Throw e, w).

Definition bind {A B} (m : M A) (k : A -> M B) : M B := fun w =>
  match m w with
  | (Ok a, w1) => k a w1
  | (Throw e, w1) => (Throw e, w1)
  end.

(** [try { m } catch (e) { h e }] *)
Definition tryCatch {A} (m : M A) (h : Error -> M A) : M A := fun w =>
  match m w with
  | (Ok a, w1) => (Ok a, w1)
  | (Throw e, w1) => h e w1
  end.

Declare Scope service_scope.
Delimit Scope service_scope with service.
Notation "x <- m ;; k" := (bind m (fun x => k))
  (at level 100, m at next level, right associativity) : service_scope.
Notation "m ;;; k" := (bind m (fun _ => k))
  (at level 100, right associativity) : service_scope.
Local Open Scope service_scope.

(** [Date.now()] and [new Date()] *)
Definition now : M Date := fun w => (Ok (clock w), w).

(** Every write goes through [write]: the new database is also recorded. *)
Definition write (f : Db -> Db) : World -> World := fun w =>
  let d := f (db w) in
  {| db := d; clock := clock w; httpCalls := httpCalls w;
     history := d :: history w |}.

Definition sleep (ms : Z) (w : World) : World :=
  {| db := db w; clock := (clock w + Z.max 0 ms)%Z; httpCalls := httpCalls w;
     history := history w |}.

Definition sent (w : World) : World :=
  {| db := db w; clock := clock w; httpCalls := S (httpCalls w);
     history := history w |}.

(** [Promise.all]: every promise is started and runs to its end; the
    aggregate rejects with the first rejection.  The promises are run in
    list order. *)
Fixpoint promiseAll {A} (ps : list (M A)) : M (list A) := fun w =>
  match ps with
  | [] => (Ok [], w)
  | p :: rest =>
      let (r, w1) := p w in
      let (rs, w2) := promiseAll rest w1 in
      (match r, rs with
       | Throw e, _ => Throw e
       | Ok _, Throw e => Throw e
       | Ok a, Ok l => Ok (a :: l)
       end, w2)
  end.

(** ** The vendor (HTTP) and rxjs [retry] *)

Inductive Request :=
| GetStocks (nextToken : option string)
| PostBuy (symbol : string) (price : Q) (quantity : Z).

Inductive HttpOutcome :=
| Response (body : ApiResponseDto)
| Failure (e : AxiosError).

(** The environment of a service instance: its configuration, the vendor
    (the outcome of the [n]-th HTTP request ever sent, given the request),
    and the stock upserts the storage layer rejects. *)
Record Env := mkEnv {
  vendorConfig : VendorApiConfig;
  vendor : nat -> Request -> HttpOutcome;
  upsertFails : VendorStockDto -> bool }.

(** [source$.pipe(retry({count, delay}))]: subscribe (send the request); on
    an error, whatever it is, wait [delay] ms and subscribe again, at most
    [count] times; after that the last error is passed on. *)
Fixpoint retry (this : Env) (count : nat) (delay : Z) (req : Request)
  (w : World) : HttpOutcome * World :=
  match vendor this (httpCalls w) req with
  | Response body => (Response body, sent w)
  | Failure e =>
      match count with
      | O => (Failure e, sent w)
      | S k => retry this k delay req (sleep delay (sent w))
      end
  end.


(** [String.prototype.toUpperCase], on ASCII letters. *)
Definition upperAscii (c : ascii) : ascii :=
  let n := N_of_ascii c in
  if ((97 <=? n) && (n <=? 122))%N then ascii_of_N (n - 32) else c.

Fixpoint toUpperCase (s : string) : string :=
  match s with
  | EmptyString => EmptyString
  | String c r => String (upperAscii c) (toUpperCase r)
  end.

(** ** Storage access (Prisma client calls) *)

Definition updateWhere {A} (p : A -> bool) (f : A -> A) (l : list A) : list A :=
  map (fun x => if p x then f x else x) l.

Definition set_stocks (l : list Stock) (d : Db) : Db :=
  {| stocks := l; portfolios := portfolios d;
     portfolioStocks := portfolioStocks d; transactions := transactions d;
     nextId := nextId d |}.

Definition set_portfolios (l : list Portfolio) (d : Db) : Db :=
  {| stocks := stocks d; portfolios := l;
     portfolioStocks := portfolioStocks d; transactions := transactions d;
     nextId := nextId d |}.

Definition set_portfolioStocks (l : list PortfolioStock) (d : Db) : Db :=
  {| stocks := stocks d; portfolios := portfolios d;
     portfolioStocks := l; transactions := transactions d;
     nextId := nextId d |}.

Definition set_transactions (l : list Transaction) (d : Db) : Db :=
  {| stocks := stocks d; portfolios := portfolios d;
     portfolioStocks := portfolioStocks d; transactions := l;
     nextId := nextId d |}.

Definition bump (d : Db) : Db :=
  {| stocks := stocks d; portfolios := portfolios d;
     portfolioStocks := portfolioStocks d; transactions := transactions d;
     nextId := S (nextId d) |}.

(** [prisma.stock.findUnique({ where: { symbol } })] *)
Definition stock_findUnique (symbol : string) : M (option Stock) := fun w =>
  (Ok (find (fun s => stock_symbol s =? symbol) (stocks (db w))), w).

Definition stock_findById (id : Id) (d : Db) : option Stock :=
  find (fun s => Nat.eqb (stock_id s) id) (stocks d).

(** [prisma.stock.upsert({ where: { symbol }, update: {name, price,
    lastUpdated}, create: {symbol, name, price, lastUpdated} })]; the call
    is rejected, and writes nothing, when the storage layer refuses the
    item. *)
Definition stock_upsert (this : Env) (symbol : string) (v : VendorStockDto)
  (lastUpdated : Date) : M Stock := fun w =>
  if upsertFails this v then (Throw (PrismaError "upsert rejected"), w)
  else
    match find (fun s => stock_symbol s =? symbol) (stocks (db w)) with
    | Some s =>
        let upd := fun x =>
          mkStock (stock_id x) (stock_symbol x) (vs_name v) (vs_price v)
                  lastUpdated in
        (Ok (upd s),
         write (fun d => set_stocks
                  (updateWhere (fun x => stock_symbol x =? symbol) upd
                     (stocks d)) d) w)
    | None =>
        let s := mkStock (nextId (db w)) symbol (vs_name v) (vs_price v)
                   lastUpdated in
        (Ok s, write (fun d => bump (set_stocks (stocks d ++ [s]) d)) w)
    end.

(** [prisma.transaction.create({ data })], status and creation time as
    given by the caller and the column default [now()]. *)
Definition transaction_create (userId : string) (stockId : Id)
  (type : TransactionType) (quantity : Z) (price totalAmount : Q)
  : M Transaction := fun w =>
  let t := mkTransaction (nextId (db w)) userId stockId None type quantity
             price totalAmount PENDING None (clock w) None in
  (Ok t, write (fun d => bump (set_transactions (transactions d ++ [t]) d)) w).

(** The row as an update of [status], [errorMessage] and [processedAt]
    leaves it: an [undefined] field of [data] is left as it is. *)
Definition settle (status : TransactionStatus) (errorMessage : option string)
  (processedAt : Date) (t : Transaction) : Transaction :=
  mkTransaction (tx_id t) (tx_userId t) (tx_stockId t) (tx_portfolioId t)
    (tx_type t) (tx_quantity t) (tx_price t) (tx_totalAmount t) status
    (match errorMessage with Some m => Some m | None => tx_errorMessage t end)
    (tx_createdAt t) (Some processedAt).

Definition hasId (id : Id) (t : Transaction) : bool := Nat.eqb (tx_id t) id.

(** [prisma.transaction.update({ where: { id }, data: { status,
    errorMessage, processedAt } })]; an absent record is an error and
    nothing is written. *)
Definition transaction_update (id : Id) (status : TransactionStatus)
  (errorMessage : option string) (processedAt : Date) : M Transaction :=
  fun w =>
  match find (hasId id) (transactions (db w)) with
  | Some t =>
      (Ok (settle status errorMessage processedAt t),
       write (fun d => set_transactions
                (updateWhere (hasId id)
                   (settle status errorMessage processedAt)
                   (transactions d)) d) w)
  | None => (Throw (PrismaError "Record to update not found."), w)
  end.

(** [prisma.portfolio.findFirst({ where: { userId } })] *)
Definition portfolio_findFirst (userId : string) : M (option Portfolio) :=
  fun w =>
  (Ok (find (fun p => portfolio_userId p =? userId) (portfolios (db w))), w).

(** [prisma.portfolio.create({ data: { userId, name } })] *)
Definition portfolio_create (userId name : string) : M Portfolio := fun w =>
  let p := mkPortfolio (nextId (db w)) userId name (clock w) (clock w) in
  (Ok p, write (fun d => bump (set_portfolios (portfolios d ++ [p]) d)) w).

Definition samePosition (portfolioId stockId : Id) (ps : PortfolioStock)
  : bool :=
  Nat.eqb (ps_portfolioId ps) portfolioId && Nat.eqb (ps_stockId ps) stockId.

(** [prisma.portfolioStock.findUnique({ where: { portfolioId_stockId } })] *)
Definition portfolioStock_findUnique (portfolioId stockId : Id)
  : M (option PortfolioStock) := fun w =>
  (Ok (find (samePosition portfolioId stockId) (portfolioStocks (db w))), w).

(** [prisma.portfolioStock.update({ where: { id }, data: { quantity,
    averagePrice } })]; [updatedAt] follows the clock. *)
Definition portfolioStock_update (id : Id) (quantity : Z) (averagePrice : Q)
  : M unit := fun w =>
  let upd := fun x =>
    mkPortfolioStock (ps_id x) (ps_portfolioId x) (ps_stockId x) quantity
      averagePrice (ps_createdAt x) (clock w) in
  match find (fun x => Nat.eqb (ps_id x) id) (portfolioStocks (db w)) with
  | Some _ =>
      (Ok tt,
       write (fun d => set_portfolioStocks
                (updateWhere (fun x => Nat.eqb (ps_id x) id) upd
                   (portfolioStocks d)) d) w)
  | None => (Throw (PrismaError "Record to update not found."), w)
  end.

(** [prisma.portfolioStock.create({ data })] *)
Definition portfolioStock_create (portfolioId stockId : Id) (quantity : Z)
  (averagePrice : Q) : M unit := fun w =>
  let x := mkPortfolioStock (nextId (db w)) portfolioId stockId quantity
             averagePrice (clock w) (clock w) in
  (Ok tt,
   write (fun d => bump (set_portfolioStocks (portfolioStocks d ++ [x]) d)) w).

(** ** StocksService (stocks.service.ts) *)

Inductive Message :=
| OutsideTolerance (price currentPrice : Q)
| Text (s : string).

Record BuyResult := mkBuyResult {
  success : bool;
  message_of : option Message;
  transactionId : option Id }.

(** [a > b] on numbers *)
Definition Qgtb (a b : Q) : bool :=
  match Qcompare a b with
  | Gt => true
  | _ => false
  end.

Section StocksService.

Variable this : Env.

(** [httpService.get(url, { headers, params }).pipe(retry(...),
    catchError(...))] followed by [firstValueFrom]: every error left after
    the retries becomes the 503 exception. *)
Definition vendorGet (nextToken : option string) : M ApiResponseDto := fun w =>
  let params := match nextToken with
                | Some "" => None
                | t => t
                end in
  match retry this (Z.to_nat (retryAttempts (vendorConfig this)))
          (retryDelay (vendorConfig this)) (GetStocks params) w with
  | (Response body, w1) => (Ok body, w1)
  | (Failure _, w1) =>
      (Throw (HttpException "Vendor API temporarily unavailable" 503), w1)
  end.

(** [httpService.post(url, { price, quantity }, { headers }).pipe(retry(...),
    catchError(...))]: the error left after the retries is thrown again. *)
Definition vendorBuy (symbol : string) (buyData : BuyStockDto) : M unit :=
  fun w =>
  match retry this (Z.to_nat (retryAttempts (vendorConfig this)))
          (retryDelay (vendorConfig this))
          (PostBuy (toUpperCase symbol) (buy_price buyData)
             (buy_quantity buyData)) w with
  | (Response _, w1) => (Ok tt, w1)
  | (Failure e, w1) => (Throw (VendorError e), w1)
  end.

(** Update local stock cache.  The upsert promises are built with the
    current date and awaited together; a rejection is logged and dropped. *)
Definition updateStockCache (vendorStocks : list VendorStockDto) : M unit :=
  tryCatch
    (date <- now ;;
     promiseAll
       (map (fun vendorStock =>
               stock_upsert this (toUpperCase (vs_symbol vendorStock))
                 vendorStock date) vendorStocks) ;;;
     ret tt)
    (fun error => ret tt).

(** Get stocks from vendor API with pagination *)
Definition getStocksFromVendor (nextToken : option string)
  : M StockListResponseDto :=
  tryCatch
    (response <- vendorGet nextToken ;;
     if negb (api_status response =? 200)%Z
     then throw (HttpException "Invalid response from vendor API" 502)
     else
       let stockData := api_data response in
       updateStockCache (items stockData) ;;;
       ret stockData)
    (fun error => throw error).

Definition getAllStocks (nextToken : option string) : M StockListResponseDto :=
  getStocksFromVendor nextToken.

Definition toStockDto (stock : Stock) : StockDto :=
  mkStockDto (stock_id stock) (stock_symbol stock) (stock_name stock)
    (stock_price stock) (stock_lastUpdated stock).

(** Get stock by symbol from cache or vendor *)
Definition getStockBySymbol (symbol : string) : M (option StockDto) :=
  tryCatch
    (stock <- stock_findUnique (toUpperCase symbol) ;;
     t <- now ;;
     let fiveMinutesAgo := (t - 5 * 60 * 1000)%Z in
     let stale := match stock with
                  | None => true
                  | Some s => (stock_lastUpdated s <? fiveMinutesAgo)%Z
                  end in
     if stale then
       vendorStocks <- getStocksFromVendor None ;;
       match find (fun s => toUpperCase (vs_symbol s) =? toUpperCase symbol)
               (items vendorStocks) with
       | None => ret None
       | Some vendorStock =>
           date <- now ;;
           stock' <- stock_upsert this (toUpperCase symbol) vendorStock date ;;
           ret (Some (toStockDto stock'))
       end
     else
       match stock with
       | Some s => ret (Some (toStockDto s))
       | None => ret None
       end)
    (fun error => throw error).

(** Update user's portfolio after successful purchase *)
Definition updateUserPortfolio (userId : string) (stockId : Id)
  (quantity : Z) (price : Q) : M unit :=
  tryCatch
    (found <- portfolio_findFirst userId ;;
     portfolio <- match found with
                  | Some p => ret p
                  | None => portfolio_create userId "Default Portfolio"
                  end ;;
     existingPosition <-
       portfolioStock_findUnique (portfolio_id portfolio) stockId ;;
     match existingPosition with
     | Some existing =>
         let totalShares := (ps_quantity existing + quantity)%Z in
         let totalCost :=
           (inject_Z (ps_quantity existing) * ps_averagePrice existing
            + inject_Z quantity * price)%Q in
         let newAveragePrice := (totalCost / inject_Z totalShares)%Q in
         portfolioStock_update (ps_id existing) totalShares newAveragePrice
     | None =>
         portfolioStock_create (portfolio_id portfolio) stockId quantity price
     end)
    (fun error => throw error).

(** Validate price within 2% tolerance: [true] when the request is turned
    down. *)
Definition outsideTolerance (currentPrice requested : Q) : bool :=
  let priceDifference := Qabs (currentPrice - requested) in
  let tolerance := (currentPrice * (2 # 100))%Q in
  Qgtb priceDifference tolerance.

(** Buy stock through vendor API *)
Definition buyStock (symbol : string) (buyData : BuyStockDto)
  (userId : string) : M BuyResult :=
  tryCatch
    (currentStock <- getStockBySymbol symbol ;;
     match currentStock with
     | None =>
         throw (HttpException ("Stock " ++ symbol ++ " not found")%string 404)
     | Some currentStock =>
         if outsideTolerance (dto_price currentStock) (buy_price buyData)
         then
           ret (mkBuyResult false
                  (Some (OutsideTolerance (buy_price buyData)
                           (dto_price currentStock)))
                  None)
         else
           transaction <-
             transaction_create userId (dto_id currentStock) BUY
               (buy_quantity buyData) (buy_price buyData)
               (buy_price buyData * inject_Z (buy_quantity buyData))%Q ;;
           tryCatch
             (vendorBuy symbol buyData ;;;
              date <- now ;;
              transaction_update (tx_id transaction) SUCCESS None date ;;;
              updateUserPortfolio userId (dto_id currentStock)
                (buy_quantity buyData) (buy_price buyData) ;;;
              ret (mkBuyResult true None (Some (tx_id transaction))))
             (fun vendorError =>
                date <- now ;;
                transaction_update (tx_id transaction) FAILED
                  (Some (message vendorError)) date ;;;
                ret (mkBuyResult false (Some (Text (message vendorError)))
                       (Some (tx_id transaction))))
     end)
    (fun error => throw error).

End StocksService.

(** ** TransactionsService (transactions.service.ts) *)

Record DateRangeResult := mkDateRange {
  successful : list TransactionDto;
  failed : list TransactionDto;
  pending : list TransactionDto }.

Record DailyStats := mkDailyStats {
  totalTransactions : Z;
  successfulTransactions : Z;
  failedTransactions : Z;
  pendingTransactions : Z;
  totalVolume : Z;
  totalValue : Q }.

(** The row with its [include: { stock: true }] relation, as the DTO the
    service builds from it.  The relation is required by the schema; reading
    [transaction.stock.symbol] of a row without its stock is a TypeError. *)
Definition toTransactionDto (d : Db) (t : Transaction) : Result TransactionDto :=
  match stock_findById (tx_stockId t) d with
  | Some s =>
      Ok (mkTransactionDto (tx_id t) (tx_userId t) (tx_stockId t)
            (stock_symbol s) (tx_type t) (tx_quantity t) (tx_price t)
            (tx_totalAmount t) (tx_status t) (tx_errorMessage t)
            (tx_createdAt t) (tx_processedAt t))
  | None => Throw (TypeError "Cannot read properties of null")
  end.

Fixpoint mapResult {A B} (f : A -> Result B) (l : list A) : Result (list B) :=
  match l with
  | [] => Ok []
  | a :: r =>
      match f a, mapResult f r with
      | Ok b, Ok bs => Ok (b :: bs)
      | Throw e, _ => Throw e
      | Ok _, Throw e => Throw e
      end
  end.

(** [orderBy: { createdAt: 'desc' }], rows of equal date kept in table
    order. *)
Fixpoint insertDesc (t : Transaction) (l : list Transaction) : list Transaction :=
  match l with
  | [] => [t]
  | x :: r =>
      if (tx_createdAt x <? tx_createdAt t)%Z then t :: x :: r
      else x :: insertDesc t r
  end.

Definition orderByCreatedAtDesc (l : list Transaction) : list Transaction :=
  fold_right insertDesc [] l.

(** Update transaction status *)
Definition updateTransactionStatus (processTransactionDto : ProcessTransactionDto)
  : M TransactionDto :=
  tryCatch
    (date <- now ;;
     transaction <-
       transaction_update (pt_transactionId processTransactionDto)
         (pt_status processTransactionDto)
         (pt_errorMessage processTransactionDto) date ;;
     fun w => (toTransactionDto (db w) transaction, w))
    (fun error => throw error).

(** Get transactions for date range (for daily reports) *)
Definition getTransactionsForDateRange (startDate endDate : Date)
  : M DateRangeResult :=
  tryCatch
    (fun w =>
       let transactions :=
         orderByCreatedAtDesc
           (filter (fun t => (startDate <=? tx_createdAt t)%Z
                             && (tx_createdAt t <=? endDate)%Z)
              (transactions (db w))) in
       match mapResult (toTransactionDto (db w)) transactions with
       | Throw e => (Throw e, w)
       | Ok mappedTransactions =>
           (Ok {| successful :=
                    filter (fun t => TransactionStatus_eqb (tdto_status t) SUCCESS)
                      mappedTransactions;
                  failed :=
                    filter (fun t => TransactionStatus_eqb (tdto_status t) FAILED)
                      mappedTransactions;
                  pending :=
                    filter (fun t => TransactionStatus_eqb (tdto_status t) PENDING)
                      mappedTransactions |}, w)
       end)
    (fun error => throw error).

Definition msPerDay : Z := 86400000.

(** [date.setHours(h, m, s, ms)]: the local time of day of the object is
    replaced and the new time value returned; [tz] is the offset of local
    time from UTC in milliseconds (taken as fixed). *)
Definition setHours (tz : Z) (h m s ms : Z) (date : Date) : Date :=
  let local := (date + tz)%Z in
  (local - local mod msPerDay + ((h * 60 + m) * 60 + s) * 1000 + ms - tz)%Z.

(** Get daily transaction statistics.  Both [setHours] calls act on the
    caller's [date] object; the second component of the result is the time
    value it holds when the method is done. *)
Definition getDailyTransactionStats (tz : Z) (date : Date)
  : World -> Result DailyStats * Date * World := fun w =>
  let date1 := setHours tz 0 0 0 0 date in
  let startOfDay := date1 in
  let date2 := setHours tz 23 59 59 999 date1 in
  let endOfDay := date2 in
  match getTransactionsForDateRange startOfDay endOfDay w with
  | (Throw error, w1) => (Throw error, date2, w1)
  | (Ok transactions, w1) =>
      let allTransactions :=
        successful transactions ++ failed transactions ++ pending transactions in
      let stats :=
        {| totalTransactions := Z.of_nat (List.length allTransactions);
           successfulTransactions := Z.of_nat (List.length (successful transactions));
           failedTransactions := Z.of_nat (List.length (failed transactions));
           pendingTransactions := Z.of_nat (List.length (pending transactions));
           totalVolume :=
             fold_left (fun sum t => (sum + tdto_quantity t)%Z) allTransactions 0%Z;
           totalValue :=
             fold_left (fun sum t => (sum + tdto_total t)%Q)
               (successful transactions) 0%Q |} in
      (Ok stats, date2, w1)
  end.

(** * Scenarios

    Concrete environments and worlds on which the services are run. *)



(** A vendor that answers every request with status 400. *)
Definition badRequest : AxiosError :=
  mkAxiosError (StatusError 400) "Request failed with status code 400".

Definition vendorRejects : Env :=
  mkEnv (getConfiguration None None) (fun _ _ => Failure badRequest)
    (fun _ => false).

(** A vendor whose first two answers are 400 and whose third is a listing
    of one stock. *)
Definition appleAt (price : Q) : VendorStockDto :=
  mkVendorStock "aapl" "Apple Inc." price.

Definition listing (l : list VendorStockDto) : HttpOutcome :=
  Response (mkApiResponse 200 (mkStockList l None)).


(** A cached stock, a world in which the cache is fresh and one in which it
    is stale, and a vendor that lists the stock at 200 and confirms every
    purchase. *)
Definition apple : Stock := mkStock 1 "AAPL" "Apple Inc." 100 0.

Definition cachedDb : Db := mkDb [apple] [] [] [] 2.

Definition freshWorld : World := mkWorld cachedDb 1000 0 [].

Definition staleWorld : World := mkWorld cachedDb 1000000 0 [].

Definition vendorConfirms : Env :=
  mkEnv (getConfiguration None None) (fun _ _ => listing [appleAt 200])
    (fun _ => false).

(** A ledger with one settled purchase of the cached stock. *)
Definition settledRow : Transaction :=
  mkTransaction 2 "user1" 1 None BUY 10 100 1000 SUCCESS None 400
    (Some 500%Z).

Definition ledgerWorld : World :=
  mkWorld (mkDb [apple] [] [] [settledRow] 3) 1000 0 [].

(** A vendor that lists two stocks, the second of which the storage layer
    refuses (its upsert is rejected). *)
Definition microsoft : VendorStockDto := mkVendorStock "msft" "Microsoft" 300.

Definition vendorListsTwo : Env :=
  mkEnv (getConfiguration None None)
    (fun _ _ => listing [appleAt 200; microsoft])
    (fun v => vs_symbol v =? "msft").

(** A vendor whose listing page does not hold the cached stock. *)
Definition vendorListsOther : Env :=
  mkEnv (getConfiguration None None) (fun _ _ => listing [microsoft])
    (fun _ => false).

(** * Frames

    [touches P w w']: going from [w] to [w'], the database and every
    snapshot written on the way are related to the database of [w] by [P]. *)

Definition touches (P : Db -> Db -> Prop) (w w' : World) : Prop :=
  P (db w) (db w')
  /\ exists new, history w' = new ++ history w /\ Forall (P (db w)) new.

(** Only the stock cache differs. *)
Definition stocksOnly (d d' : Db) : Prop :=
  transactions d' = transactions d
  /\ portfolios d' = portfolios d
  /\ portfolioStocks d' = portfolioStocks d.

(** Only portfolios and positions differ. *)
Definition portfolioOnly (d d' : Db) : Prop :=
  transactions d' = transactions d /\ stocks d' = stocks d.

Definition terminal (s : TransactionStatus) : Prop :=
  s = SUCCESS \/ s = FAILED.

(** * Positions and fills *)

(** The position [updateUserPortfolio] works on: the row of the user's
    first portfolio for the stock. *)
Definition position (userId : string) (stockId : Id) (d : Db)
  : option PortfolioStock :=
  match find (fun p => portfolio_userId p =? userId) (portfolios d) with
  | Some p => find (samePosition (portfolio_id p) stockId) (portfolioStocks d)
  | None => None
  end.

(** Position rows refer to portfolios created before them (the foreign key
    of the schema, with identifiers that are never reused). *)
Definition freshIds (d : Db) : Prop :=
  forall ps, In ps (portfolioStocks d) -> (ps_portfolioId ps < nextId d)%nat.

(** The position after a fill of [quantity] at [price] into [existing]. *)
Definition filled (existing : PortfolioStock) (quantity : Z) (price : Q)
  (date : Date) : PortfolioStock :=
  mkPortfolioStock (ps_id existing) (ps_portfolioId existing)
    (ps_stockId existing) (ps_quantity existing + quantity)
    ((inject_Z (ps_quantity existing) * ps_averagePrice existing
      + inject_Z quantity * price) / inject_Z (ps_quantity existing + quantity))
    (ps_createdAt existing) date.




(** * The purchase, step by step *)

(** The row [buyStock] opens once the price check has passed in world [w]. *)
Definition openedRow (userId : string) (stock : StockDto)
  (buyData : BuyStockDto) (w : World) : Transaction :=
  mkTransaction (nextId (db w)) userId (dto_id stock) None BUY
    (buy_quantity buyData) (buy_price buyData)
    (buy_price buyData * inject_Z (buy_quantity buyData)) PENDING None
    (clock w) None.

(** The world once that row is stored. *)
Definition opened (userId : string) (stock : StockDto)
  (buyData : BuyStockDto) (w : World) : World :=
  write (fun d => bump (set_transactions
                          (transactions d ++ [openedRow userId stock buyData w])
                          d)) w.

(** The world once the rows of identifier [id] are closed. *)
Definition closed (id : Id) (status : TransactionStatus)
  (errorMessage : option string) (w : World) : World :=
  write (fun d => set_transactions
           (updateWhere (hasId id) (settle status errorMessage (clock w))
              (transactions d)) d) w.

(** A snapshot in which a portfolio or a position differs from database
    [d]. *)
Definition portfolioMutated (d s : Db) : Prop :=
  portfolios s <> portfolios d \/ portfolioStocks s <> portfolioStocks d.

(** A snapshot that holds the row of identifier [id] in a terminal state. *)
Definition ledgerTerminal (id : Id) (s : Db) : Prop :=
  exists t, In t (transactions s) /\ tx_id t = id /\ terminal (tx_status t).

(** The cached row of a symbol. *)
Definition cached (symbol : string) (d : Db) : option Stock :=
  find (fun s => stock_symbol s =? symbol) (stocks d).

(** The upserts [updateStockCache] awaits together. *)
Definition upserts (this : Env) (date : Date) (l : list VendorStockDto)
  : list (M Stock) :=
  map (fun vendorStock =>
         stock_upsert this (toUpperCase (vs_symbol vendorStock)) vendorStock
           date) l.

(** * The other service methods *)

(** ** TransactionsService: creation and queries *)

Record CreateTransactionDto := mkCreateTransaction {
  ct_userId : string;
  ct_stockId : Id;
  ct_symbol : string;
  ct_type : TransactionType;
  ct_quantity : Z;
  ct_price : Q }.

(** The text of an identifier, as it appears in messages. *)
Definition idText (id : Id) : string :=
  NilEmpty.string_of_uint (Nat.to_uint id).

(** [new NotFoundException(message)] *)
Definition NotFoundException (msg : string) : Error := HttpException msg 404.

(** Create a new transaction record.  The row is created with its stock
    relation included; the foreign key of the schema makes the creation
    fail, with nothing written, when the stock is not stored. *)
Definition createTransaction (createTransactionDto : CreateTransactionDto)
  : M TransactionDto :=
  tryCatch
    (fun w =>
       match stock_findById (ct_stockId createTransactionDto) (db w) with
       | None => (Throw (PrismaError "Foreign key constraint failed"), w)
       | Some _ =>
           (transaction <-
              transaction_create (ct_userId createTransactionDto)
                (ct_stockId createTransactionDto)
                (ct_type createTransactionDto)
                (ct_quantity createTransactionDto)
                (ct_price createTransactionDto)
                (ct_price createTransactionDto
                 * inject_Z (ct_quantity createTransactionDto))%Q ;;
            fun w1 => (toTransactionDto (db w1) transaction, w1)) w
       end)
    (fun error => throw error).

(** Get transaction by ID *)
Definition getTransactionById (transactionId : Id) : M TransactionDto :=
  tryCatch
    (fun w =>
       match find (hasId transactionId) (transactions (db w)) with
       | None =>
           (Throw (NotFoundException
                     ("Transaction " ++ idText transactionId ++ " not found")%string),
            w)
       | Some transaction => (toTransactionDto (db w) transaction, w)
       end)
    (fun error => throw error).


(** Get transactions by status *)
Definition getTransactionsByStatus (status : TransactionStatus)
  : M (list TransactionDto) :=
  tryCatch
    (fun w =>
       let transactions :=
         orderByCreatedAtDesc
           (filter (fun t => TransactionStatus_eqb (tx_status t) status)
              (transactions (db w))) in
       (mapResult (toTransactionDto (db w)) transactions, w))
    (fun error => throw error).

(** ** ReportsService (reports.service.ts) *)

Record DailyReportDto := mkDailyReport {
  report_date : Date;
  totalSuccessfulTransactions : Z;
  totalFailedTransactions : Z;
  report_totalVolume : Z;
  report_totalValue : Q;
  report_successfulTransactions : list TransactionDto;
  report_failedTransactions : list TransactionDto }.

(** Generate daily report for a specific date.  The [date] of the report is
    the caller's object, read when the report is built; the second component
    of the result is the time value the object holds in the end. *)
Definition generateDailyReport (tz : Z) (date : Date)
  : World -> Result DailyReportDto * Date * World := fun w =>
  let date1 := setHours tz 0 0 0 0 date in
  let startOfDay := date1 in
  let date2 := setHours tz 23 59 59 999 date1 in
  let endOfDay := date2 in
  match getTransactionsForDateRange startOfDay endOfDay w with
  | (Throw error, w1) => (Throw error, date2, w1)
  | (Ok transactionData, w1) =>
      let totalVolume :=
        fold_left (fun sum t => (sum + tdto_quantity t)%Z)
          (successful transactionData ++ failed transactionData
           ++ pending transactionData) 0%Z in
      let totalValue :=
        fold_left (fun sum t => (sum + tdto_total t)%Q)
          (successful transactionData) 0%Q in
      (Ok {| report_date := date2;
             totalSuccessfulTransactions :=
               Z.of_nat (List.length (successful transactionData));
             totalFailedTransactions :=
               Z.of_nat (List.length (failed transactionData));
             report_totalVolume := totalVolume;
             report_totalValue := totalValue;
             report_successfulTransactions := successful transactionData;
             report_failedTransactions := failed transactionData |},
       date2, w1)
  end.

(** ** PortfoliosService (portfolios.service.ts) *)

Record PortfolioStockDto := mkPortfolioStockDto {
  psd_stockId : Id;
  psd_symbol : string;
  psd_name : string;
  psd_quantity : Z;
  psd_averagePrice : Q;
  psd_currentPrice : Q;
  psd_totalValue : Q;
  psd_gain : Q;
  psd_gainPercentage : Q }.

Record PortfolioDto := mkPortfolioDto {
  pd_id : Id;
  pd_userId : string;
  pd_name : string;
  pd_stocks : list PortfolioStockDto;
  pd_totalValue : Q;
  pd_totalGain : Q;
  pd_totalGainPercentage : Q;
  pd_createdAt : Date;
  pd_updatedAt : Date }.

Record CreatePortfolioDto := mkCreatePortfolio {
  cp_userId : string;
  cp_name : option string }.

(** [include: { stocks: { include: { stock: true } } }]: the positions of a
    portfolio, each with its stock row, as the query finds them.  The
    relation is required; a position without its stock is an error of the
    query. *)
Definition includeStocks (d : Db) (portfolio : Portfolio)
  : Result (list (PortfolioStock * Stock)) :=
  mapResult
    (fun ps =>
       match stock_findById (ps_stockId ps) d with
       | Some s => Ok (ps, s)
       | None => Throw (PrismaError "Inconsistent query result")
       end)
    (filter (fun ps => Nat.eqb (ps_portfolioId ps) (portfolio_id portfolio))
       (portfolioStocks d)).

(** [orderBy: { createdAt: 'desc' }] on portfolios, rows of equal date kept
    in table order. *)
Fixpoint insertPortfolioDesc (p : Portfolio) (l : list Portfolio)
  : list Portfolio :=
  match l with
  | [] => [p]
  | x :: r =>
      if (portfolio_createdAt x <? portfolio_createdAt p)%Z then p :: x :: r
      else x :: insertPortfolioDesc p r
  end.

Definition orderPortfoliosDesc (l : list Portfolio) : list Portfolio :=
  fold_right insertPortfolioDesc [] l.

(** The running totals of the valuation loop: the stocks listed so far,
    [totalValue] and [totalCost]. *)
Definition Valuation : Type := (list PortfolioStockDto * Q * Q)%type.

Section PortfoliosService.

Variable this : Env.

(** One turn of the loop over [portfolio.stocks]. *)
Definition valueStock (item : PortfolioStock * Stock) (acc : Valuation)
  : M Valuation :=
  let '(portfolioStock, stock) := item in
  let '(portfolioStocks, totalValue, totalCost) := acc in
  currentStock <- getStockBySymbol this (stock_symbol stock) ;;
  match currentStock with
  | Some currentStock =>
      let currentPrice := dto_price currentStock in
      let quantity := ps_quantity portfolioStock in
      let averagePrice := ps_averagePrice portfolioStock in
      let totalStockValue := (currentPrice * inject_Z quantity)%Q in
      let totalStockCost := (averagePrice * inject_Z quantity)%Q in
      let gain := (totalStockValue - totalStockCost)%Q in
      let gainPercentage :=
        if Qgtb totalStockCost 0 then (gain / totalStockCost * 100)%Q
        else 0%Q in
      ret (portfolioStocks
           ++ [mkPortfolioStockDto (ps_stockId portfolioStock)
                 (stock_symbol stock) (stock_name stock) quantity
                 averagePrice currentPrice totalStockValue gain
                 gainPercentage],
           (totalValue + totalStockValue)%Q,
           (totalCost + totalStockCost)%Q)
  | None => ret acc
  end.

Fixpoint valueStocks (items : list (PortfolioStock * Stock)) (acc : Valuation)
  : M Valuation :=
  match items with
  | [] => ret acc
  | item :: rest => acc' <- valueStock item acc ;; valueStocks rest acc'
  end.

(** The DTO built from a portfolio and its loaded positions. *)
Definition valuePortfolio (loaded : Portfolio * list (PortfolioStock * Stock))
  : M PortfolioDto :=
  let '(portfolio, items) := loaded in
  acc <- valueStocks items ([], 0%Q, 0%Q) ;;
  let '(portfolioStocks, totalValue, totalCost) := acc in
  let totalGain := (totalValue - totalCost)%Q in
  let totalGainPercentage :=
    if Qgtb totalCost 0 then (totalGain / totalCost * 100)%Q else 0%Q in
  ret (mkPortfolioDto (portfolio_id portfolio) (portfolio_userId portfolio)
         (portfolio_name portfolio) portfolioStocks totalValue totalGain
         totalGainPercentage (portfolio_createdAt portfolio)
         (portfolio_updatedAt portfolio)).

Fixpoint valuePortfolios
  (loaded : list (Portfolio * list (PortfolioStock * Stock)))
  : M (list PortfolioDto) :=
  match loaded with
  | [] => ret []
  | l :: rest =>
      dto <- valuePortfolio l ;;
      dtos <- valuePortfolios rest ;;
      ret (dto :: dtos)
  end.

(** Get user's portfolios with current stock prices and calculations *)
Definition getUserPortfolios (userId : string) : M (list PortfolioDto) :=
  tryCatch
    (fun w =>
       let portfolios :=
         orderPortfoliosDesc
           (filter (fun p => portfolio_userId p =? userId)
              (portfolios (db w))) in
       match mapResult
               (fun p => match includeStocks (db w) p with
                         | Ok items => Ok (p, items)
                         | Throw e => Throw e
                         end) portfolios with
       | Throw e => (Throw e, w)
       | Ok loaded => valuePortfolios loaded w
       end)
    (fun error => throw error).

(** Get specific portfolio by ID *)
Definition getPortfolioById (portfolioId : Id) (userId : string)
  : M PortfolioDto :=
  tryCatch
    (fun w =>
       match find (fun p => Nat.eqb (portfolio_id p) portfolioId
                            && (portfolio_userId p =? userId))
               (portfolios (db w)) with
       | None =>
           (Throw (NotFoundException
                     ("Portfolio " ++ idText portfolioId ++ " not found")%string),
            w)
       | Some portfolio =>
           match includeStocks (db w) portfolio with
           | Throw e => (Throw e, w)
           | Ok items => valuePortfolio (portfolio, items) w
           end
       end)
    (fun error => throw error).

(** Create a new portfolio for user; [name || 'Default Portfolio']. *)
Definition createPortfolio (createPortfolioDto : CreatePortfolioDto)
  : M PortfolioDto :=
  tryCatch
    (portfolio <-
       portfolio_create (cp_userId createPortfolioDto)
         (match cp_name createPortfolioDto with
          | None => "Default Portfolio"
          | Some "" => "Default Portfolio"
          | Some name => name
          end) ;;
     ret (mkPortfolioDto (portfolio_id portfolio) (portfolio_userId portfolio)
            (portfolio_name portfolio) [] 0 0 0
            (portfolio_createdAt portfolio) (portfolio_updatedAt portfolio)))
    (fun error => throw error).

(** Get or create user's default portfolio *)
Definition getOrCreateDefaultPortfolio (userId : string) : M PortfolioDto :=
  tryCatch
    (portfolios <- getUserPortfolios userId ;;
     match portfolios with
     | first :: _ => ret first
     | [] => createPortfolio (mkCreatePortfolio userId (Some "Default Portfolio"))
     end)
    (fun error => throw error).

End PortfoliosService.

(** ** StocksController and the global exception filter *)

Record ApiResponse (T : Type) := mkResponse {
  response_status : Z;
  response_data : T;
  response_message : string }.
Arguments mkResponse {T} _ _ _.
Arguments response_status {T} _.
Arguments response_data {T} _.
Arguments response_message {T} _.

(** What the client receives: the body a controller returned, or the error
    body the filter built from what was thrown. *)
Inductive Reply (T : Type) :=
| Returned (body : ApiResponse T)
| Filtered (status : Z) (msg : string).
Arguments Returned {T} body.
Arguments Filtered {T} status msg.

(** [GlobalExceptionFilter.catch]: the status and the message of the error
    body.  An [HttpException] gives its own status and message; any other
    error gives 500 and its message. *)
Definition catchException {T} (exception : Error) : Reply T :=
  match exception with
  | HttpException msg status => Filtered status msg
  | e => Filtered 500 (message e)
  end.

(** A controller method behind the filter. *)
Definition handled {T} (method : M (ApiResponse T)) : World -> Reply T * World :=
  fun w =>
  match method w with
  | (Ok body, w1) => (Returned body, w1)
  | (Throw e, w1) => (catchException e, w1)
  end.

Section StocksController.

Variable this : Env.

(** GET /stocks *)
Definition controller_getStocks (nextToken : option string)
  : M (ApiResponse StockListResponseDto) :=
  tryCatch
    (stocks <- getAllStocks this nextToken ;;
     ret (mkResponse 200 stocks "Stocks retrieved successfully"))
    (fun error => throw error).

(** GET /stocks/:symbol *)
Definition controller_getStockBySymbol (symbol : string)
  : M (ApiResponse (option StockDto)) :=
  tryCatch
    (stock <- getStockBySymbol this symbol ;;
     ret (mkResponse 200 stock
            (match stock with
             | Some _ => "Stock retrieved successfully"
             | None => "Stock not found"
             end)))
    (fun error => throw error).

(** POST /stocks/:symbol/buy; an absent or empty [userId] is falsy. *)
Definition controller_buyStock (symbol : string) (buyStockDto : BuyStockDto)
  (userId : option string) : M (ApiResponse BuyResult) :=
  tryCatch
    (match userId with
     | None | Some "" =>
         ret (mkResponse 400
                (mkBuyResult false (Some (Text "User ID is required")) None)
                "Bad request")
     | Some userId =>
         result <- buyStock this symbol buyStockDto userId ;;
         ret (mkResponse (if success result then 200 else 400) result
                (if success result then "Purchase completed"
                 else "Purchase failed"))
     end)
    (fun error => throw error).

End StocksController.

(** * The constraints of the schema

    [wellFormed d]: the database satisfies what prisma/schema.prisma
    declares.  Stock symbols are unique ([@unique]); a portfolio holds at
    most one position per stock ([@@unique([portfolioId, stockId])]);
    identifiers are unique in each table and were all drawn from the
    counter ([@id @default(cuid())]); positions refer to stored portfolios
    and stocks, and transactions to stored stocks ([@relation]). *)

Definition positionKey (ps : PortfolioStock) : Id * Id :=
  (ps_portfolioId ps, ps_stockId ps).

(** The identifiers [l] of a table are distinct and below the counter. *)
Definition drawn (l : list Id) (next : Id) : Prop :=
  NoDup l /\ forall i, In i l -> (i < next)%nat.

Record wellFormed (d : Db) : Prop := mkWellFormed {
  wf_symbols : NoDup (map stock_symbol (stocks d));
  wf_positions : NoDup (map positionKey (portfolioStocks d));
  wf_stockIds : drawn (map stock_id (stocks d)) (nextId d);
  wf_portfolioIds : drawn (map portfolio_id (portfolios d)) (nextId d);
  wf_positionIds : drawn (map ps_id (portfolioStocks d)) (nextId d);
  wf_transactionIds : drawn (map tx_id (transactions d)) (nextId d);
  wf_positionPortfolio :
    forall ps, In ps (portfolioStocks d) ->
               In (ps_portfolioId ps) (map portfolio_id (portfolios d));
  wf_positionStock :
    forall ps, In ps (portfolioStocks d) ->
               In (ps_stockId ps) (map stock_id (stocks d));
  wf_transactionStock :
    forall t, In t (transactions d) ->
              In (tx_stockId t) (map stock_id (stocks d)) }.

(** The transactions created on the local calendar day of [date]. *)
Definition sameDay (tz : Z) (date created : Date) : bool :=
  ((created + tz) / msPerDay =? (date + tz) / msPerDay)%Z.

Definition createdOn (tz : Z) (date : Date) (d : Db) : list Transaction :=
  filter (fun t => sameDay tz date (tx_createdAt t)) (transactions d).

(** [keeps w w']: if the database of [w] is well formed, so are the database
    of [w'] and every snapshot written on the way from [w] to [w']. *)
Definition keeps (w w' : World) : Prop :=
  wellFormed (db w) ->
  wellFormed (db w')
  /\ (nextId (db w) <= nextId (db w'))%nat
  /\ exists new, history w' = new ++ history w /\ Forall wellFormed new.

(** The shares and the money of a list of transactions. *)
Definition volumeOf (l : list Transaction) : Z :=
  fold_right (fun t acc => (tx_quantity t + acc)%Z) 0%Z l.

Definition valueOf (l : list Transaction) : Q :=
  fold_right (fun t acc => (tx_totalAmount t + acc)%Q) 0%Q l.

Definition withStatus (s : TransactionStatus) (l : list Transaction)
  : list Transaction :=
  filter (fun t => TransactionStatus_eqb (tx_status t) s) l.

(** A DTO that carries the fields of a row. *)
Definition mirrors (t : Transaction) (r : TransactionDto) : Prop :=
  tdto_quantity r = tx_quantity t
  /\ tdto_total r = tx_totalAmount t
  /\ tdto_status r = tx_status t
  /\ tdto_userId r = tx_userId t
  /\ tdto_id r = tx_id t.

(** * Valued portfolios *)

(** A line of a portfolio DTO is valued at its current price, and its gain
    is that value less what the shares cost. *)
Definition lineCost (line : PortfolioStockDto) : Q :=
  (psd_averagePrice line * inject_Z (psd_quantity line))%Q.

Definition lineValued (line : PortfolioStockDto) : Prop :=
  psd_totalValue line
  = (psd_currentPrice line * inject_Z (psd_quantity line))%Q
  /\ psd_gain line = (psd_totalValue line - lineCost line)%Q.

Definition sumValue (l : list PortfolioStockDto) : Q :=
  fold_right (fun line acc => (psd_totalValue line + acc)%Q) 0%Q l.

Definition sumGain (l : list PortfolioStockDto) : Q :=
  fold_right (fun line acc => (psd_gain line + acc)%Q) 0%Q l.

Definition sumLineCost (l : list PortfolioStockDto) : Q :=
  fold_right (fun line acc => (lineCost line + acc)%Q) 0%Q l.

(** The totals of a portfolio DTO are the sums over the lines it lists. *)
Definition valued (dto : PortfolioDto) : Prop :=
  Forall lineValued (pd_stocks dto)
  /\ (pd_totalValue dto == sumValue (pd_stocks dto))%Q
  /\ (pd_totalGain dto == sumGain (pd_stocks dto))%Q.

(** The portfolios of a user, in table order. *)
Definition portfoliosOf (userId : string) (d : Db) : list Portfolio :=
  filter (fun p => portfolio_userId p =? userId) (portfolios d).

(** A user with one portfolio that holds ten shares of the cached stock,
    bought at 90. *)
Definition defaultPortfolio : Portfolio :=
  mkPortfolio 2 "user1" "Default Portfolio" 500 500.

Definition heldPosition : PortfolioStock :=
  mkPortfolioStock 3 2 1 10 90 500 500.

Definition holdingWorld : World :=
  mkWorld (mkDb [apple] [defaultPortfolio] [heldPosition] [] 4) 1000 0 [].

(** Dates in descending order. *)
Fixpoint newestFirst (dates : list Date) : Prop :=
  match dates with
  | [] => True
  | d :: rest => Forall (fun x => (x <= d)%Z) rest /\ newestFirst rest
  end.

(** [spends requests wait w w']: from [w] to [w'] at most [requests]
    requests were sent to the vendor and at most [wait] milliseconds were
    spent between attempts. *)
Definition spends (requests : nat) (wait : Z) (w w' : World) : Prop :=
  (httpCalls w <= httpCalls w' <= httpCalls w + requests)%nat
  /\ (clock w <= clock w' <= clock w + wait)%Z.

(** * Properties *)

(** ** Lists, comparisons and the monad *)

Lemma Qgtb_false a b : Qgtb a b = false <-> (a <= b)%Q.
Proof.
  unfold Qgtb. rewrite (Qle_alt a b).
  destruct (a ?= b)%Q; split; intro H; congruence.
Qed.

Lemma find_app_none {A} (p : A -> bool) l x :
  find p l = None -> find p (l ++ [x]) = if p x then Some x else None.
Proof.
  induction l as [|a l IH]; simpl; intro H; [reflexivity|].
  destruct (p a); [discriminate | auto].
Qed.

Lemma find_app_some {A} (p : A -> bool) l l' y :
  find p l = Some y -> find p (l ++ l') = Some y.
Proof.
  induction l as [|a l IH]; simpl; intro H; [discriminate|].
  destruct (p a); auto.
Qed.

Lemma find_In {A} (p : A -> bool) l x :
  In x l -> p x = true -> exists y, find p l = Some y.
Proof.
  intros Hin Hp. destruct (find p l) eqn:E; [eauto|].
  rewrite (find_none p l E x Hin) in Hp. discriminate.
Qed.

Lemma find_updateWhere {A} (p q : A -> bool) (f : A -> A) l :
  (forall x, q x = true -> p (f x) = p x) ->
  find p (updateWhere q f l)
  = option_map (fun x => if q x then f x else x) (find p l).
Proof.
  intro Hp. induction l as [|a l IH]; simpl; [reflexivity|].
  destruct (q a) eqn:Q.
  - rewrite (Hp a Q). destruct (p a); simpl; [now rewrite Q | exact IH].
  - destruct (p a); simpl; [now rewrite Q | exact IH].
Qed.

Lemma updateWhere_In {A} (q : A -> bool) (f : A -> A) l y :
  In y (updateWhere q f l) ->
  exists x, In x l /\ y = if q x then f x else x.
Proof.
  unfold updateWhere. rewrite in_map_iff. intros [x [E Hin]]. eauto.
Qed.

(** ** The retry loop *)

Lemma retry_frame this count delay req : forall w,
  db (snd (retry this count delay req w)) = db w
  /\ history (snd (retry this count delay req w)) = history w.
Proof.
  induction count as [|k IH]; intro w; simpl;
    destruct (vendor this (httpCalls w) req); simpl; auto.
  destruct (IH (sleep delay (sent w))) as [H1 H2]. rewrite H1, H2. auto.
Qed.


(** A fact of the world [retry] leaves behind carries over to the calls
    that wrap it. *)
Ltac by_retry fact :=
  match goal with
  | |- context [retry ?this ?count ?delay ?req ?w] =>
      let H := fresh in
      pose proof (fact this count delay req w) as H;
      destruct (retry this count delay req w) as [[?|?] ?];
      simpl in *; exact H
  end.



(** ** Retry policy *)




(** ** Frames of the storage operations *)

Lemma touches_refl (P : Db -> Db -> Prop) w :
  (forall d, P d d) -> touches P w w.
Proof.
  intro R. split; [apply R|]. exists []. split; [reflexivity | constructor].
Qed.

Lemma touches_trans (P : Db -> Db -> Prop) w1 w2 w3 :
  (forall a b c, P a b -> P b c -> P a c) ->
  touches P w1 w2 -> touches P w2 w3 -> touches P w1 w3.
Proof.
  intros T [H12 [n12 [E12 F12]]] [H23 [n23 [E23 F23]]].
  split; [eauto|]. exists (n23 ++ n12). split.
  - rewrite E23, E12. now rewrite app_assoc.
  - apply Forall_app. split; [|exact F12].
    eapply Forall_impl; [|exact F23]. intros d Hd. eauto.
Qed.

Lemma touches_write (P : Db -> Db -> Prop) f w :
  P (db w) (f (db w)) -> touches P w (write f w).
Proof.
  intro H. split; [exact H|]. exists [f (db w)]. split; [reflexivity|].
  constructor; [exact H | constructor].
Qed.

Lemma touches_same (P : Db -> Db -> Prop) w w' :
  (forall d, P d d) -> db w' = db w -> history w' = history w ->
  touches P w w'.
Proof.
  intros R Hd Hh. split; [rewrite Hd; apply R|].
  exists []. split; [exact Hh | constructor].
Qed.

Lemma stocksOnly_refl d : stocksOnly d d.
Proof. repeat split. Qed.

Lemma stocksOnly_trans a b c : stocksOnly a b -> stocksOnly b c -> stocksOnly a c.
Proof. unfold stocksOnly. intuition congruence. Qed.

Lemma portfolioOnly_trans a b c :
  portfolioOnly a b -> portfolioOnly b c -> portfolioOnly a c.
Proof. unfold portfolioOnly. intuition congruence. Qed.

Lemma stock_upsert_frame this symbol v date w :
  touches stocksOnly w (snd (stock_upsert this symbol v date w))
  /\ clock (snd (stock_upsert this symbol v date w)) = clock w
  /\ httpCalls (snd (stock_upsert this symbol v date w)) = httpCalls w.
Proof.
  unfold stock_upsert. destruct (upsertFails this v); simpl.
  - split; [apply touches_refl, stocksOnly_refl | auto].
  - destruct (find _ (stocks (db w))); simpl;
      (split; [apply touches_write; repeat split | auto]).
Qed.

Lemma promiseAll_upserts_frame this date l : forall w,
  let ps := map (fun v => stock_upsert this (toUpperCase (vs_symbol v)) v date) l in
  touches stocksOnly w (snd (promiseAll ps w))
  /\ clock (snd (promiseAll ps w)) = clock w
  /\ httpCalls (snd (promiseAll ps w)) = httpCalls w.
Proof.
  induction l as [|v l IH]; intro w; simpl.
  - split; [apply touches_refl, stocksOnly_refl | auto].
  - destruct (stock_upsert_frame this (toUpperCase (vs_symbol v)) v date w)
      as [T1 [C1 H1]].
    destruct (stock_upsert this (toUpperCase (vs_symbol v)) v date w)
      as [r w1]; simpl in *.
    destruct (IH w1) as [T2 [C2 H2]]. simpl in *.
    destruct (promiseAll _ w1) as [rs w2]; simpl in *.
    split; [|split; congruence].
    eapply touches_trans; eauto using stocksOnly_trans.
Qed.

Lemma updateStockCache_frame this l w :
  fst (updateStockCache this l w) = Ok tt
  /\ touches stocksOnly w (snd (updateStockCache this l w))
  /\ clock (snd (updateStockCache this l w)) = clock w
  /\ httpCalls (snd (updateStockCache this l w)) = httpCalls w.
Proof.
  unfold updateStockCache, tryCatch, bind, now, ret.
  pose proof (promiseAll_upserts_frame this (clock w) l w) as H.
  simpl in H.
  destruct (promiseAll _ w) as [[rs|e] w1]; simpl in *; tauto.
Qed.

Lemma vendorGet_frame this t w :
  db (snd (vendorGet this t w)) = db w
  /\ history (snd (vendorGet this t w)) = history w.
Proof.
  unfold vendorGet.
  by_retry retry_frame.
Qed.

Lemma getStocksFromVendor_frame this t w :
  touches stocksOnly w (snd (getStocksFromVendor this t w)).
Proof.
  unfold getStocksFromVendor, tryCatch, bind, throw, ret.
  pose proof (vendorGet_frame this t w) as [Hd Hh].
  destruct (vendorGet this t w) as [[response|e] w1]; simpl in *.
  - destruct (negb (api_status response =? 200)%Z); simpl.
    + apply touches_same; auto using stocksOnly_refl.
    + pose proof (updateStockCache_frame this (items (api_data response)) w1)
        as [Hr [Ht _]].
      destruct (updateStockCache _ _ w1) as [[[]|e] w2]; simpl in *;
        try discriminate.
      eapply touches_trans; [apply stocksOnly_trans| |exact Ht].
      apply touches_same; auto using stocksOnly_refl.
  - apply touches_same; auto using stocksOnly_refl.
Qed.

Lemma getStockBySymbol_frame this symbol w :
  touches stocksOnly w (snd (getStockBySymbol this symbol w)).
Proof.
  unfold getStockBySymbol, tryCatch, bind, stock_findUnique, now, throw, ret.
  simpl.
  set (stale := match find _ (stocks (db w)) with
                | Some s => _ | None => true end).
  destruct stale.
  - pose proof (getStocksFromVendor_frame this None w) as Hv.
    destruct (getStocksFromVendor this None w) as [[vs|e] w1]; simpl in *;
      [|exact Hv].
    destruct (find _ (items vs)) as [v|]; simpl; [|exact Hv].
    pose proof (stock_upsert_frame this (toUpperCase symbol) v (clock w1) w1)
      as [Hu _].
    destruct (stock_upsert _ _ _ _ w1) as [[s|e] w2]; simpl in *;
      eapply touches_trans; eauto using stocksOnly_trans.
  - destruct (find _ (stocks (db w))); simpl;
      apply touches_refl, stocksOnly_refl.
Qed.

(** ** Portfolio update *)

Lemma updateUserPortfolio_existing userId stockId quantity price w e :
  position userId stockId (db w) = Some e ->
  fst (updateUserPortfolio userId stockId quantity price w) = Ok tt
  /\ position userId stockId
       (db (snd (updateUserPortfolio userId stockId quantity price w)))
     = Some (filled e quantity price (clock w)).
Proof.
  unfold position, updateUserPortfolio, tryCatch, bind, portfolio_findFirst,
    portfolioStock_findUnique, ret, throw.
  simpl. destruct (find _ (portfolios (db w))) as [p|] eqn:Ep; [|discriminate].
  simpl. intro He. rewrite He. unfold portfolioStock_update.
  destruct (find_In (fun x => Nat.eqb (ps_id x) (ps_id e)) (portfolioStocks (db w)) e)
    as [y Hy].
  { now apply find_some in He. }
  { apply Nat.eqb_refl. }
  rewrite Hy. simpl. split; [reflexivity|]. rewrite Ep.
  rewrite find_updateWhere.
  - rewrite He. simpl. rewrite Nat.eqb_refl. reflexivity.
  - intros x _. reflexivity.
Qed.
Lemma updateUserPortfolio_first userId stockId quantity price w :
  position userId stockId (db w) = None ->
  freshIds (db w) ->
  fst (updateUserPortfolio userId stockId quantity price w) = Ok tt
  /\ exists x,
       position userId stockId
         (db (snd (updateUserPortfolio userId stockId quantity price w)))
       = Some x
       /\ ps_quantity x = quantity /\ ps_averagePrice x = price.
Proof.
  unfold position, updateUserPortfolio, tryCatch, bind, portfolio_findFirst,
    portfolioStock_findUnique, ret, throw.
  simpl. destruct (find _ (portfolios (db w))) as [p|] eqn:Ep; simpl.
  - intros He _. rewrite He. simpl. split; [reflexivity|]. rewrite Ep.
    rewrite (find_app_none _ _ _ He). unfold samePosition at 1. simpl.
    rewrite !Nat.eqb_refl. simpl. eauto.
  - intros _ Hfresh.
    assert (Hnone : find (samePosition (nextId (db w)) stockId)
                      (portfolioStocks (db w)) = None).
    { destruct (find _ (portfolioStocks (db w))) as [y|] eqn:Ey; [|reflexivity].
      apply find_some in Ey. destruct Ey as [Hin Hy].
      unfold samePosition in Hy. apply andb_true_iff in Hy.
      destruct Hy as [Hy _]. apply Nat.eqb_eq in Hy.
      specialize (Hfresh y Hin). lia. }
    rewrite Hnone. simpl. split; [reflexivity|].
    rewrite (find_app_none _ _ _ Ep). simpl. rewrite String.eqb_refl.
    rewrite (find_app_none _ _ _ Hnone). unfold samePosition at 1. simpl.
    rewrite !Nat.eqb_refl. simpl. eauto.
Qed.

Lemma updateUserPortfolio_total userId stockId quantity price w :
  fst (updateUserPortfolio userId stockId quantity price w) = Ok tt
  /\ touches portfolioOnly w
       (snd (updateUserPortfolio userId stockId quantity price w))
  /\ clock (snd (updateUserPortfolio userId stockId quantity price w)) = clock w
  /\ httpCalls (snd (updateUserPortfolio userId stockId quantity price w))
     = httpCalls w.
Proof.
  unfold updateUserPortfolio, tryCatch, bind, portfolio_findFirst,
    portfolioStock_findUnique, ret, throw.
  simpl. destruct (find _ (portfolios (db w))) as [p|] eqn:Ep; simpl.
  - destruct (find _ (portfolioStocks (db w))) as [e|] eqn:He; simpl.
    + unfold portfolioStock_update.
      destruct (find_In (fun x => Nat.eqb (ps_id x) (ps_id e))
                  (portfolioStocks (db w)) e) as [y Hy].
      { now apply find_some in He. }
      { apply Nat.eqb_refl. }
      rewrite Hy. simpl. repeat split; auto.
      apply touches_write. repeat split.
    + repeat split; auto. apply touches_write. repeat split.
  - destruct (find _ (portfolioStocks (db w))) as [e|] eqn:He; simpl.
    + unfold portfolioStock_update. simpl.
      destruct (find_In (fun x => Nat.eqb (ps_id x) (ps_id e))
                  (portfolioStocks (db w)) e) as [y Hy].
      { now apply find_some in He. }
      { apply Nat.eqb_refl. }
      rewrite Hy. simpl. repeat split; auto.
      eapply touches_trans; [apply portfolioOnly_trans| |];
        apply touches_write; repeat split.
    + repeat split; auto.
      eapply touches_trans; [apply portfolioOnly_trans| |];
        apply touches_write; repeat split.
Qed.

(** ** Weighted average of fills *)







(** ** The purchase *)

Lemma transaction_update_found id status msg date w :
  (exists t, In t (transactions (db w)) /\ tx_id t = id) ->
  exists t',
    transaction_update id status msg date w
    = (Ok t',
       write (fun d => set_transactions
                (updateWhere (hasId id) (settle status msg date)
                   (transactions d)) d) w).
Proof.
  intros [t [Hin Hid]]. unfold transaction_update.
  destruct (find_In (hasId id) (transactions (db w)) t Hin) as [y Hy].
  { subst id. apply Nat.eqb_refl. }
  rewrite Hy. eauto.
Qed.

Lemma vendorBuy_frame this symbol buyData w :
  db (snd (vendorBuy this symbol buyData w)) = db w
  /\ history (snd (vendorBuy this symbol buyData w)) = history w.
Proof.
  unfold vendorBuy.
  by_retry retry_frame.
Qed.

Lemma buyStock_rejected this symbol buyData userId w stock w1 :
  getStockBySymbol this symbol w = (Ok (Some stock), w1) ->
  outsideTolerance (dto_price stock) (buy_price buyData) = true ->
  buyStock this symbol buyData userId w
  = (Ok (mkBuyResult false
           (Some (OutsideTolerance (buy_price buyData) (dto_price stock)))
           None), w1).
Proof.
  intros Hs Ht. unfold buyStock, tryCatch, bind. rewrite Hs, Ht. reflexivity.
Qed.

Lemma buyStock_admitted this symbol buyData userId w stock w1 :
  getStockBySymbol this symbol w = (Ok (Some stock), w1) ->
  outsideTolerance (dto_price stock) (buy_price buyData) = false ->
  let id := nextId (db w1) in
  let w2 := opened userId stock buyData w1 in
  match vendorBuy this symbol buyData w2 with
  | (Ok _, w3) =>
      buyStock this symbol buyData userId w
      = (Ok (mkBuyResult true None (Some id)),
         snd (updateUserPortfolio userId (dto_id stock)
                (buy_quantity buyData) (buy_price buyData)
                (closed id SUCCESS None w3)))
  | (Throw err, w3) =>
      buyStock this symbol buyData userId w
      = (Ok (mkBuyResult false (Some (Text (message err))) (Some id)),
         closed id FAILED (Some (message err)) w3)
  end.
Proof.
  intros Hs Ht id w2.
  pose proof (vendorBuy_frame this symbol buyData w2) as [Hd Hh].
  assert (Hrow : forall w3, db w3 = db w2 ->
            exists t, In t (transactions (db w3)) /\ tx_id t = id).
  { intros w3 E. exists (openedRow userId stock buyData w1). rewrite E.
    split; [|reflexivity]. simpl. apply in_or_app. right. simpl. auto. }
  destruct (vendorBuy this symbol buyData w2) as [[[]|err] w3] eqn:Ev;
    cbn [fst snd] in *;
    unfold buyStock, tryCatch, bind, now; rewrite Hs, Ht;
    unfold transaction_create;
    fold (openedRow userId stock buyData w1);
    fold (opened userId stock buyData w1); fold w2; rewrite Ev;
    change (tx_id (openedRow userId stock buyData w1)) with id.
  - destruct (transaction_update_found id SUCCESS None (clock w3) w3 (Hrow w3 Hd))
      as [t' Hu].
    rewrite Hu. fold (closed id SUCCESS None w3).
    pose proof (updateUserPortfolio_total userId (dto_id stock)
                  (buy_quantity buyData) (buy_price buyData)
                  (closed id SUCCESS None w3)) as [Hok _].
    destruct (updateUserPortfolio _ _ _ _ _) as [[[]|e] w5]; simpl in *;
      [reflexivity | discriminate].
  - destruct (transaction_update_found id FAILED (Some (message err)) (clock w3)
                w3 (Hrow w3 Hd)) as [t' Hu].
    rewrite Hu. reflexivity.
Qed.
Lemma within_tolerance P r :
  outsideTolerance P r = false <-> (Qabs (P - r) <= P * (2 # 100))%Q.
Proof. unfold outsideTolerance. apply Qgtb_false. Qed.

Lemma closed_row id status msg w t :
  In t (transactions (db w)) -> tx_id t = id ->
  In (settle status msg (clock w) t) (transactions (db (closed id status msg w))).
Proof.
  intros Hin Hid. simpl. unfold updateWhere. apply in_map_iff.
  exists t. split; [|exact Hin]. unfold hasId. rewrite Hid, Nat.eqb_refl.
  reflexivity.
Qed.

Lemma opened_row userId stock buyData w1 w3 :
  db w3 = db (opened userId stock buyData w1) ->
  In (openedRow userId stock buyData w1) (transactions (db w3)).
Proof.
  intro E. rewrite E. simpl. apply in_or_app. right. simpl. auto.
Qed.


(** ** Rejection before the ledger *)

(** C4, as stated, fails: a request turned down by the price check can
    still change stored state.  The cached row is stale, so the price check
    first refreshes the cache (the vendor now lists the stock at 200); the
    request at 100 is then outside the tolerance and is turned down, and
    the stock row has changed. *)
Lemma rejected_buy_counterexample :
  outsideTolerance 200 100 = true
  /\ fst (buyStock vendorConfirms "aapl" (mkBuy 100 10) "user1" staleWorld)
     = Ok (mkBuyResult false (Some (OutsideTolerance 100 200)) None)
  /\ stocks (db staleWorld) = [apple]
  /\ stocks (db (snd (buyStock vendorConfirms "aapl" (mkBuy 100 10) "user1"
                        staleWorld)))
     = [mkStock 1 "AAPL" "Apple Inc." 200 1000000]
  /\ db (snd (buyStock vendorConfirms "aapl" (mkBuy 100 10) "user1" staleWorld))
     <> db staleWorld.
Proof.
  repeat split; try reflexivity. vm_compute. discriminate.
Qed.

(** C4 (amended): a request outside the tolerance of the price obtained at
    check time is answered with [success = false], the message about the
    tolerance and no transaction identifier; no transaction row is created:
    the transactions, the portfolios and the positions are those of before
    the call, in the final database and in every snapshot written during
    the call.  Only the stock cache may differ (the price lookup may have
    refreshed it). *)
Theorem rejected_buy_writes_no_ledger this symbol buyData userId w stock w1 :
  getStockBySymbol this symbol w = (Ok (Some stock), w1) ->
  ~ (Qabs (dto_price stock - buy_price buyData) <= dto_price stock * (2 # 100))%Q ->
  let w' := snd (buyStock this symbol buyData userId w) in
  fst (buyStock this symbol buyData userId w)
  = Ok (mkBuyResult false
          (Some (OutsideTolerance (buy_price buyData) (dto_price stock))) None)
  /\ transactions (db w') = transactions (db w)
  /\ portfolios (db w') = portfolios (db w)
  /\ portfolioStocks (db w') = portfolioStocks (db w)
  /\ exists new,
       history w' = new ++ history w
       /\ forall s, In s new ->
            transactions s = transactions (db w)
            /\ portfolios s = portfolios (db w)
            /\ portfolioStocks s = portfolioStocks (db w).
Proof.
  intros Hs Hw.
  assert (Ht : outsideTolerance (dto_price stock) (buy_price buyData) = true).
  { destruct (outsideTolerance _ _) eqn:E; [reflexivity|].
    apply within_tolerance in E. contradiction. }
  rewrite (buyStock_rejected this symbol buyData userId w stock w1 Hs Ht).
  cbn [fst snd].
  pose proof (getStockBySymbol_frame this symbol w) as [[H1 [H2 H3]] [new [Hh Hf]]].
  rewrite Hs in *. cbn [snd] in *.
  repeat split; auto. exists new. split; [exact Hh|].
  intros s Hin. rewrite Forall_forall in Hf. exact (Hf s Hin).
Qed.

(** The amended C4 on the scenario of the counterexample. *)
Lemma rejected_buy_writes_no_ledger_witness :
  transactions (db (snd (buyStock vendorConfirms "aapl" (mkBuy 100 10) "user1"
                           staleWorld))) = [].
Proof.
  assert (Hs : getStockBySymbol vendorConfirms "aapl" staleWorld
               = (Ok (Some (mkStockDto 1 "AAPL" "Apple Inc." 200 1000000)),
                  snd (getStockBySymbol vendorConfirms "aapl" staleWorld)))
    by reflexivity.
  refine (proj1 (proj2 (rejected_buy_writes_no_ledger vendorConfirms "aapl"
                          (mkBuy 100 10) "user1" staleWorld _ _ Hs _))).
  rewrite <- within_tolerance. vm_compute. discriminate.
Defined.

(** ** Vendor failure *)

Lemma closed_rows id status msg w t :
  In t (transactions (db (closed id status msg w))) ->
  tx_id t = id ->
  tx_status t = status /\ tx_processedAt t = Some (clock w)
  /\ (forall m, msg = Some m -> tx_errorMessage t = Some m).
Proof.
  simpl. intros Hin Hid. apply updateWhere_In in Hin.
  destruct Hin as [x [_ E]]. unfold hasId in E.
  destruct (Nat.eqb (tx_id x) id) eqn:Ex.
  - subst t. simpl. repeat split. intros m Hm. now rewrite Hm.
  - subst t. apply Nat.eqb_neq in Ex. contradiction.
Qed.

(** C6.  When the price check has passed, the PENDING row is stored and the
    vendor call then fails with [err], [buyStock] returns [success = false]
    with the identifier of the row and the message of the vendor's error;
    the row is stored as FAILED with that message and a [processedAt]
    date; and the portfolios and positions are those of before the call, in
    the final database and in every snapshot written during the call. *)
Theorem vendor_failure_marks_failed this symbol buyData userId w stock w1 err w3 :
  getStockBySymbol this symbol w = (Ok (Some stock), w1) ->
  outsideTolerance (dto_price stock) (buy_price buyData) = false ->
  vendorBuy this symbol buyData (opened userId stock buyData w1)
  = (Throw err, w3) ->
  let id := nextId (db w1) in
  let w' := snd (buyStock this symbol buyData userId w) in
  fst (buyStock this symbol buyData userId w)
  = Ok (mkBuyResult false (Some (Text (message err))) (Some id))
  /\ (exists e, err = VendorError e /\ message err = ae_message e)
  /\ In (settle FAILED (Some (message err)) (clock w3)
           (openedRow userId stock buyData w1)) (transactions (db w'))
  /\ (forall t, In t (transactions (db w')) -> tx_id t = id ->
        tx_status t = FAILED
        /\ tx_errorMessage t = Some (message err)
        /\ tx_processedAt t = Some (clock w3))
  /\ portfolios (db w') = portfolios (db w)
  /\ portfolioStocks (db w') = portfolioStocks (db w)
  /\ exists new,
       history w' = new ++ history w
       /\ forall s, In s new ->
            portfolios s = portfolios (db w)
            /\ portfolioStocks s = portfolioStocks (db w).
Proof.
  intros Hs Ht Hv id w'.
  pose proof (buyStock_admitted this symbol buyData userId w stock w1 Hs Ht) as H.
  cbv zeta in H. rewrite Hv in H. subst w'. rewrite H. cbn [fst snd].
  pose proof (vendorBuy_frame this symbol buyData
                (opened userId stock buyData w1)) as [Hd Hh].
  rewrite Hv in Hd, Hh. cbn [snd] in Hd, Hh.
  pose proof (getStockBySymbol_frame this symbol w) as [[_ [P1 P2]] [new [Hn Hf]]].
  rewrite Hs in *. cbn [snd] in *.
  split; [reflexivity|]. split.
  { unfold vendorBuy in Hv.
    destruct (retry _ _ _ _ _) as [[body|e] w0]; inversion Hv. eauto. }
  split.
  { apply closed_row; [apply (opened_row _ _ _ _ _ Hd) | reflexivity]. }
  split.
  { intros t Hin Hid.
    destruct (closed_rows _ _ _ _ _ Hin Hid) as [A [B C]].
    repeat split; auto. }
  simpl. rewrite Hd. simpl. split; [exact P1|]. split; [exact P2|].
  eexists (_ :: _ :: new). rewrite Hh. simpl. rewrite Hn.
  split; [reflexivity|].
  intros s [E|[E|Hin]].
  - subst s. simpl. auto.
  - subst s. simpl. auto.
  - rewrite Forall_forall in Hf. destruct (Hf s Hin) as [_ [A B]]. auto.
Qed.

(** C6 on a cached stock and a vendor that answers 400 to every request. *)
Lemma vendor_failure_marks_failed_witness :
  fst (buyStock vendorRejects "aapl" (mkBuy 100 10) "user1" freshWorld)
  = Ok (mkBuyResult false (Some (Text "Request failed with status code 400"))
          (Some 2%nat)).
Proof.
  assert (Hs : getStockBySymbol vendorRejects "aapl" freshWorld
               = (Ok (Some (toStockDto apple)), freshWorld)) by reflexivity.
  refine (proj1 (vendor_failure_marks_failed vendorRejects "aapl"
                   (mkBuy 100 10) "user1" freshWorld (toStockDto apple)
                   freshWorld (VendorError badRequest) _ Hs _ _)).
  - reflexivity.
  - reflexivity.
Defined.

(** ** Ledger before portfolio *)

Lemma buyStock_history this symbol buyData userId w :
  let res := fst (buyStock this symbol buyData userId w) in
  let w' := snd (buyStock this symbol buyData userId w) in
  (exists new,
     history w' = new ++ history w
     /\ forall s, In s new -> ~ portfolioMutated (db w) s)
  \/ (exists id r after s0 before,
        res = Ok r /\ transactionId r = Some id
        /\ history w' = after ++ s0 :: before ++ history w
        /\ (forall s, In s after -> ledgerTerminal id s)
        /\ ledgerTerminal id s0
        /\ forall s, In s (s0 :: before) -> ~ portfolioMutated (db w) s).
Proof.
  intros res w'. subst res w'.
  pose proof (getStockBySymbol_frame this symbol w) as [[_ [P1 P2]] [new [Hn Hf]]].
  rewrite Forall_forall in Hf.
  assert (Hnew : forall s, In s new -> ~ portfolioMutated (db w) s).
  { intros s Hin [A|A]; destruct (Hf s Hin) as [_ [B C]]; contradiction. }
  destruct (getStockBySymbol this symbol w) as [[[stock|]|e] w1] eqn:Hs;
    cbn [snd] in *;
    try (left; exists new; unfold buyStock, tryCatch, bind, throw;
         rewrite Hs; cbn [fst snd]; split; [exact Hn | exact Hnew]).
  destruct (outsideTolerance (dto_price stock) (buy_price buyData)) eqn:Ht.
  { rewrite (buyStock_rejected this symbol buyData userId w stock w1 Hs Ht).
    left. exists new. cbn [snd]. split; [exact Hn | exact Hnew]. }
  pose proof (buyStock_admitted this symbol buyData userId w stock w1 Hs Ht) as H.
  cbv zeta in H.
  pose proof (vendorBuy_frame this symbol buyData
                (opened userId stock buyData w1)) as [Hd Hh].
  destruct (vendorBuy this symbol buyData (opened userId stock buyData w1))
    as [[[]|err] w3]; cbn [fst snd] in *; rewrite H; cbn [fst snd].
  - right.
    pose proof (updateUserPortfolio_total userId (dto_id stock)
                  (buy_quantity buyData) (buy_price buyData)
                  (closed (nextId (db w1)) SUCCESS None w3))
      as [_ [[_ [after [Ha Hfa]]] _]].
    rewrite Forall_forall in Hfa.
    assert (Hterm : ledgerTerminal (nextId (db w1))
                      (db (closed (nextId (db w1)) SUCCESS None w3))).
    { exists (settle SUCCESS None (clock w3) (openedRow userId stock buyData w1)).
      split; [|split; [reflexivity | left; reflexivity]].
      apply closed_row; [apply (opened_row _ _ _ _ _ Hd) | reflexivity]. }
    exists (nextId (db w1)), (mkBuyResult true None (Some (nextId (db w1)))),
      after, (db (closed (nextId (db w1)) SUCCESS None w3)),
      (db (opened userId stock buyData w1) :: new).
    split; [reflexivity|]. split; [reflexivity|]. split.
    { rewrite Ha. simpl. rewrite Hh. simpl. rewrite Hn. reflexivity. }
    split.
    { intros s Hin. destruct (Hfa s Hin) as [Et _].
      destruct Hterm as [t [Hin' Ht']]. exists t. rewrite Et. auto. }
    split; [exact Hterm|].
    intros s [E|[E|Hin]].
    + subst s. unfold portfolioMutated. simpl. rewrite ?Hd. simpl.
      intros [A|A]; congruence.
    + subst s. unfold portfolioMutated. simpl. intros [A|A]; congruence.
    + now apply Hnew.
  - left. eexists (_ :: _ :: new). simpl. rewrite Hh. simpl. rewrite Hn.
    split; [reflexivity|].
    intros s [E|[E|Hin]].
    + subst s. unfold portfolioMutated. simpl. rewrite ?Hd. simpl.
      intros [A|A]; congruence.
    + subst s. unfold portfolioMutated. simpl. intros [A|A]; congruence.
    + now apply Hnew.
Qed.

(** C5.  In every execution of [buyStock], every snapshot of the database
    in which a portfolio or a position differs from what it was before the
    call already holds the transaction of this purchase in a terminal
    state, and an older snapshot of the same call holds it in a terminal
    state with portfolios and positions still untouched: the ledger is
    closed before the portfolio is written. *)
Theorem ledger_before_portfolio this symbol buyData userId w :
  let res := fst (buyStock this symbol buyData userId w) in
  let w' := snd (buyStock this symbol buyData userId w) in
  exists new,
    history w' = new ++ history w
    /\ forall newer s older,
         new = newer ++ s :: older ->
         portfolioMutated (db w) s ->
         exists id r,
           res = Ok r /\ transactionId r = Some id
           /\ ledgerTerminal id s
           /\ exists s0,
                In s0 older
                /\ ~ portfolioMutated (db w) s0
                /\ ledgerTerminal id s0.
Proof.
  intros res w'.
  destruct (buyStock_history this symbol buyData userId w)
    as [[new [Hh Hclean]]
       | [id [r [after [s0 [before [Hr [Hid [Hh [Hafter [Hs0 Hclean]]]]]]]]]]];
    fold res w' in Hh.
  - exists new. split; [exact Hh|]. intros newer s older E Hm.
    exfalso. apply (Hclean s); [|exact Hm].
    rewrite E. apply in_or_app. right. left. reflexivity.
  - exists (after ++ s0 :: before). split.
    { rewrite Hh, <- app_assoc. reflexivity. }
    intros newer s older E Hm.
    apply app_eq_app in E. destruct E as [l [[E1 E2]|[E1 E2]]].
    + destruct l as [|x l]; simpl in E2; injection E2 as E3 E4.
      * subst s. exfalso. apply (Hclean s0); [left; reflexivity | exact Hm].
      * subst x older.
        exists id, r. split; [exact Hr|]. split; [exact Hid|]. split.
        { apply Hafter. rewrite E1. apply in_or_app. right. left. reflexivity. }
        exists s0. split; [apply in_or_app; right; left; reflexivity|].
        split; [apply Hclean; left; reflexivity | exact Hs0].
    + destruct l as [|x l]; simpl in E2; injection E2 as E3 E4.
      * subst s. exfalso. apply (Hclean s0); [left; reflexivity | exact Hm].
      * exfalso. apply (Hclean s); [|exact Hm].
        right. rewrite E4. apply in_or_app. right. left. reflexivity.
Qed.
(** C5 on a confirmed purchase: the last snapshot has a new portfolio and a
    new position, and holds the transaction as SUCCESS. *)
Lemma ledger_before_portfolio_witness :
  exists id r,
    fst (buyStock vendorConfirms "aapl" (mkBuy 102 10) "user1" freshWorld) = Ok r
    /\ transactionId r = Some id
    /\ ledgerTerminal id
         (db (snd (buyStock vendorConfirms "aapl" (mkBuy 102 10) "user1"
                     freshWorld))).
Proof.
  destruct (ledger_before_portfolio vendorConfirms "aapl" (mkBuy 102 10)
              "user1" freshWorld) as [new [Hh H]].
  rewrite app_nil_r in Hh.
  destruct (H [] (db (snd (buyStock vendorConfirms "aapl" (mkBuy 102 10)
                             "user1" freshWorld)))
              (tl (history (snd (buyStock vendorConfirms "aapl" (mkBuy 102 10)
                                   "user1" freshWorld)))))
    as [id [r [Hr [Hid [Ht _]]]]].
  - rewrite <- Hh. reflexivity.
  - left. vm_compute. discriminate.
  - exists id, r. auto.
Defined.

(** ** Ledger transitions *)

(** C3, as stated, fails: a transaction that is SUCCESS is turned into
    FAILED by one more call, which succeeds and rewrites the stored row. *)
Lemma terminal_overwrite_counterexample :
  tx_status settledRow = SUCCESS
  /\ transactions (db ledgerWorld) = [settledRow]
  /\ fst (updateTransactionStatus (mkProcess 2 FAILED (Some "late")) ledgerWorld)
     = Ok (mkTransactionDto 2 "user1" 1 "AAPL" BUY 10 100 1000 FAILED
             (Some "late") 400 (Some 1000%Z))
  /\ transactions
       (db (snd (updateTransactionStatus (mkProcess 2 FAILED (Some "late"))
                   ledgerWorld)))
     = [mkTransaction 2 "user1" 1 None BUY 10 100 1000 FAILED (Some "late")
          400 (Some 1000%Z)].
Proof.
  repeat split; reflexivity.
Qed.

(** C3 (amended): [updateTransactionStatus] does not look at the current
    status.  When a row has the identifier, and its stock is stored, the
    call succeeds whatever the status of the row, terminal or not: the row
    is stored with the requested status, the error message if one is given
    (the old one otherwise) and [processedAt] set to now, the other rows
    are kept, and the updated row is returned.  The call fails only when no
    row has the identifier, and then the world is unchanged. *)
Theorem updateTransactionStatus_overwrites dto w :
  let id := pt_transactionId dto in
  let settled := settle (pt_status dto) (pt_errorMessage dto) (clock w) in
  let w' := snd (updateTransactionStatus dto w) in
  (forall t s,
     find (hasId id) (transactions (db w)) = Some t ->
     stock_findById (tx_stockId t) (db w) = Some s ->
     fst (updateTransactionStatus dto w) = toTransactionDto (db w) (settled t)
     /\ (exists r, toTransactionDto (db w) (settled t) = Ok r
                   /\ tdto_status r = pt_status dto)
     /\ transactions (db w') = updateWhere (hasId id) settled (transactions (db w))
     /\ find (hasId id) (transactions (db w')) = Some (settled t)
     /\ (forall t', In t' (transactions (db w)) -> tx_id t' <> id ->
           In t' (transactions (db w'))))
  /\ (find (hasId id) (transactions (db w)) = None ->
      updateTransactionStatus dto w
      = (Throw (PrismaError "Record to update not found."), w)).
Proof.
  intros id settled w'. subst w'.
  unfold updateTransactionStatus, tryCatch, bind, now, transaction_update, throw.
  fold id. split.
  - intros t s Hf Hs. rewrite Hf. cbn [fst snd]. fold settled.
    assert (E : forall d, stocks d = stocks (db w) ->
              toTransactionDto d (settled t)
              = Ok (mkTransactionDto (tx_id t) (tx_userId t) (tx_stockId t)
                      (stock_symbol s) (tx_type t) (tx_quantity t) (tx_price t)
                      (tx_totalAmount t) (pt_status dto)
                      (match pt_errorMessage dto with
                       | Some m => Some m
                       | None => tx_errorMessage t
                       end) (tx_createdAt t) (Some (clock w)))).
    { intros d Hd. unfold toTransactionDto, stock_findById in *. simpl.
      rewrite Hd, Hs. reflexivity. }
    rewrite (E (db w) eq_refl). rewrite E by reflexivity. cbn [fst snd].
    split; [reflexivity|].
    split; [eexists; split; reflexivity|].
    split; [reflexivity|]. split.
    + simpl. rewrite find_updateWhere; [|intros x _; reflexivity].
      rewrite Hf. simpl. apply find_some in Hf. destruct Hf as [_ Hid].
      now rewrite Hid.
    + intros t' Hin Hne. simpl. unfold updateWhere. apply in_map_iff.
      exists t'. split; [|exact Hin]. unfold hasId.
      apply Nat.eqb_neq in Hne. now rewrite Hne.
  - intro Hf. rewrite Hf. reflexivity.
Qed.

(** The amended C3 on the settled row. *)
Lemma updateTransactionStatus_overwrites_witness :
  find (hasId 2) (transactions (db (snd (updateTransactionStatus
                                          (mkProcess 2 PENDING None)
                                          ledgerWorld))))
  = Some (settle PENDING None 1000 settledRow).
Proof.
  refine (proj1 (proj2 (proj2 (proj2
            (proj1 (updateTransactionStatus_overwrites
                      (mkProcess 2 PENDING None) ledgerWorld)
               settledRow apple _ _))))); reflexivity.
Defined.

(** ** Daily statistics *)

Lemma day_offset x off :
  (0 <= off < msPerDay)%Z ->
  ((x - x mod msPerDay + off) mod msPerDay = off)%Z.
Proof.
  intro Hoff.
  replace (x - x mod msPerDay + off)%Z
    with (off + (x / msPerDay) * msPerDay)%Z.
  - rewrite Z_mod_plus_full. now apply Z.mod_small.
  - pose proof (Z.div_mod x msPerDay) as H. unfold msPerDay in *. lia.
Qed.

Lemma setHours_same_day tz h m s ms h' m' s' ms' date :
  (0 <= ((h * 60 + m) * 60 + s) * 1000 + ms < msPerDay)%Z ->
  setHours tz h' m' s' ms' (setHours tz h m s ms date)
  = setHours tz h' m' s' ms' date.
Proof.
  intro Hoff. unfold setHours.
  set (local := (date + tz)%Z).
  replace (local - local mod msPerDay + ((h * 60 + m) * 60 + s) * 1000 + ms
           - tz + tz)%Z
    with (local - local mod msPerDay
          + (((h * 60 + m) * 60 + s) * 1000 + ms))%Z by lia.
  rewrite (day_offset local _ Hoff). lia.
Qed.

Lemma getTransactionsForDateRange_reads startDate endDate w :
  snd (getTransactionsForDateRange startDate endDate w) = w.
Proof.
  unfold getTransactionsForDateRange, tryCatch, throw.
  destruct (mapResult _ _); reflexivity.
Qed.

(** C9, as stated, fails on its last clause: the computation changes its
    input.  Asked for the day of time value 5 (UTC), it leaves the caller's
    [Date] object at 23:59:59.999 of that day. *)
Lemma daily_stats_mutates_date_counterexample :
  snd (fst (getDailyTransactionStats 0 5 ledgerWorld)) = 86399999%Z
  /\ snd (fst (getDailyTransactionStats 0 5 ledgerWorld)) <> 5%Z.
Proof.
  split; [reflexivity | vm_compute; discriminate].
Qed.

(** C9 (amended): computing the daily statistics twice for the same date
    over an unchanged store yields identical results, whether the second
    call is given the same [Date] object (as the first call left it) or a
    [Date] of the original time value; the computation writes nothing (the
    world after it is the world before it); but it is not free of effects
    on its input: the [Date] object it was given is left at 23:59:59.999,
    local time, of its day. *)
Theorem daily_stats_repeatable tz date w :
  let first := getDailyTransactionStats tz date w in
  let date' := snd (fst first) in
  let again := getDailyTransactionStats tz date' (snd first) in
  snd first = w
  /\ snd again = w
  /\ fst (fst again) = fst (fst first)
  /\ fst (fst (getDailyTransactionStats tz date (snd first))) = fst (fst first)
  /\ date' = setHours tz 23 59 59 999 date
  /\ snd (fst again) = date'.
Proof.
  intros first date' again.
  assert (Hw : forall d x, snd (getDailyTransactionStats tz d x) = x).
  { intros d x. unfold getDailyTransactionStats.
    pose proof (getTransactionsForDateRange_reads
                  (setHours tz 0 0 0 0 d)
                  (setHours tz 23 59 59 999 (setHours tz 0 0 0 0 d)) x) as H.
    destruct (getTransactionsForDateRange _ _ x) as [[r|e] x1];
      simpl in *; exact H. }
  assert (Hd : forall d x, snd (fst (getDailyTransactionStats tz d x))
                           = setHours tz 23 59 59 999 d).
  { intros d x. unfold getDailyTransactionStats.
    destruct (getTransactionsForDateRange _ _ x) as [[r|e] x1]; simpl;
      apply setHours_same_day; unfold msPerDay; lia. }
  assert (Hsame : forall x, getDailyTransactionStats tz (setHours tz 23 59 59 999 date) x
                            = getDailyTransactionStats tz date x).
  { intro x. unfold getDailyTransactionStats.
    rewrite !(setHours_same_day tz 23 59 59 999 0 0 0 0 date)
      by (unfold msPerDay; lia).
    reflexivity. }
  subst again date' first. rewrite !Hw, !Hd, Hsame.
  repeat split; try reflexivity.
  apply setHours_same_day. unfold msPerDay. lia.
Qed.

(** The amended C9 on the ledger of one settled purchase: the second
    computation, given the [Date] the first one left, yields the same
    statistics. *)
Lemma daily_stats_repeatable_witness :
  fst (fst (getDailyTransactionStats 0 86399999 ledgerWorld))
  = Ok (mkDailyStats 1 1 0 0 10 (0 + 1000)).
Proof.
  exact (proj1 (proj2 (proj2 (daily_stats_repeatable 0 5 ledgerWorld)))).
Defined.

(** ** The stock cache *)

Lemma stock_upsert_rejected this k v date w :
  upsertFails this v = true ->
  stock_upsert this k v date w = (Throw (PrismaError "upsert rejected"), w).
Proof. intro H. unfold stock_upsert. now rewrite H. Qed.

Lemma stock_upsert_other this k v date w sym :
  k <> sym ->
  cached sym (db (snd (stock_upsert this k v date w))) = cached sym (db w).
Proof.
  intro Hne. unfold stock_upsert, cached.
  destruct (upsertFails this v); [reflexivity|].
  destruct (find (fun s => stock_symbol s =? k) (stocks (db w))) as [s|] eqn:E;
    simpl.
  - rewrite find_updateWhere; [|intros x _; reflexivity].
    destruct (find (fun s0 => stock_symbol s0 =? sym) (stocks (db w)))
      as [y|] eqn:Ey; [|reflexivity].
    simpl. apply find_some in Ey. destruct Ey as [_ Ey].
    apply String.eqb_eq in Ey.
    destruct (stock_symbol y =? k) eqn:Ek; [|reflexivity].
    apply String.eqb_eq in Ek. congruence.
  - destruct (find (fun s0 => stock_symbol s0 =? sym) (stocks (db w)))
      as [y|] eqn:Ey.
    + now apply find_app_some.
    + rewrite (find_app_none _ _ _ Ey). simpl.
      apply String.eqb_neq in Hne. now rewrite Hne.
Qed.

Lemma stock_upsert_stores this k v date w :
  upsertFails this v = false ->
  exists s,
    fst (stock_upsert this k v date w) = Ok s
    /\ cached k (db (snd (stock_upsert this k v date w))) = Some s
    /\ stock_symbol s = k
    /\ stock_name s = vs_name v
    /\ stock_price s = vs_price v
    /\ stock_lastUpdated s = date.
Proof.
  intro Hok. unfold stock_upsert, cached. rewrite Hok.
  destruct (find (fun s => stock_symbol s =? k) (stocks (db w))) as [s|] eqn:E;
    simpl.
  - eexists. split; [reflexivity|].
    rewrite find_updateWhere; [|intros x _; reflexivity].
    rewrite E. simpl. apply find_some in E. destruct E as [_ E]. rewrite E.
    apply String.eqb_eq in E. repeat split; auto.
  - eexists. split; [reflexivity|].
    rewrite (find_app_none _ _ _ E). simpl. rewrite String.eqb_refl.
    repeat split; auto.
Qed.

Lemma stock_upsert_keeps_date this k v date w sym :
  (exists s, cached sym (db w) = Some s /\ stock_lastUpdated s = date) ->
  exists s,
    cached sym (db (snd (stock_upsert this k v date w))) = Some s
    /\ stock_lastUpdated s = date.
Proof.
  intros [s [Hs Hd]].
  destruct (String.eqb_spec k sym) as [E|E].
  - subst k. destruct (upsertFails this v) eqn:F.
    + rewrite (stock_upsert_rejected this sym v date w F). eauto.
    + destruct (stock_upsert_stores this sym v date w F) as [s' H].
      exists s'. tauto.
  - rewrite (stock_upsert_other this k v date w sym E). eauto.
Qed.

Lemma upserts_keep_date this date l : forall w sym,
  (exists s, cached sym (db w) = Some s /\ stock_lastUpdated s = date) ->
  exists s,
    cached sym (db (snd (promiseAll (upserts this date l) w))) = Some s
    /\ stock_lastUpdated s = date.
Proof.
  induction l as [|v l IH]; intros w sym H; simpl; [exact H|].
  pose proof (stock_upsert_keeps_date this (toUpperCase (vs_symbol v)) v date
                w sym H) as H1.
  destruct (stock_upsert this (toUpperCase (vs_symbol v)) v date w) as [r w1].
  cbn [snd] in H1. specialize (IH w1 sym H1).
  destruct (promiseAll (upserts this date l) w1) as [rs w2]. exact IH.
Qed.

Lemma upserts_store this date l : forall w v,
  In v l -> upsertFails this v = false ->
  exists s,
    cached (toUpperCase (vs_symbol v))
      (db (snd (promiseAll (upserts this date l) w))) = Some s
    /\ stock_lastUpdated s = date.
Proof.
  induction l as [|a l IH]; intros w v Hin Hok; [destruct Hin|].
  simpl. destruct Hin as [E|Hin].
  - subst a.
    destruct (stock_upsert_stores this (toUpperCase (vs_symbol v)) v date w Hok)
      as [s [_ [Hc [_ [_ [_ Hd]]]]]].
    pose proof (upserts_keep_date this date l
                  (snd (stock_upsert this (toUpperCase (vs_symbol v)) v date w))
                  (toUpperCase (vs_symbol v))
                  (ex_intro _ s (conj Hc Hd))) as H.
    destruct (stock_upsert this (toUpperCase (vs_symbol v)) v date w) as [r w1].
    cbn [snd] in *.
    destruct (promiseAll (upserts this date l) w1) as [rs w2]. exact H.
  - destruct (stock_upsert this (toUpperCase (vs_symbol a)) a date w) as [r w1].
    specialize (IH w1 v Hin Hok).
    destruct (promiseAll (upserts this date l) w1) as [rs w2]. exact IH.
Qed.

Lemma upserts_rejected_symbol this date l : forall w sym,
  (forall v, In v l -> toUpperCase (vs_symbol v) = sym ->
             upsertFails this v = true) ->
  cached sym (db (snd (promiseAll (upserts this date l) w))) = cached sym (db w).
Proof.
  induction l as [|a l IH]; intros w sym H; simpl; [reflexivity|].
  assert (H1 : cached sym (db (snd (stock_upsert this
                 (toUpperCase (vs_symbol a)) a date w))) = cached sym (db w)).
  { destruct (String.eqb_spec (toUpperCase (vs_symbol a)) sym) as [E|E].
    - rewrite (stock_upsert_rejected this _ a date w
                 (H a (or_introl eq_refl) E)). reflexivity.
    - now apply stock_upsert_other. }
  destruct (stock_upsert this (toUpperCase (vs_symbol a)) a date w) as [r w1].
  cbn [snd] in H1.
  assert (H2 := IH w1 sym (fun v Hv => H v (or_intror Hv))).
  destruct (promiseAll (upserts this date l) w1) as [rs w2].
  cbn [snd] in *. congruence.
Qed.

Lemma upserts_all_rejected this date l : forall w,
  (forall v, In v l -> upsertFails this v = true) ->
  snd (promiseAll (upserts this date l) w) = w.
Proof.
  induction l as [|a l IH]; intros w H; simpl; [reflexivity|].
  rewrite (stock_upsert_rejected this _ a date w (H a (or_introl eq_refl))).
  assert (H2 := IH w (fun v Hv => H v (or_intror Hv))).
  destruct (promiseAll (upserts this date l) w) as [rs w2]. exact H2.
Qed.

Lemma updateStockCache_world this l w :
  updateStockCache this l w
  = (Ok tt, snd (promiseAll (upserts this (clock w) l) w)).
Proof.
  unfold updateStockCache, tryCatch, bind, now, ret. fold (upserts this (clock w) l).
  destruct (promiseAll (upserts this (clock w) l) w) as [[rs|e] w1]; reflexivity.
Qed.

Lemma getStocksFromVendor_ok this nextToken w body w1 :
  vendorGet this nextToken w = (Ok body, w1) ->
  api_status body = 200%Z ->
  getStocksFromVendor this nextToken w
  = (Ok (api_data body),
     snd (promiseAll (upserts this (clock w1) (items (api_data body))) w1)).
Proof.
  intros Hv Hs. unfold getStocksFromVendor, tryCatch, bind, ret.
  rewrite Hv, Hs. change (negb (200 =? 200)%Z) with false. cbv beta iota.
  rewrite updateStockCache_world. reflexivity.
Qed.

(** C10, as stated, fails on the rows: the vendor lists two stocks and the
    upsert of the second is rejected; the listing is still returned as a
    success, but the row of the first stock has been rewritten. *)
Lemma cache_failure_counterexample :
  upsertFails vendorListsTwo microsoft = true
  /\ fst (getStocksFromVendor vendorListsTwo None staleWorld)
     = Ok (mkStockList [appleAt 200; microsoft] None)
  /\ stocks (db staleWorld) = [apple]
  /\ stocks (db (snd (getStocksFromVendor vendorListsTwo None staleWorld)))
     = [mkStock 1 "AAPL" "Apple Inc." 200 1000000]
  /\ stocks (db (snd (getStocksFromVendor vendorListsTwo None staleWorld)))
     <> stocks (db staleWorld).
Proof.
  repeat split; try reflexivity. vm_compute. discriminate.
Qed.

(** C10 (amended): when the vendor has answered with a listing, rejected
    upserts never surface: [getStocksFromVendor] (and [getAllStocks])
    return the vendor's items as a success whichever upserts the storage
    layer rejects.  A symbol all of whose items are rejected keeps its
    cached row (or stays absent), and if every upsert is rejected the
    database is unchanged; the items that are not rejected are still
    written, with [lastUpdated] set to now. *)
Theorem cache_failure_swallowed this nextToken w body w1 :
  vendorGet this nextToken w = (Ok body, w1) ->
  api_status body = 200%Z ->
  let l := items (api_data body) in
  let w' := snd (getStocksFromVendor this nextToken w) in
  fst (getStocksFromVendor this nextToken w) = Ok (api_data body)
  /\ fst (getAllStocks this nextToken w) = Ok (api_data body)
  /\ (forall symbol,
        (forall v, In v l -> toUpperCase (vs_symbol v) = symbol ->
                   upsertFails this v = true) ->
        cached symbol (db w') = cached symbol (db w))
  /\ ((forall v, In v l -> upsertFails this v = true) -> db w' = db w)
  /\ (forall v, In v l -> upsertFails this v = false ->
        exists s,
          cached (toUpperCase (vs_symbol v)) (db w') = Some s
          /\ stock_lastUpdated s = clock w1).
Proof.
  intros Hv Hs l w'. subst w'. unfold getAllStocks.
  rewrite (getStocksFromVendor_ok this nextToken w body w1 Hv Hs).
  cbn [fst snd]. fold l.
  pose proof (vendorGet_frame this nextToken w) as [Hd _].
  rewrite Hv in Hd. cbn [snd] in Hd.
  split; [reflexivity|]. split; [reflexivity|]. split; [|split].
  - intros symbol H. rewrite (upserts_rejected_symbol this (clock w1) l w1 symbol H).
    unfold cached. now rewrite Hd.
  - intro H. rewrite (upserts_all_rejected this (clock w1) l w1 H). exact Hd.
  - intros v Hin Hok. exact (upserts_store this (clock w1) l w1 v Hin Hok).
Qed.

(** The amended C10 on the scenario of the counterexample: the rejected
    symbol stays absent from the cache. *)
Lemma cache_failure_swallowed_witness :
  cached "MSFT" (db (snd (getStocksFromVendor vendorListsTwo None staleWorld)))
  = None.
Proof.
  assert (Hv : vendorGet vendorListsTwo None staleWorld
               = (Ok (mkApiResponse 200 (mkStockList [appleAt 200; microsoft] None)),
                  sent staleWorld)) by reflexivity.
  rewrite (proj1 (proj2 (proj2 (cache_failure_swallowed vendorListsTwo None
                                  staleWorld _ _ Hv eq_refl))) "MSFT").
  - reflexivity.
  - intros v [E|[E|[]]] Hsym; subst v; [discriminate Hsym | reflexivity].
Defined.

(** ** Price lookup *)

Lemma retry_sends this count delay req : forall w,
  (httpCalls w < httpCalls (snd (retry this count delay req w)))%nat.
Proof.
  induction count as [|k IH]; intro w; simpl;
    destruct (vendor this (httpCalls w) req); simpl; try lia.
  specialize (IH (sleep delay (sent w))). simpl in IH. lia.
Qed.

Lemma vendorGet_sends this t w :
  (httpCalls w < httpCalls (snd (vendorGet this t w)))%nat.
Proof.
  unfold vendorGet.
  by_retry retry_sends.
Qed.

Lemma getStocksFromVendor_failed this t w e w1 :
  vendorGet this t w = (Throw e, w1) ->
  getStocksFromVendor this t w = (Throw e, w1).
Proof.
  intro Hv. unfold getStocksFromVendor, tryCatch, bind, throw.
  rewrite Hv. reflexivity.
Qed.

Lemma getStocksFromVendor_invalid this t w body w1 :
  vendorGet this t w = (Ok body, w1) ->
  api_status body <> 200%Z ->
  getStocksFromVendor this t w
  = (Throw (HttpException "Invalid response from vendor API" 502), w1).
Proof.
  intros Hv Hs. unfold getStocksFromVendor, tryCatch, bind, throw.
  rewrite Hv. apply Z.eqb_neq in Hs. rewrite Hs. reflexivity.
Qed.

Lemma upserts_clock this date l w :
  clock (snd (promiseAll (upserts this date l) w)) = clock w
  /\ httpCalls (snd (promiseAll (upserts this date l) w)) = httpCalls w.
Proof.
  pose proof (promiseAll_upserts_frame this date l w) as H. simpl in H.
  unfold upserts. tauto.
Qed.

(** The lookup when the cached row is absent or stale. *)
Lemma getStockBySymbol_refresh this symbol w :
  (forall s, cached (toUpperCase symbol) (db w) = Some s ->
             (stock_lastUpdated s < clock w - 300000)%Z) ->
  getStockBySymbol this symbol w
  = match getStocksFromVendor this None w with
    | (Throw e, w1) => (Throw e, w1)
    | (Ok vendorStocks, w1) =>
        match find (fun v => toUpperCase (vs_symbol v) =? toUpperCase symbol)
                (items vendorStocks) with
        | None => (Ok None, w1)
        | Some v =>
            match stock_upsert this (toUpperCase symbol) v (clock w1) w1 with
            | (Ok s, w2) => (Ok (Some (toStockDto s)), w2)
            | (Throw e, w2) => (Throw e, w2)
            end
        end
    end.
Proof.
  intro Hstale.
  unfold getStockBySymbol, tryCatch, bind, stock_findUnique, now, throw, ret.
  unfold cached in Hstale. cbn [fst snd].
  destruct (find _ (stocks (db w))) as [s|].
  - specialize (Hstale s eq_refl). apply Z.ltb_lt in Hstale.
    change (5 * 60 * 1000)%Z with 300000%Z. rewrite Hstale.
    destruct (getStocksFromVendor this None w) as [[vs|e] w1]; [|reflexivity].
    destruct (find _ (items vs)); [|reflexivity].
    destruct (stock_upsert _ _ _ _ w1) as [[s'|e] w2]; reflexivity.
  - destruct (getStocksFromVendor this None w) as [[vs|e] w1]; [|reflexivity].
    destruct (find _ (items vs)); [|reflexivity].
    destruct (stock_upsert _ _ _ _ w1) as [[s'|e] w2]; reflexivity.
Qed.

Lemma getStockBySymbol_fresh this symbol w s :
  cached (toUpperCase symbol) (db w) = Some s ->
  (clock w - stock_lastUpdated s <= 300000)%Z ->
  getStockBySymbol this symbol w = (Ok (Some (toStockDto s)), w).
Proof.
  intros Hc Hfresh.
  unfold getStockBySymbol, tryCatch, bind, stock_findUnique, now, throw, ret.
  unfold cached in Hc. cbn [fst snd]. rewrite Hc.
  change (5 * 60 * 1000)%Z with 300000%Z.
  assert (E : (stock_lastUpdated s <? clock w - 300000)%Z = false)
    by (apply Z.ltb_ge; lia).
  rewrite E. reflexivity.
Qed.
(** C8, as stated, fails on its last clause: the row of the symbol is
    stored (it is stale), the page the vendor returns does not list the
    symbol, and the lookup answers [null] although the symbol is still in
    storage after the refresh. *)
Lemma lookup_null_counterexample :
  cached "AAPL" (db staleWorld) = Some apple
  /\ fst (getStockBySymbol vendorListsOther "aapl" staleWorld) = Ok None
  /\ cached "AAPL" (db (snd (getStockBySymbol vendorListsOther "aapl" staleWorld)))
     = Some apple.
Proof.
  repeat split; reflexivity.
Qed.

(** C8 (amended).  A cached row of the uppercased symbol that is at most
    five minutes old is returned and nothing else happens: no vendor
    request, no write.  When the row is absent or older, at least one
    vendor request is sent before anything is returned; if the refresh
    fails the failure is thrown; if it succeeds, every returned item whose
    upsert is not rejected is stored under its uppercased symbol with
    [lastUpdated] set to now, and [null] is returned exactly when the page
    returned by the vendor does not list the symbol, whether or not a row
    of the symbol is stored; a listed symbol is upserted once more and the
    stored row returned. *)
Theorem price_lookup this symbol w :
  let key := toUpperCase symbol in
  let result := getStockBySymbol this symbol w in
  (forall s,
     cached key (db w) = Some s ->
     (clock w - stock_lastUpdated s <= 300000)%Z ->
     result = (Ok (Some (toStockDto s)), w))
  /\ ((forall s, cached key (db w) = Some s ->
                 (stock_lastUpdated s < clock w - 300000)%Z) ->
      (httpCalls w < httpCalls (snd result))%nat
      /\ (forall e w1, vendorGet this None w = (Throw e, w1) ->
                       result = (Throw e, w1))
      /\ (forall body w1,
            vendorGet this None w = (Ok body, w1) ->
            api_status body <> 200%Z ->
            exists e, result = (Throw e, w1))
      /\ (forall body w1,
            vendorGet this None w = (Ok body, w1) ->
            api_status body = 200%Z ->
            let listed :=
              find (fun v => toUpperCase (vs_symbol v) =? key)
                (items (api_data body)) in
            (forall v, In v (items (api_data body)) ->
                       upsertFails this v = false ->
                       exists s,
                         cached (toUpperCase (vs_symbol v)) (db (snd result))
                         = Some s
                         /\ stock_lastUpdated s = clock w1)
            /\ (fst result = Ok None <-> listed = None)
            /\ (forall v, listed = Some v -> upsertFails this v = false ->
                  exists s,
                    fst result = Ok (Some (toStockDto s))
                    /\ cached key (db (snd result)) = Some s
                    /\ stock_symbol s = key
                    /\ stock_price s = vs_price v
                    /\ stock_lastUpdated s = clock w1))).
Proof.
  intros key result. split.
  { intros s Hc Hf. apply getStockBySymbol_fresh; assumption. }
  intro Hstale. subst result.
  rewrite (getStockBySymbol_refresh this symbol w Hstale). fold key.
  split; [|split; [|split]].
  - pose proof (vendorGet_sends this None w) as Hsend.
    destruct (vendorGet this None w) as [[body|e] w1] eqn:Hv; cbn [snd] in Hsend.
    + destruct (Z.eq_dec (api_status body) 200) as [Hs|Hs].
      * rewrite (getStocksFromVendor_ok this None w body w1 Hv Hs).
        pose proof (upserts_clock this (clock w1) (items (api_data body)) w1)
          as [_ Hc].
        set (w2 := snd (promiseAll _ w1)) in *.
        destruct (find _ (items (api_data body))) as [v|]; cbn [snd]; [|lia].
        pose proof (stock_upsert_frame this key v (clock w2) w2) as [_ [_ Hu]].
        destruct (stock_upsert this key v (clock w2) w2) as [[s|e] w3];
          cbn [snd] in *; lia.
      * rewrite (getStocksFromVendor_invalid this None w body w1 Hv Hs).
        exact Hsend.
    + rewrite (getStocksFromVendor_failed this None w e w1 Hv). exact Hsend.
  - intros e w1 Hv. now rewrite (getStocksFromVendor_failed this None w e w1 Hv).
  - intros body w1 Hv Hs.
    rewrite (getStocksFromVendor_invalid this None w body w1 Hv Hs). eauto.
  - intros body w1 Hv Hs listed.
    rewrite (getStocksFromVendor_ok this None w body w1 Hv Hs).
    cbn [items]. fold listed.
    pose proof (upserts_clock this (clock w1) (items (api_data body)) w1)
      as [Hc _].
    pose proof (upserts_store this (clock w1) (items (api_data body)) w1)
      as Hstore.
    set (w2 := snd (promiseAll _ w1)) in *.
    destruct listed as [v|] eqn:El.
    + rewrite Hc.
      pose proof (fun sym H => stock_upsert_keeps_date this key v (clock w1)
                                 w2 sym H) as Hkeep.
      destruct (upsertFails this v) eqn:Hfail.
      * rewrite (stock_upsert_rejected this key v (clock w1) w2 Hfail) in *.
        cbn [fst snd] in *. split; [|split].
        -- intros v' Hin Hok. exact (Hstore v' Hin Hok).
        -- split; discriminate.
        -- intros v' E. inversion E. subst v'. congruence.
      * destruct (stock_upsert_stores this key v (clock w1) w2 Hfail)
          as [s [Hr [Hcs [Hsym [_ [Hp Hd]]]]]].
        destruct (stock_upsert this key v (clock w1) w2) as [[s'|e] w3];
          cbn [fst snd] in *; [|discriminate].
        inversion Hr. subst s'. split; [|split].
        -- intros v' Hin Hok. apply Hkeep. exact (Hstore v' Hin Hok).
        -- split; discriminate.
        -- intros v' E _. inversion E. subst v'. exists s. auto.
    + cbn [fst snd]. split; [|split].
      * intros v' Hin Hok. exact (Hstore v' Hin Hok).
      * split; reflexivity.
      * intros v' E. discriminate.
Qed.

(** The amended C8 on a stale row and a vendor that lists the stock at
    200. *)
Lemma price_lookup_witness :
  exists s,
    fst (getStockBySymbol vendorConfirms "aapl" staleWorld)
    = Ok (Some (toStockDto s))
    /\ stock_price s = 200
    /\ stock_lastUpdated s = 1000000%Z.
Proof.
  assert (Hv : vendorGet vendorConfirms None staleWorld
               = (Ok (mkApiResponse 200 (mkStockList [appleAt 200] None)),
                  sent staleWorld)) by reflexivity.
  destruct (proj2 (price_lookup vendorConfirms "aapl" staleWorld))
    as [_ [_ [_ H]]].
  - intros s Hs. injection Hs as Hs. subst s. simpl. lia.
  - destruct (H _ _ Hv eq_refl) as [_ [_ H3]].
    destruct (H3 (appleAt 200) eq_refl eq_refl) as [s [A [_ [_ [B C]]]]].
    exists s. auto.
Defined.

(** * Further properties *)

(** ** The retry loop, whatever the vendor does *)

(** X1.  Whatever the vendor answers, [retry] sends at least one request
    and at most [count + 1]; it waits exactly one delay between two
    requests; its outcome is the vendor's answer to the last request it
    sent; every request before the last one failed; and it fails only
    after [count + 1] requests. *)
Theorem retry_bounded this count delay req : forall w,
  let outcome := fst (retry this count delay req w) in
  let w' := snd (retry this count delay req w) in
  let sentRequests := (httpCalls w' - httpCalls w)%nat in
  (1 <= sentRequests <= count + 1)%nat
  /\ clock w' = (clock w + Z.of_nat (sentRequests - 1) * Z.max 0 delay)%Z
  /\ outcome = vendor this (httpCalls w + (sentRequests - 1)) req
  /\ (forall n, (n < sentRequests - 1)%nat ->
        exists e, vendor this (httpCalls w + n) req = Failure e)
  /\ (forall e, outcome = Failure e -> sentRequests = (count + 1)%nat).
Proof.
  induction count as [|k IH]; intro w; cbn [retry].
  - destruct (vendor this (httpCalls w) req) eqn:E; cbn [fst snd sent httpCalls clock];
      replace (S (httpCalls w) - httpCalls w)%nat with 1%nat by lia;
      rewrite Nat.add_0_r; cbn [Nat.sub Z.of_nat];
      (split; [lia|]); (split; [lia|]); (split; [now rewrite E|]);
      (split; [intros n Hn; lia|]); reflexivity.
  - destruct (vendor this (httpCalls w) req) eqn:E.
    + cbn [fst snd sent httpCalls clock].
      replace (S (httpCalls w) - httpCalls w)%nat with 1%nat by lia.
      rewrite Nat.add_0_r. cbn [Nat.sub Z.of_nat].
      split; [lia|]. split; [lia|]. split; [now rewrite E|].
      split; [intros n Hn; lia|]. intros e0 He0. discriminate.
    + specialize (IH (sleep delay (sent w))). cbv zeta in IH.
      cbn [sleep sent httpCalls clock] in IH.
      destruct IH as [Hb [Hc [Ho [Hf He]]]].
      set (r := retry this k delay req (sleep delay (sent w))) in *.
      assert (Hs : (httpCalls (snd r) - httpCalls w
                    = S (httpCalls (snd r) - S (httpCalls w)))%nat) by lia.
      rewrite Hs. cbn [Nat.sub]. rewrite Nat.sub_0_r.
      split; [lia|]. split.
      { rewrite Hc.
        replace (httpCalls (snd r) - S (httpCalls w))%nat
          with (S (httpCalls (snd r) - S (httpCalls w) - 1))%nat at 2 by lia.
        rewrite Nat2Z.inj_succ. ring. }
      split.
      { rewrite Ho. f_equal. lia. }
      split.
      { intros n Hn. destruct n as [|n].
        - exists e. now rewrite Nat.add_0_r.
        - destruct (Hf n) as [e' He']; [lia|]. exists e'.
          rewrite <- He'. f_equal. lia. }
      intros e0 He0. rewrite (He e0 He0). lia.
Qed.



(** ** Failures of the listing *)

(** X3.  A listing call that fails throws one of two exceptions: 503
    "Vendor API temporarily unavailable", whatever error the vendor gave, or
    502 "Invalid response from vendor API"; and it has written nothing. *)
Theorem listing_failure_modes this nextToken w e w' :
  getStocksFromVendor this nextToken w = (Throw e, w') ->
  (e = HttpException "Vendor API temporarily unavailable" 503
   \/ e = HttpException "Invalid response from vendor API" 502)
  /\ db w' = db w
  /\ history w' = history w.
Proof.
  intro H. pose proof (vendorGet_frame this nextToken w) as [Hd Hh].
  destruct (vendorGet this nextToken w) as [[body|err] w1] eqn:Hv;
    cbn [snd] in *.
  - destruct (Z.eq_dec (api_status body) 200) as [Hs|Hs].
    + rewrite (getStocksFromVendor_ok this nextToken w body w1 Hv Hs) in H.
      discriminate.
    + rewrite (getStocksFromVendor_invalid this nextToken w body w1 Hv Hs) in H.
      inversion H. subst. auto.
  - rewrite (getStocksFromVendor_failed this nextToken w err w1 Hv) in H.
    inversion H. subst.
    unfold vendorGet in Hv.
    destruct (retry _ _ _ _ w) as [[b|x] w2]; inversion Hv. auto.
Qed.

(** X3 on a vendor that answers 400 to every request. *)
Lemma listing_failure_modes_witness :
  db (snd (getStocksFromVendor vendorRejects None staleWorld)) = db staleWorld.
Proof.
  refine (proj1 (proj2 (listing_failure_modes vendorRejects None staleWorld
                          (HttpException "Vendor API temporarily unavailable" 503)
                          _ _))).
  reflexivity.
Defined.

(** ** Lookups *)

Lemma cached_symbol k d s : cached k d = Some s -> stock_symbol s = k.
Proof.
  unfold cached. intro H. apply find_some in H. destruct H as [_ H].
  now apply String.eqb_eq.
Qed.

Lemma getStocksFromVendor_clock this t w :
  forall r w', getStocksFromVendor this t w = (Ok r, w') ->
  exists body w1,
    vendorGet this t w = (Ok body, w1) /\ api_status body = 200%Z
    /\ r = api_data body
    /\ w' = snd (promiseAll (upserts this (clock w1) (items r)) w1)
    /\ clock w' = clock w1.
Proof.
  intros r w' H.
  destruct (vendorGet this t w) as [[body|err] w1] eqn:Hv.
  - destruct (Z.eq_dec (api_status body) 200) as [Hs|Hs].
    + rewrite (getStocksFromVendor_ok this t w body w1 Hv Hs) in H.
      inversion H. subst. exists body, w1.
      repeat split; auto. apply upserts_clock.
    + rewrite (getStocksFromVendor_invalid this t w body w1 Hv Hs) in H.
      discriminate.
  - rewrite (getStocksFromVendor_failed this t w err w1 Hv) in H. discriminate.
Qed.

(** Whether the cached row of a symbol is absent or stale, or fresh. *)
Lemma absent_stale_or_fresh key w :
  (forall s, cached key (db w) = Some s ->
             (stock_lastUpdated s < clock w - 300000)%Z)
  \/ (exists s, cached key (db w) = Some s
                /\ (clock w - stock_lastUpdated s <= 300000)%Z).
Proof.
  destruct (cached key (db w)) as [s|].
  - destruct (Z_lt_le_dec (stock_lastUpdated s) (clock w - 300000)).
    + left. intros s' E. inversion E. subst. assumption.
    + right. exists s. split; [reflexivity | lia].
  - left. intros s E. discriminate.
Qed.

(** A stock that a lookup returns is the row stored under the uppercased
    symbol when the lookup is over, and that row is fresh. *)
Lemma getStockBySymbol_found this symbol w dto w' :
  getStockBySymbol this symbol w = (Ok (Some dto), w') ->
  exists row,
    cached (toUpperCase symbol) (db w') = Some row
    /\ dto = toStockDto row
    /\ (clock w' - stock_lastUpdated row <= 300000)%Z.
Proof.
  intro H. destruct (absent_stale_or_fresh (toUpperCase symbol) w)
    as [Hstale|[s [Hc Hf]]].
  - rewrite (getStockBySymbol_refresh this symbol w Hstale) in H.
    destruct (getStocksFromVendor this None w) as [[vs|e] w1] eqn:Hv;
      [|discriminate].
    destruct (find _ (items vs)) as [v|]; [|discriminate].
    pose proof (stock_upsert_frame this (toUpperCase symbol) v (clock w1) w1)
      as [_ [Hclock _]].
    destruct (upsertFails this v) eqn:Hfail.
    + rewrite (stock_upsert_rejected this _ v (clock w1) w1 Hfail) in H.
      discriminate.
    + destruct (stock_upsert_stores this (toUpperCase symbol) v (clock w1) w1
                  Hfail) as [row [Hr [Hcached [_ [_ [_ Hd]]]]]].
      destruct (stock_upsert this (toUpperCase symbol) v (clock w1) w1)
        as [[s|e] w2]; cbn [fst snd] in *; [|discriminate].
      inversion Hr. subst s. inversion H. subst dto w'.
      exists row. repeat split; auto. lia.
  - rewrite (getStockBySymbol_fresh this symbol w s Hc Hf) in H.
    inversion H. subst. eauto.
Qed.

(** X4.  A stock that a lookup has returned is served from the cache when
    it is looked up again at once, under any spelling of the symbol that
    has the same upper case: the same stock comes back, no request is sent
    and nothing is written. *)
Theorem lookup_again_from_cache this symbol w dto w' other :
  getStockBySymbol this symbol w = (Ok (Some dto), w') ->
  toUpperCase other = toUpperCase symbol ->
  getStockBySymbol this other w' = (Ok (Some dto), w').
Proof.
  intros H E.
  destruct (getStockBySymbol_found this symbol w dto w' H)
    as [row [Hc [Hd Hf]]].
  subst dto. apply getStockBySymbol_fresh; [now rewrite E | exact Hf].
Qed.

(** X4 after a refresh: "AAPL" is answered from the row stored for "aapl". *)
Lemma lookup_again_from_cache_witness :
  httpCalls (snd (getStockBySymbol vendorConfirms "AAPL"
                    (snd (getStockBySymbol vendorConfirms "aapl" staleWorld))))
  = 1%nat.
Proof.
  rewrite (lookup_again_from_cache vendorConfirms "aapl" staleWorld
             (mkStockDto 1 "AAPL" "Apple Inc." 200 1000000)
             (snd (getStockBySymbol vendorConfirms "aapl" staleWorld)) "AAPL");
    reflexivity.
Defined.

(** X5.  The stock a lookup returns carries the uppercased symbol, however
    the symbol was spelt in the request, and is the row stored under that
    symbol when the lookup is over. *)
Theorem lookup_returns_stored_row this symbol w dto w' :
  getStockBySymbol this symbol w = (Ok (Some dto), w') ->
  dto_symbol dto = toUpperCase symbol
  /\ exists row,
       cached (toUpperCase symbol) (db w') = Some row
       /\ In row (stocks (db w'))
       /\ dto = toStockDto row.
Proof.
  intro H.
  destruct (getStockBySymbol_found this symbol w dto w' H)
    as [row [Hc [Hd _]]].
  split.
  - subst dto. simpl. now apply cached_symbol with (d := db w').
  - exists row. split; [exact Hc|]. split; [|exact Hd].
    unfold cached in Hc. now apply find_some in Hc.
Qed.

(** X5 on a fresh cache. *)
Lemma lookup_returns_stored_row_witness :
  dto_symbol (toStockDto apple) = toUpperCase "aapl".
Proof.
  refine (proj1 (lookup_returns_stored_row vendorConfirms "aapl" freshWorld
                   (toStockDto apple) freshWorld _)).
  reflexivity.
Defined.

(** ** The constraints of the schema are kept *)

Lemma keeps_refl w : keeps w w.
Proof.
  intro H. split; [exact H|]. split; [lia|]. exists []. split; [reflexivity|constructor].
Qed.

Lemma keeps_trans w1 w2 w3 : keeps w1 w2 -> keeps w2 w3 -> keeps w1 w3.
Proof.
  intros H12 H23 H1. destruct (H12 H1) as [H2 [N12 [n12 [E12 F12]]]].
  destruct (H23 H2) as [H3 [N23 [n23 [E23 F23]]]].
  split; [exact H3|]. split; [lia|]. exists (n23 ++ n12). split.
  - rewrite E23, E12. now rewrite app_assoc.
  - apply Forall_app. auto.
Qed.

Lemma keeps_write f w :
  (wellFormed (db w) ->
   wellFormed (f (db w)) /\ (nextId (db w) <= nextId (f (db w)))%nat) ->
  keeps w (write f w).
Proof.
  intros H Hw. destruct (H Hw) as [H1 H2]. split; [exact H1|].
  split; [exact H2|]. exists [f (db w)]. split; [reflexivity|].
  constructor; [exact H1 | constructor].
Qed.

Lemma keeps_same w w' :
  db w' = db w -> history w' = history w -> keeps w w'.
Proof.
  intros Hd Hh Hw. rewrite Hd. split; [exact Hw|]. split; [lia|].
  exists []. split; [exact Hh | constructor].
Qed.

Lemma drawn_mono l n : drawn l n -> drawn l (S n).
Proof.
  intros [H1 H2]. split; [exact H1|]. intros i Hi. specialize (H2 i Hi). lia.
Qed.

Lemma drawn_app l n : drawn l n -> drawn (l ++ [n]) (S n).
Proof.
  intros [H1 H2]. split.
  - apply NoDup_app; [exact H1 | repeat constructor; intros [] | ].
    intros a Ha [E|[]]. subst a. specialize (H2 n Ha). lia.
  - intros i Hi. apply in_app_or in Hi. destruct Hi as [Hi|[E|[]]].
    + specialize (H2 i Hi). lia.
    + subst i. lia.
Qed.

Lemma NoDup_app_fresh {A} (l : list A) x :
  NoDup l -> ~ In x l -> NoDup (l ++ [x]).
Proof.
  intros H Hx. apply NoDup_app; [exact H | repeat constructor; intros [] |].
  intros a Ha [E|[]]. subst a. contradiction.
Qed.

Lemma map_updateWhere {A B} (f : A -> B) (q : A -> bool) (g : A -> A) l :
  (forall x, f (g x) = f x) -> map f (updateWhere q g l) = map f l.
Proof.
  intro H. unfold updateWhere. rewrite map_map. apply map_ext.
  intro x. destruct (q x); auto.
Qed.

Lemma find_none_not_in {A B} (f : A -> B) (eqb : B -> B -> bool) l k :
  (forall a b, eqb a b = true <-> a = b) ->
  find (fun x => eqb (f x) k) l = None -> ~ In k (map f l).
Proof.
  intros Heq Hf Hin. apply in_map_iff in Hin. destruct Hin as [x [E Hx]].
  pose proof (find_none _ _ Hf x Hx) as H. simpl in H.
  assert (eqb (f x) k = true) by (apply Heq; exact E). congruence.
Qed.

Lemma wf_stock_update d q g :
  (forall x, stock_symbol (g x) = stock_symbol x) ->
  (forall x, stock_id (g x) = stock_id x) ->
  wellFormed d ->
  wellFormed (set_stocks (updateWhere q g (stocks d)) d).
Proof.
  intros Hs Hi [A B C D E F G H I].
  constructor; simpl; rewrite ?(map_updateWhere stock_symbol q g _ Hs),
    ?(map_updateWhere stock_id q g _ Hi); auto.
Qed.

Lemma wf_stock_create d s :
  stock_id s = nextId d ->
  ~ In (stock_symbol s) (map stock_symbol (stocks d)) ->
  wellFormed d ->
  wellFormed (bump (set_stocks (stocks d ++ [s]) d)).
Proof.
  intros Hid Hsym [A B C D E F G H I].
  constructor; simpl; rewrite ?map_app; simpl; rewrite ?Hid;
    auto using drawn_mono, drawn_app, NoDup_app_fresh.
  - intros ps Hps. apply in_or_app. left. auto.
  - intros t Ht. apply in_or_app. left. auto.
Qed.

Lemma wf_transaction_create d t :
  tx_id t = nextId d ->
  In (tx_stockId t) (map stock_id (stocks d)) ->
  wellFormed d ->
  wellFormed (bump (set_transactions (transactions d ++ [t]) d)).
Proof.
  intros Hid Hfk [A B C D E F G H I].
  constructor; simpl; rewrite ?map_app; simpl; rewrite ?Hid;
    auto using drawn_mono, drawn_app.
  intros x Hx. apply in_app_or in Hx. destruct Hx as [Hx|[Hx|[]]]; subst; auto.
Qed.

Lemma wf_transaction_update d q g :
  (forall x, tx_id (g x) = tx_id x) ->
  (forall x, tx_stockId (g x) = tx_stockId x) ->
  wellFormed d ->
  wellFormed (set_transactions (updateWhere q g (transactions d)) d).
Proof.
  intros Hi Hs [A B C D E F G H I].
  constructor; simpl; rewrite ?(map_updateWhere tx_id q g _ Hi); auto.
  intros t Ht. apply updateWhere_In in Ht. destruct Ht as [x [Hx Et]].
  subst t. destruct (q x); rewrite ?Hs; auto.
Qed.

Lemma wf_portfolio_create d p :
  portfolio_id p = nextId d ->
  wellFormed d ->
  wellFormed (bump (set_portfolios (portfolios d ++ [p]) d)).
Proof.
  intros Hid [A B C D E F G H I].
  constructor; simpl; rewrite ?map_app; simpl; rewrite ?Hid;
    auto using drawn_mono, drawn_app.
  intros ps Hps. apply in_or_app. left. auto.
Qed.

Lemma wf_position_update d q g :
  (forall x, ps_id (g x) = ps_id x) ->
  (forall x, positionKey (g x) = positionKey x) ->
  wellFormed d ->
  wellFormed (set_portfolioStocks (updateWhere q g (portfolioStocks d)) d).
Proof.
  intros Hi Hk [A B C D E F G H I].
  assert (Hp : forall x, ps_portfolioId (g x) = ps_portfolioId x).
  { intro x. specialize (Hk x). unfold positionKey in Hk. congruence. }
  assert (Hs : forall x, ps_stockId (g x) = ps_stockId x).
  { intro x. specialize (Hk x). unfold positionKey in Hk. congruence. }
  constructor; simpl; rewrite ?(map_updateWhere ps_id q g _ Hi),
    ?(map_updateWhere positionKey q g _ Hk); auto.
  - intros ps Hps. apply updateWhere_In in Hps. destruct Hps as [x [Hx Et]].
    subst ps. destruct (q x); rewrite ?Hp; auto.
  - intros ps Hps. apply updateWhere_In in Hps. destruct Hps as [x [Hx Et]].
    subst ps. destruct (q x); rewrite ?Hs; auto.
Qed.

Lemma wf_position_create d x :
  ps_id x = nextId d ->
  ~ In (positionKey x) (map positionKey (portfolioStocks d)) ->
  In (ps_portfolioId x) (map portfolio_id (portfolios d)) ->
  In (ps_stockId x) (map stock_id (stocks d)) ->
  wellFormed d ->
  wellFormed (bump (set_portfolioStocks (portfolioStocks d ++ [x]) d)).
Proof.
  intros Hid Hkey Hp Hs [A B C D E F G H I].
  constructor; simpl; rewrite ?map_app; simpl; rewrite ?Hid;
    auto using drawn_mono, drawn_app, NoDup_app_fresh.
  - intros ps Hps. apply in_app_or in Hps.
    destruct Hps as [Hps|[Hps|[]]]; subst; auto.
  - intros ps Hps. apply in_app_or in Hps.
    destruct Hps as [Hps|[Hps|[]]]; subst; auto.
Qed.
Lemma stock_upsert_keeps this symbol v date w :
  keeps w (snd (stock_upsert this symbol v date w)).
Proof.
  unfold stock_upsert. destruct (upsertFails this v); [apply keeps_refl|].
  destruct (find _ (stocks (db w))) as [s|] eqn:E; cbn [snd];
    apply keeps_write; intro Hw; (split; [|simpl; lia]).
  - apply wf_stock_update; auto.
  - apply wf_stock_create; auto. simpl.
    apply (find_none_not_in stock_symbol String.eqb _ _ String.eqb_eq E).
Qed.

Lemma upserts_keep this date l : forall w,
  keeps w (snd (promiseAll (upserts this date l) w)).
Proof.
  induction l as [|v l IH]; intro w; simpl; [apply keeps_refl|].
  pose proof (stock_upsert_keeps this (toUpperCase (vs_symbol v)) v date w) as H1.
  destruct (stock_upsert this (toUpperCase (vs_symbol v)) v date w) as [r w1].
  specialize (IH w1).
  destruct (promiseAll (upserts this date l) w1) as [rs w2].
  cbn [snd] in *. eapply keeps_trans; eauto.
Qed.

Lemma getStocksFromVendor_keeps this t w :
  keeps w (snd (getStocksFromVendor this t w)).
Proof.
  pose proof (vendorGet_frame this t w) as [Hd Hh].
  destruct (vendorGet this t w) as [[body|err] w1] eqn:Hv; cbn [snd] in *.
  - destruct (Z.eq_dec (api_status body) 200) as [Hs|Hs].
    + rewrite (getStocksFromVendor_ok this t w body w1 Hv Hs). cbn [snd].
      eapply keeps_trans; [apply keeps_same; eassumption | apply upserts_keep].
    + rewrite (getStocksFromVendor_invalid this t w body w1 Hv Hs).
      now apply keeps_same.
  - rewrite (getStocksFromVendor_failed this t w err w1 Hv).
    now apply keeps_same.
Qed.

Lemma getStockBySymbol_keeps this symbol w :
  keeps w (snd (getStockBySymbol this symbol w)).
Proof.
  destruct (absent_stale_or_fresh (toUpperCase symbol) w)
    as [Hstale|[s [Hc Hf]]].
  - rewrite (getStockBySymbol_refresh this symbol w Hstale).
    pose proof (getStocksFromVendor_keeps this None w) as Hk.
    destruct (getStocksFromVendor this None w) as [[vs|e] w1]; cbn [snd] in *;
      [|exact Hk].
    destruct (find _ (items vs)) as [v|]; [|exact Hk].
    pose proof (stock_upsert_keeps this (toUpperCase symbol) v (clock w1) w1)
      as Hu.
    destruct (stock_upsert this (toUpperCase symbol) v (clock w1) w1)
      as [[s|e] w2]; cbn [snd] in *; eapply keeps_trans; eauto.
  - rewrite (getStockBySymbol_fresh this symbol w s Hc Hf). apply keeps_refl.
Qed.

Lemma samePosition_none pid sid l :
  find (samePosition pid sid) l = None -> ~ In (pid, sid) (map positionKey l).
Proof.
  intros Hf Hin. apply in_map_iff in Hin. destruct Hin as [x [E Hx]].
  pose proof (find_none _ _ Hf x Hx) as H. unfold samePosition in H.
  unfold positionKey in E. inversion E. subst.
  rewrite !Nat.eqb_refl in H. discriminate.
Qed.

Lemma updateUserPortfolio_keeps userId stockId quantity price w :
  In stockId (map stock_id (stocks (db w))) ->
  keeps w (snd (updateUserPortfolio userId stockId quantity price w)).
Proof.
  intro Hstock.
  unfold updateUserPortfolio, tryCatch, bind, portfolio_findFirst,
    portfolioStock_findUnique, ret, throw.
  simpl. destruct (find _ (portfolios (db w))) as [p|] eqn:Ep; simpl.
  - destruct (find _ (portfolioStocks (db w))) as [e|] eqn:He; simpl.
    + unfold portfolioStock_update.
      destruct (find (fun x => Nat.eqb (ps_id x) (ps_id e))
                  (portfolioStocks (db w))); simpl; [|apply keeps_refl].
      apply keeps_write. intro Hw. split; [|simpl; lia].
      apply wf_position_update; auto.
    + apply keeps_write. intro Hw. split; [|simpl; lia].
      apply wf_position_create; auto; simpl.
      * now apply samePosition_none.
      * apply find_some in Ep. destruct Ep as [Ep _]. now apply in_map.
  - set (p := mkPortfolio (nextId (db w)) userId "Default Portfolio"
                (clock w) (clock w)).
    assert (K1 : keeps w (write (fun d => bump (set_portfolios
                                   (portfolios d ++ [p]) d)) w)).
    { apply keeps_write. intro Hw. split; [|simpl; lia].
      apply wf_portfolio_create; auto. }
    destruct (find _ (portfolioStocks (db w))) as [e|] eqn:He; simpl.
    + unfold portfolioStock_update. simpl.
      destruct (find (fun x => Nat.eqb (ps_id x) (ps_id e))
                  (portfolioStocks (db w))); simpl; [|exact K1].
      eapply keeps_trans; [exact K1|].
      apply keeps_write. intro Hw. split; [|simpl; lia].
      apply wf_position_update; auto.
    + eapply keeps_trans; [exact K1|].
      apply keeps_write. intro Hw. split; [|simpl; lia].
      apply wf_position_create; auto; simpl.
      * now apply samePosition_none.
      * rewrite map_app. apply in_or_app. right. simpl. auto.
Qed.
Lemma buyStock_keeps this symbol buyData userId w :
  keeps w (snd (buyStock this symbol buyData userId w)).
Proof.
  pose proof (getStockBySymbol_keeps this symbol w) as K1.
  destruct (getStockBySymbol this symbol w) as [[[stock|]|e] w1] eqn:Hs;
    cbn [snd] in *;
    try (unfold buyStock, tryCatch, bind, throw; rewrite Hs; exact K1).
  destruct (outsideTolerance (dto_price stock) (buy_price buyData)) eqn:Ht.
  { rewrite (buyStock_rejected this symbol buyData userId w stock w1 Hs Ht).
    exact K1. }
  destruct (getStockBySymbol_found this symbol w stock w1 Hs)
    as [row [Hc [Hd _]]].
  assert (Hin : In (dto_id stock) (map stock_id (stocks (db w1)))).
  { subst stock. simpl. apply in_map. unfold cached in Hc.
    now apply find_some in Hc. }
  pose proof (buyStock_admitted this symbol buyData userId w stock w1 Hs Ht) as H.
  cbv zeta in H.
  assert (K2 : keeps w1 (opened userId stock buyData w1)).
  { apply keeps_write. intro Hw. split; [|simpl; lia].
    apply wf_transaction_create; auto. }
  pose proof (vendorBuy_frame this symbol buyData
                (opened userId stock buyData w1)) as [Hdb Hh].
  assert (K4 : forall status msg w3,
            keeps w3 (closed (nextId (db w1)) status msg w3)).
  { intros status msg w3. apply keeps_write. intro Hw. split; [|simpl; lia].
    apply wf_transaction_update; auto. }
  destruct (vendorBuy this symbol buyData (opened userId stock buyData w1))
    as [[[]|err] w3]; cbn [fst snd] in *; rewrite H; cbn [snd].
  - eapply keeps_trans; [exact K1|]. eapply keeps_trans; [exact K2|].
    eapply keeps_trans; [apply keeps_same; eassumption|].
    eapply keeps_trans; [apply K4|].
    apply updateUserPortfolio_keeps. simpl. rewrite Hdb. simpl. exact Hin.
  - eapply keeps_trans; [exact K1|]. eapply keeps_trans; [exact K2|].
    eapply keeps_trans; [apply keeps_same; eassumption|]. apply K4.
Qed.

(** X6.  The methods of StocksService keep the constraints of the schema:
    called on a well-formed database, [buyStock], [getStockBySymbol] and
    [getAllStocks] leave a well-formed database, and every snapshot they
    write on the way is well formed. *)
Theorem schema_constraints_kept this symbol buyData userId nextToken w :
  wellFormed (db w) ->
  forall w',
    w' = snd (buyStock this symbol buyData userId w)
    \/ w' = snd (getStockBySymbol this symbol w)
    \/ w' = snd (getAllStocks this nextToken w) ->
    wellFormed (db w')
    /\ exists new, history w' = new ++ history w /\ Forall wellFormed new.
Proof.
  intros Hw w' [E|[E|E]]; subst w'.
  - destruct (buyStock_keeps this symbol buyData userId w Hw) as [A [_ B]]. auto.
  - destruct (getStockBySymbol_keeps this symbol w Hw) as [A [_ B]]. auto.
  - destruct (getStocksFromVendor_keeps this nextToken w Hw) as [A [_ B]]. auto.
Qed.
Lemma cachedDb_wellFormed : wellFormed cachedDb.
Proof.
  constructor; simpl.
  - constructor; [simpl; tauto | constructor].
  - constructor.
  - split; [constructor; [simpl; tauto | constructor]|].
    intros i [E|[]]. subst i. lia.
  - split; [constructor | intros i []].
  - split; [constructor | intros i []].
  - split; [constructor | intros i []].
  - intros ps [].
  - intros ps [].
  - intros t [].
Qed.

(** X6 on a confirmed purchase. *)
Lemma schema_constraints_kept_witness :
  wellFormed (db (snd (buyStock vendorConfirms "aapl" (mkBuy 102 10) "user1"
                         freshWorld))).
Proof.
  exact (proj1 (schema_constraints_kept vendorConfirms "aapl" (mkBuy 102 10)
                  "user1" None freshWorld cachedDb_wellFormed _
                  (or_introl eq_refl))).
Defined.

(** ** The purchase, end to end *)

Lemma updateWhere_none {A} (q : A -> bool) (f : A -> A) l :
  (forall x, In x l -> q x = false) -> updateWhere q f l = l.
Proof.
  intro H. unfold updateWhere. rewrite <- (map_id l) at 2.
  apply map_ext_in. intros x Hx. now rewrite (H x Hx).
Qed.

Lemma position_ext userId stockId d d' :
  portfolios d' = portfolios d ->
  portfolioStocks d' = portfolioStocks d ->
  position userId stockId d' = position userId stockId d.
Proof. intros H1 H2. unfold position. now rewrite H1, H2. Qed.

Lemma wellFormed_freshIds d : wellFormed d -> freshIds d.
Proof.
  intros [A B C [D1 D2] E F G H I] ps Hps. apply D2. now apply G.
Qed.

(** The three outcomes of [buyStock] once the price is known. *)
Lemma buyStock_outcomes this symbol buyData userId w stock w1 :
  getStockBySymbol this symbol w = (Ok (Some stock), w1) ->
  let id := nextId (db w1) in
  let w2 := opened userId stock buyData w1 in
  (outsideTolerance (dto_price stock) (buy_price buyData) = true
   /\ buyStock this symbol buyData userId w
      = (Ok (mkBuyResult false
               (Some (OutsideTolerance (buy_price buyData) (dto_price stock)))
               None), w1))
  \/ (exists w3,
        vendorBuy this symbol buyData w2 = (Ok tt, w3)
        /\ db w3 = db w2 /\ history w3 = history w2
        /\ buyStock this symbol buyData userId w
           = (Ok (mkBuyResult true None (Some id)),
              snd (updateUserPortfolio userId (dto_id stock)
                     (buy_quantity buyData) (buy_price buyData)
                     (closed id SUCCESS None w3))))
  \/ (exists err w3,
        vendorBuy this symbol buyData w2 = (Throw err, w3)
        /\ db w3 = db w2 /\ history w3 = history w2
        /\ buyStock this symbol buyData userId w
           = (Ok (mkBuyResult false (Some (Text (message err))) (Some id)),
              closed id FAILED (Some (message err)) w3)).
Proof.
  intros Hs id w2.
  destruct (outsideTolerance (dto_price stock) (buy_price buyData)) eqn:Ht.
  { left. split; [reflexivity|]. now apply buyStock_rejected. }
  right.
  pose proof (buyStock_admitted this symbol buyData userId w stock w1 Hs Ht) as H.
  cbv zeta in H. fold w2 id in H.
  pose proof (vendorBuy_frame this symbol buyData w2) as [Hd Hh].
  destruct (vendorBuy this symbol buyData w2) as [[[]|err] w3];
    cbn [fst snd] in *.
  - left. exists w3. auto.
  - right. exists err, w3. auto.
Qed.
Lemma opened_then_closed userId stock buyData w1 w3 status msg :
  wellFormed (db w1) ->
  db w3 = db (opened userId stock buyData w1) ->
  transactions (db (closed (nextId (db w1)) status msg w3))
  = transactions (db w1)
    ++ [settle status msg (clock w3) (openedRow userId stock buyData w1)].
Proof.
  intros Hw Hd. simpl. rewrite Hd. simpl. unfold updateWhere.
  rewrite map_app. simpl. unfold hasId at 2. simpl. rewrite Nat.eqb_refl.
  f_equal. apply updateWhere_none. intros x Hx. unfold hasId.
  apply Nat.eqb_neq. destruct (wf_transactionIds _ Hw) as [_ Hb].
  specialize (Hb (tx_id x) (in_map tx_id _ _ Hx)). lia.
Qed.

(** X7.  On a well-formed database, a purchase that returns a transaction
    identifier has appended exactly one row to the ledger and left the rows
    that were there untouched.  The row has that identifier, which no
    earlier row has, the user, the stock, the quantity and the price of the
    request, [totalAmount = price * quantity] and a [processedAt] date; it is
    SUCCESS when the purchase succeeded and FAILED otherwise. *)
Theorem admitted_buy_appends_one_row this symbol buyData userId w r id :
  wellFormed (db w) ->
  fst (buyStock this symbol buyData userId w) = Ok r ->
  transactionId r = Some id ->
  let w' := snd (buyStock this symbol buyData userId w) in
  exists t,
    transactions (db w') = transactions (db w) ++ [t]
    /\ tx_id t = id
    /\ ~ In id (map tx_id (transactions (db w)))
    /\ tx_userId t = userId
    /\ tx_type t = BUY
    /\ tx_quantity t = buy_quantity buyData
    /\ tx_price t = buy_price buyData
    /\ tx_totalAmount t = (buy_price buyData * inject_Z (buy_quantity buyData))%Q
    /\ tx_status t = (if success r then SUCCESS else FAILED)
    /\ tx_processedAt t <> None
    /\ In (tx_stockId t) (map stock_id (stocks (db w'))).
Proof.
  intros Hw Hr Hid w'. subst w'.
  pose proof (getStockBySymbol_keeps this symbol w Hw) as [Hw1 _].
  pose proof (getStockBySymbol_frame this symbol w) as [[Ht _] _].
  destruct (getStockBySymbol this symbol w) as [[[stock|]|e] w1] eqn:Hs;
    cbn [snd] in *;
    try (unfold buyStock, tryCatch, bind, throw in Hr; rewrite Hs in Hr;
         discriminate).
  assert (Hfresh : ~ In (nextId (db w1)) (map tx_id (transactions (db w)))).
  { rewrite <- Ht. intro Hin. destruct (wf_transactionIds _ Hw1) as [_ Hb].
    specialize (Hb _ Hin). lia. }
  destruct (getStockBySymbol_found this symbol w stock w1 Hs)
    as [row [Hc [Hdto _]]].
  assert (Hstock : In (dto_id stock) (map stock_id (stocks (db w1)))).
  { subst stock. simpl. apply in_map. unfold cached in Hc.
    now apply find_some in Hc. }
  destruct (buyStock_outcomes this symbol buyData userId w stock w1 Hs)
    as [[_ H]|[[w3 [_ [Hd [_ H]]]]|[err [w3 [_ [Hd [_ H]]]]]]];
    rewrite H in *; cbn [fst snd] in *; inversion Hr; subst r;
    simpl in Hid; try discriminate; inversion Hid; subst id.
  - pose proof (updateUserPortfolio_total userId (dto_id stock)
                  (buy_quantity buyData) (buy_price buyData)
                  (closed (nextId (db w1)) SUCCESS None w3))
      as [_ [[[Etx Est] _] _]].
    eexists. rewrite Etx, Est.
    rewrite (opened_then_closed userId stock buyData w1 w3 SUCCESS None Hw1 Hd).
    rewrite Ht. split; [reflexivity|]. simpl. rewrite Hd. simpl.
    repeat split; auto. discriminate.
  - eexists.
    rewrite (opened_then_closed userId stock buyData w1 w3 FAILED _ Hw1 Hd).
    rewrite Ht. split; [reflexivity|]. simpl. rewrite Hd. simpl.
    repeat split; auto. discriminate.
Qed.

(** X7 on a confirmed purchase. *)
Lemma admitted_buy_appends_one_row_witness :
  exists t,
    transactions (db (snd (buyStock vendorConfirms "aapl" (mkBuy 102 10) "user1"
                             freshWorld))) = [] ++ [t]
    /\ tx_id t = 2%nat.
Proof.
  destruct (admitted_buy_appends_one_row vendorConfirms "aapl" (mkBuy 102 10)
              "user1" freshWorld (mkBuyResult true None (Some 2%nat)) 2%nat
              cachedDb_wellFormed eq_refl eq_refl) as [t [A [B _]]].
  exists t. split; [exact A | exact B].
Defined.
(** X8.  On a well-formed database, a purchase that succeeds leaves the
    user's position in the stock the lookup returned: a new position of the
    requested quantity at the requested price if the user had none, and
    otherwise the old position with the quantity added and the average
    price [(oldQty*oldAvg + quantity*price) / (oldQty + quantity)]. *)
Theorem confirmed_buy_fills_position this symbol buyData userId w stock w1 r :
  wellFormed (db w) ->
  getStockBySymbol this symbol w = (Ok (Some stock), w1) ->
  fst (buyStock this symbol buyData userId w) = Ok r ->
  success r = true ->
  let w' := snd (buyStock this symbol buyData userId w) in
  exists pos,
    position userId (dto_id stock) (db w') = Some pos
    /\ match position userId (dto_id stock) (db w) with
       | None =>
           ps_quantity pos = buy_quantity buyData
           /\ ps_averagePrice pos = buy_price buyData
       | Some old =>
           ps_quantity pos = (ps_quantity old + buy_quantity buyData)%Z
           /\ ps_averagePrice pos
              = ((inject_Z (ps_quantity old) * ps_averagePrice old
                  + inject_Z (buy_quantity buyData) * buy_price buyData)
                 / inject_Z (ps_quantity old + buy_quantity buyData))%Q
       end.
Proof.
  intros Hw Hs Hr Hsucc w'. subst w'.
  pose proof (getStockBySymbol_keeps this symbol w) as K1.
  pose proof (getStockBySymbol_frame this symbol w) as [[_ [Hp Hps]] _].
  rewrite Hs in K1, Hp, Hps. cbn [snd] in *.
  destruct (K1 Hw) as [Hw1 _].
  destruct (getStockBySymbol_found this symbol w stock w1 Hs)
    as [row [Hc [Hdto _]]].
  assert (Hstock : In (dto_id stock) (map stock_id (stocks (db w1)))).
  { subst stock. simpl. apply in_map. unfold cached in Hc.
    now apply find_some in Hc. }
  destruct (buyStock_outcomes this symbol buyData userId w stock w1 Hs)
    as [[_ H]|[[w3 [_ [Hd [Hh H]]]]|[err [w3 [_ [_ [_ H]]]]]]];
    rewrite H in *; cbn [fst snd] in *; inversion Hr; subst r;
    simpl in Hsucc; try discriminate.
  set (wc := closed (nextId (db w1)) SUCCESS None w3) in *.
  assert (Hwc : wellFormed (db wc)).
  { assert (K : keeps w1 wc).
    { eapply keeps_trans; [|eapply keeps_trans].
      - apply (keeps_write (fun d => bump (set_transactions
                 (transactions d ++ [openedRow userId stock buyData w1]) d))).
        intro Hw0. split; [|simpl; lia]. apply wf_transaction_create; auto.
      - apply (keeps_same _ w3); [exact Hd | exact Hh].
      - apply keeps_write. intro Hw0. split; [|simpl; lia].
        apply wf_transaction_update; auto. }
    exact (proj1 (K Hw1)). }
  assert (Hpos : position userId (dto_id stock) (db wc)
                 = position userId (dto_id stock) (db w)).
  { apply position_ext; simpl; rewrite Hd; simpl; assumption. }
  destruct (position userId (dto_id stock) (db w)) as [old|] eqn:Eold.
  - destruct (updateUserPortfolio_existing userId (dto_id stock)
                (buy_quantity buyData) (buy_price buyData) wc old Hpos)
      as [_ Hnew].
    eexists. split; [exact Hnew|]. split; reflexivity.
  - destruct (updateUserPortfolio_first userId (dto_id stock)
                (buy_quantity buyData) (buy_price buyData) wc Hpos
                (wellFormed_freshIds _ Hwc)) as [_ [x [Hx [Hq Ha]]]].
    exists x. auto.
Qed.

(** X8 on a confirmed purchase of 10 shares at 102 by a user without
    portfolio. *)
Lemma confirmed_buy_fills_position_witness :
  exists pos,
    position "user1" 1
      (db (snd (buyStock vendorConfirms "aapl" (mkBuy 102 10) "user1"
                  freshWorld))) = Some pos
    /\ ps_quantity pos = 10%Z /\ ps_averagePrice pos = 102%Q.
Proof.
  destruct (confirmed_buy_fills_position vendorConfirms "aapl" (mkBuy 102 10)
              "user1" freshWorld (toStockDto apple) freshWorld
              (mkBuyResult true None (Some 2%nat))
              cachedDb_wellFormed eq_refl eq_refl eq_refl) as [pos [A B]].
  exists pos. split; [exact A | exact B].
Defined.

(** ** The endpoints of StocksController *)

Lemma getStockBySymbol_throws this symbol w e w' :
  getStockBySymbol this symbol w = (Throw e, w') ->
  e = HttpException "Vendor API temporarily unavailable" 503
  \/ e = HttpException "Invalid response from vendor API" 502
  \/ e = PrismaError "upsert rejected".
Proof.
  intro H. destruct (absent_stale_or_fresh (toUpperCase symbol) w)
    as [Hstale|[s [Hc Hf]]].
  - rewrite (getStockBySymbol_refresh this symbol w Hstale) in H.
    destruct (getStocksFromVendor this None w) as [[vs|e0] w1] eqn:Hv.
    + destruct (find _ (items vs)) as [v|]; [|discriminate].
      unfold stock_upsert in H. destruct (upsertFails this v).
      * inversion H. auto.
      * destruct (find _ (stocks (db w1))); discriminate.
    + inversion H. subst.
      pose proof (vendorGet_frame this None w) as _.
      destruct (vendorGet this None w) as [[body|err] w2] eqn:Hg.
      * destruct (Z.eq_dec (api_status body) 200) as [Hs|Hs].
        -- rewrite (getStocksFromVendor_ok this None w body w2 Hg Hs) in Hv.
           discriminate.
        -- rewrite (getStocksFromVendor_invalid this None w body w2 Hg Hs) in Hv.
           inversion Hv. auto.
      * rewrite (getStocksFromVendor_failed this None w err w2 Hg) in Hv.
        inversion Hv. subst. unfold vendorGet in Hg.
        destruct (retry _ _ _ _ w) as [[b|x] w3]; inversion Hg. auto.
  - rewrite (getStockBySymbol_fresh this symbol w s Hc Hf) in H. discriminate.
Qed.

(** X9.  POST /stocks/:symbol/buy.  Without a user identifier the answer
    is a body of status 400 and nothing else happens.  Otherwise a returned
    body has status 200 exactly when the purchase succeeded, and then the
    transaction it names is stored as SUCCESS; a request turned down by the
    price check and a purchase the vendor failed are both answered with
    status 400.  An error reaches the client as 404 with the symbol as it
    was spelt (stock not found), or as 503, 502 or 500. *)
Theorem buy_endpoint this symbol buyStockDto userId w :
  let reply := fst (handled (controller_buyStock this symbol buyStockDto userId) w) in
  let w' := snd (handled (controller_buyStock this symbol buyStockDto userId) w) in
  (userId = None \/ userId = Some "" ->
   reply = Returned (mkResponse 400
                       (mkBuyResult false (Some (Text "User ID is required")) None)
                       "Bad request")
   /\ w' = w)
  /\ (forall body, reply = Returned body ->
        (response_status body = 200%Z \/ response_status body = 400%Z)
        /\ (response_status body = 200%Z <-> success (response_data body) = true)
        /\ (response_status body = 200%Z ->
            exists t,
              In t (transactions (db w'))
              /\ tx_status t = SUCCESS
              /\ transactionId (response_data body) = Some (tx_id t)))
  /\ (forall status msg, reply = Filtered status msg ->
        (status = 404%Z /\ msg = ("Stock " ++ symbol ++ " not found")%string)
        \/ status = 503%Z \/ status = 502%Z \/ status = 500%Z).
Proof.
  intros reply w'. subst reply w'.
  unfold handled, controller_buyStock, tryCatch.
  destruct userId as [[|c u]|].
  1, 3: (split; [intros _; split; reflexivity|]; split;
         [intros body H; simpl in H; inversion H; subst body; simpl;
          split; [auto|]; split; [split; discriminate | discriminate]
         | intros status msg H; simpl in H; discriminate]).
  set (user := String c u).
  split; [intros [H|H]; discriminate|].
  unfold bind, ret, throw.
  destruct (getStockBySymbol this symbol w) as [[[stock|]|e] w1] eqn:Hs.
  - destruct (buyStock_outcomes this symbol buyStockDto user w stock w1 Hs)
      as [[_ H]|[[w3 [_ [Hd [_ H]]]]|[err [w3 [_ [Hd [_ H]]]]]]];
      rewrite H; cbn [fst snd]; (split; [|intros status msg Hf; discriminate]);
      intros body Hb; inversion Hb; subst body; simpl;
      (split; [auto|]); (split; [split; (reflexivity || discriminate)|]);
      try discriminate.
    intros _.
    pose proof (updateUserPortfolio_total user (dto_id stock)
                  (buy_quantity buyStockDto) (buy_price buyStockDto)
                  (closed (nextId (db w1)) SUCCESS None w3))
      as [_ [[[Etx _] _] _]].
    exists (settle SUCCESS None (clock w3) (openedRow user stock buyStockDto w1)).
    rewrite Etx. split; [|split; reflexivity].
    apply closed_row; [apply (opened_row _ _ _ _ _ Hd) | reflexivity].
  - unfold buyStock, tryCatch, bind, throw. rewrite Hs. cbn [fst snd].
    split; [intros body Hb; discriminate|].
    intros status msg H. inversion H. auto.
  - unfold buyStock, tryCatch, bind, throw. rewrite Hs. cbn [fst snd].
    split; [intros body Hb;
            destruct (getStockBySymbol_throws this symbol w e w1 Hs)
              as [E|[E|E]]; subst e; discriminate|].
    intros status msg H.
    destruct (getStockBySymbol_throws this symbol w e w1 Hs)
      as [E|[E|E]]; subst e; inversion H; auto.
Qed.
(** X9 on a request outside the tolerance: status 400. *)
Lemma buy_endpoint_witness :
  exists body,
    fst (handled (controller_buyStock vendorConfirms "aapl" (mkBuy 100 10)
                    (Some "user1")) staleWorld) = Returned body
    /\ response_status body = 400%Z.
Proof.
  eexists. split; [reflexivity|].
  destruct (proj1 (proj1 (proj2 (buy_endpoint vendorConfirms "aapl"
                                   (mkBuy 100 10) (Some "user1") staleWorld))
                     _ eq_refl)) as [H|H]; [discriminate H | exact H].
Defined.

(** X10.  GET /stocks/:symbol never answers 404.  A symbol that is not
    found is answered with a body of status 200, data [null] and the
    message "Stock not found"; a stock that is found, with status 200 and
    the stock; and an error of the lookup reaches the client as 503, 502
    or 500. *)
Theorem lookup_endpoint this symbol w :
  let reply := fst (handled (controller_getStockBySymbol this symbol) w) in
  (forall body, reply = Returned body ->
     response_status body = 200%Z
     /\ fst (getStockBySymbol this symbol w) = Ok (response_data body)
     /\ (response_data body = None <->
         response_message body = "Stock not found"))
  /\ (forall status msg, reply = Filtered status msg ->
        status = 503%Z \/ status = 502%Z \/ status = 500%Z).
Proof.
  intro reply. subst reply.
  unfold handled, controller_getStockBySymbol, tryCatch, bind, ret, throw.
  destruct (getStockBySymbol this symbol w) as [[[stock|]|e] w1] eqn:Hs;
    cbn [fst snd]; (split; [intros body H | intros status msg H]);
    try discriminate.
  - inversion H. subst body. simpl. split; [reflexivity|].
    split; [reflexivity|]. split; discriminate.
  - inversion H. subst body. simpl. split; [reflexivity|].
    split; [reflexivity|]. split; reflexivity.
  - destruct (getStockBySymbol_throws this symbol w e w1 Hs) as [E|[E|E]];
      subst e; discriminate.
  - destruct (getStockBySymbol_throws this symbol w e w1 Hs) as [E|[E|E]];
      subst e; inversion H; auto.
Qed.

(** X10 on a symbol the vendor does not list. *)
Lemma lookup_endpoint_witness :
  response_status
    (mkResponse 200 (@None StockDto) "Stock not found") = 200%Z.
Proof.
  exact (proj1 (proj1 (lookup_endpoint vendorListsOther "aapl" staleWorld)
                  (mkResponse 200 None "Stock not found") eq_refl)).
Defined.

(** ** Creating, updating and reading transactions *)

Lemma toTransactionDto_stocks d d' t :
  stocks d' = stocks d -> toTransactionDto d' t = toTransactionDto d t.
Proof. intro H. unfold toTransactionDto, stock_findById. now rewrite H. Qed.

Lemma find_hasId_fresh d :
  wellFormed d -> find (hasId (nextId d)) (transactions d) = None.
Proof.
  intro Hw. destruct (find _ (transactions d)) as [t|] eqn:E; [|reflexivity].
  apply find_some in E. destruct E as [Hin Hid]. unfold hasId in Hid.
  apply Nat.eqb_eq in Hid. destruct (wf_transactionIds _ Hw) as [_ Hb].
  specialize (Hb _ (in_map tx_id _ _ Hin)). lia.
Qed.

(** X11.  On a well-formed database, a transaction that [createTransaction]
    returns can be read back: [getTransactionById] on its identifier
    returns the same transaction, which is PENDING, not processed, and
    whose total is [price * quantity]; before the creation the same read
    failed with 404; and the database is still well formed. *)
Theorem create_then_read dto w t w' :
  wellFormed (db w) ->
  createTransaction dto w = (Ok t, w') ->
  getTransactionById (tdto_id t) w' = (Ok t, w')
  /\ (exists e, getTransactionById (tdto_id t) w = (Throw e, w)
                /\ e = NotFoundException
                         ("Transaction " ++ idText (tdto_id t) ++ " not found")%string)
  /\ tdto_status t = PENDING
  /\ tdto_processedAt t = None
  /\ tdto_total t = (ct_price dto * inject_Z (ct_quantity dto))%Q
  /\ tdto_userId t = ct_userId dto
  /\ wellFormed (db w').
Proof.
  intros Hw H. pose proof (find_hasId_fresh _ Hw) as Hfresh.
  unfold createTransaction, tryCatch, bind, transaction_create in H.
  destruct (stock_findById (ct_stockId dto) (db w)) as [s|] eqn:Hs;
    [|discriminate].
  cbn [fst snd] in H.
  set (row := mkTransaction (nextId (db w)) (ct_userId dto) (ct_stockId dto)
                None (ct_type dto) (ct_quantity dto) (ct_price dto)
                (ct_price dto * inject_Z (ct_quantity dto)) PENDING None
                (clock w) None) in *.
  set (w1 := write (fun d => bump (set_transactions (transactions d ++ [row]) d)) w)
    in *.
  assert (Hdto : toTransactionDto (db w1) row = toTransactionDto (db w) row)
    by (apply toTransactionDto_stocks; reflexivity).
  rewrite Hdto in H. unfold toTransactionDto in H. simpl tx_stockId in H.
  rewrite Hs in H. inversion H. subst t w'. clear H. simpl tdto_id.
  split; [|split].
  - unfold getTransactionById, tryCatch. simpl transactions.
    rewrite (find_app_none _ _ _ Hfresh). unfold hasId at 1. simpl tx_id.
    rewrite Nat.eqb_refl. rewrite Hdto. unfold toTransactionDto.
    simpl tx_stockId. rewrite Hs. reflexivity.
  - eexists. split; [|reflexivity].
    unfold getTransactionById, tryCatch. rewrite Hfresh. reflexivity.
  - simpl. do 4 (split; [reflexivity|]).
    apply wf_transaction_create; auto. simpl.
    unfold stock_findById in Hs. apply find_some in Hs. destruct Hs as [Hin Hid].
    apply Nat.eqb_eq in Hid. rewrite <- Hid. now apply in_map.
Qed.

Lemma ledgerWorld_wellFormed : wellFormed (db ledgerWorld).
Proof.
  constructor; simpl.
  - constructor; [simpl; tauto | constructor].
  - constructor.
  - split; [constructor; [simpl; tauto | constructor]|].
    intros i [E|[]]. subst i. lia.
  - split; [constructor | intros i []].
  - split; [constructor | intros i []].
  - split; [constructor; [simpl; tauto | constructor]|].
    intros i [E|[]]. subst i. lia.
  - intros ps [].
  - intros ps [].
  - intros t [E|[]]. subst t. simpl. auto.
Qed.

(** X11 on the ledger of one settled purchase. *)
Lemma create_then_read_witness :
  tdto_status (mkTransactionDto 3 "user2" 1 "AAPL" SELL 5 101
                 (101 * inject_Z 5) PENDING None 1000 None) = PENDING.
Proof.
  exact (proj1 (proj2 (proj2
           (create_then_read (mkCreateTransaction "user2" 1 "AAPL" SELL 5 101)
              ledgerWorld _ _ ledgerWorld_wellFormed eq_refl)))).
Defined.

(** X12.  What [updateTransactionStatus] returns is what is stored: a read
    of the same identifier right after the update returns the same
    transaction, with the requested status. *)
Theorem update_then_read dto w t w' :
  updateTransactionStatus dto w = (Ok t, w') ->
  getTransactionById (pt_transactionId dto) w' = (Ok t, w')
  /\ tdto_id t = pt_transactionId dto
  /\ tdto_status t = pt_status dto
  /\ tdto_processedAt t = Some (clock w).
Proof.
  unfold updateTransactionStatus, tryCatch, bind, now, transaction_update, throw.
  destruct (find (hasId (pt_transactionId dto)) (transactions (db w)))
    as [row|] eqn:Hf; cbn [fst snd]; [|discriminate].
  set (settled := settle (pt_status dto) (pt_errorMessage dto) (clock w)).
  set (w1 := write _ w).
  assert (Hdto : toTransactionDto (db w1) (settled row)
                 = toTransactionDto (db w) (settled row))
    by (apply toTransactionDto_stocks; reflexivity).
  rewrite Hdto. intro H.
  destruct (toTransactionDto (db w) (settled row)) as [r|e] eqn:Hr;
    inversion H. subst r w'. clear H.
  split.
  - unfold getTransactionById, tryCatch. subst w1. simpl transactions.
    rewrite find_updateWhere; [|intros x _; reflexivity].
    rewrite Hf. simpl. apply find_some in Hf. destruct Hf as [_ Hid].
    rewrite Hid. fold settled.
    change (toTransactionDto _ (settled row))
      with (toTransactionDto (db w) (settled row)).
    rewrite Hr. reflexivity.
  - unfold toTransactionDto in Hr. simpl in Hr.
    destruct (stock_findById (tx_stockId row) (db w)); inversion Hr. simpl.
    apply find_some in Hf. destruct Hf as [_ Hid]. unfold hasId in Hid.
    apply Nat.eqb_eq in Hid. auto.
Qed.

(** X12 on the settled row. *)
Lemma update_then_read_witness :
  tdto_status (mkTransactionDto 2 "user1" 1 "AAPL" BUY 10 100 1000 FAILED
                 (Some "late") 400 (Some 1000%Z)) = FAILED.
Proof.
  exact (proj1 (proj2 (proj2
           (update_then_read (mkProcess 2 FAILED (Some "late")) ledgerWorld
              _ _ eq_refl)))).
Defined.

(** ** What the daily statistics count *)

Lemma range_is_day tz date c :
  ((setHours tz 0 0 0 0 date <=? c)%Z
   && (c <=? setHours tz 23 59 59 999 (setHours tz 0 0 0 0 date))%Z)%bool
  = sameDay tz date c.
Proof.
  rewrite (setHours_same_day tz 0 0 0 0 23 59 59 999 date)
    by (unfold msPerDay; lia).
  unfold setHours, sameDay.
  pose proof (Z.div_mod (date + tz) msPerDay) as Hd.
  pose proof (Z.mod_pos_bound (date + tz) msPerDay) as Hb.
  pose proof (Z.div_mod (c + tz) msPerDay) as Hd'.
  pose proof (Z.mod_pos_bound (c + tz) msPerDay) as Hb'.
  unfold msPerDay in *.
  specialize (Hd ltac:(lia)). specialize (Hb ltac:(lia)).
  specialize (Hd' ltac:(lia)). specialize (Hb' ltac:(lia)).
  set (q := ((date + tz) / 86400000)%Z) in *.
  set (q' := ((c + tz) / 86400000)%Z) in *.
  destruct (Z.eqb_spec q' q) as [E|E].
  - apply andb_true_iff. split; apply Z.leb_le; lia.
  - apply andb_false_iff.
    destruct (Z_lt_le_dec q' q); [left | right]; apply Z.leb_gt; lia.
Qed.

Lemma insertDesc_perm t l : Permutation (insertDesc t l) (t :: l).
Proof.
  induction l as [|x r IH]; simpl; [reflexivity|].
  destruct (tx_createdAt x <? tx_createdAt t)%Z; [reflexivity|].
  rewrite IH. apply perm_swap.
Qed.

Lemma orderByCreatedAtDesc_perm l : Permutation (orderByCreatedAtDesc l) l.
Proof.
  induction l as [|t l IH]; simpl; [reflexivity|].
  rewrite insertDesc_perm. now constructor.
Qed.

Lemma filter_perm {A} (p : A -> bool) l l' :
  Permutation l l' -> Permutation (filter p l) (filter p l').
Proof.
  induction 1; simpl.
  - reflexivity.
  - destruct (p x); [now constructor | assumption].
  - destruct (p x), (p y); try reflexivity. apply perm_swap.
  - etransitivity; eassumption.
Qed.

Lemma status_partition l :
  Permutation (withStatus SUCCESS l ++ withStatus FAILED l
               ++ withStatus PENDING l) l.
Proof.
  unfold withStatus. induction l as [|t l IH]; simpl; [reflexivity|].
  destruct (tx_status t); simpl.
  - (* PENDING *)
    rewrite app_assoc. rewrite <- Permutation_middle. constructor.
    now rewrite <- app_assoc.
  - now constructor.
  - rewrite <- Permutation_middle. now constructor.
Qed.

Lemma volumeOf_perm l l' : Permutation l l' -> volumeOf l = volumeOf l'.
Proof. induction 1; simpl; lia. Qed.

Lemma valueOf_perm l l' : Permutation l l' -> (valueOf l == valueOf l')%Q.
Proof.
  induction 1; simpl.
  - reflexivity.
  - now rewrite IHPermutation.
  - ring.
  - etransitivity; eassumption.
Qed.

(** The DTOs of rows whose stocks are stored. *)
Lemma mapResult_rows d l :
  (forall t, In t l -> In (tx_stockId t) (map stock_id (stocks d))) ->
  exists m,
    mapResult (toTransactionDto d) l = Ok m
    /\ Forall2 mirrors l m.
Proof.
  induction l as [|t l IH]; intro H; simpl.
  - exists []. split; [reflexivity | constructor].
  - destruct IH as [m [Hm Hf]]; [intros x Hx; apply H; now right|].
    assert (Hs : exists s, stock_findById (tx_stockId t) d = Some s).
    { specialize (H t (or_introl eq_refl)). apply in_map_iff in H.
      destruct H as [s [Hid Hin]].
      apply (find_In (fun x => Nat.eqb (stock_id x) (tx_stockId t)) _ s Hin).
      rewrite Hid. apply Nat.eqb_refl. }
    destruct Hs as [s Hs]. unfold toTransactionDto at 1. rewrite Hs, Hm.
    eexists. split; [reflexivity|]. constructor; [unfold mirrors; simpl; auto | exact Hf].
Qed.

Lemma Forall2_status_filter s l m :
  Forall2 mirrors l m ->
  Forall2 mirrors
    (withStatus s l)
    (filter (fun r => TransactionStatus_eqb (tdto_status r) s) m).
Proof.
  unfold withStatus. induction 1 as [|t r l m [Hq [Ht [Hs Hu]]] _ IH]; simpl.
  - constructor.
  - rewrite Hs. destruct (TransactionStatus_eqb (tx_status t) s);
      [constructor; [unfold mirrors; auto | exact IH] | exact IH].
Qed.

Lemma fold_volume l m : forall a,
  Forall2 mirrors l m ->
  fold_left (fun sum r => (sum + tdto_quantity r)%Z) m a
  = (a + volumeOf l)%Z.
Proof.
  intros a H. revert a.
  induction H as [|t r l m [Hq _] _ IH]; intro a; simpl; [lia|].
  rewrite IH, Hq. lia.
Qed.

Lemma fold_value l m : forall a,
  Forall2 mirrors l m ->
  (fold_left (fun sum r => (sum + tdto_total r)%Q) m a == a + valueOf l)%Q.
Proof.
  intros a H. revert a.
  induction H as [|t r l m [_ [Ht _]] _ IH]; intro a; simpl; [ring|].
  rewrite IH, Ht. ring.
Qed.

(** X13.  On a well-formed database the daily statistics are computed (no
    error) and count exactly the transactions created on the local calendar
    day of the date: their number, which is the sum of the numbers of
    successful, failed and pending ones; the shares of all of them; and the
    money of the successful ones. *)
Theorem daily_stats_count_the_day tz date w :
  wellFormed (db w) ->
  let day := createdOn tz date (db w) in
  exists stats,
    fst (fst (getDailyTransactionStats tz date w)) = Ok stats
    /\ totalTransactions stats = Z.of_nat (List.length day)
    /\ successfulTransactions stats
       = Z.of_nat (List.length (withStatus SUCCESS day))
    /\ failedTransactions stats = Z.of_nat (List.length (withStatus FAILED day))
    /\ pendingTransactions stats
       = Z.of_nat (List.length (withStatus PENDING day))
    /\ totalTransactions stats
       = (successfulTransactions stats + failedTransactions stats
          + pendingTransactions stats)%Z
    /\ totalVolume stats = volumeOf day
    /\ (totalValue stats == valueOf (withStatus SUCCESS day))%Q.
Proof.
  intros Hw day.
  unfold getDailyTransactionStats, getTransactionsForDateRange, tryCatch, throw.
  rewrite (filter_ext _ (fun t => sameDay tz date (tx_createdAt t))
             (fun t => range_is_day tz date (tx_createdAt t))).
  fold (createdOn tz date (db w)). fold day.
  set (sorted := orderByCreatedAtDesc day).
  assert (Hperm : Permutation sorted day) by apply orderByCreatedAtDesc_perm.
  destruct (mapResult_rows (db w) sorted) as [m [Hm Hf]].
  { intros t Ht. apply (wf_transactionStock _ Hw).
    apply (Permutation_in _ Hperm) in Ht. unfold day, createdOn in Ht.
    now apply filter_In in Ht. }
  rewrite Hm. cbn [fst snd successful failed pending].
  pose proof (Forall2_status_filter SUCCESS _ _ Hf) as FS.
  pose proof (Forall2_status_filter FAILED _ _ Hf) as FF.
  pose proof (Forall2_status_filter PENDING _ _ Hf) as FP.
  set (ms := filter (fun r => TransactionStatus_eqb (tdto_status r) SUCCESS) m)
    in *.
  set (mf := filter (fun r => TransactionStatus_eqb (tdto_status r) FAILED) m)
    in *.
  set (mp := filter (fun r => TransactionStatus_eqb (tdto_status r) PENDING) m)
    in *.
  assert (LS : List.length ms = List.length (withStatus SUCCESS day)).
  { rewrite <- (Forall2_length FS). apply Permutation_length.
    now apply filter_perm. }
  assert (LF : List.length mf = List.length (withStatus FAILED day)).
  { rewrite <- (Forall2_length FF). apply Permutation_length.
    now apply filter_perm. }
  assert (LP : List.length mp = List.length (withStatus PENDING day)).
  { rewrite <- (Forall2_length FP). apply Permutation_length.
    now apply filter_perm. }
  assert (Lall : (List.length (withStatus SUCCESS day)
                  + List.length (withStatus FAILED day)
                  + List.length (withStatus PENDING day))%nat
                 = List.length day).
  { rewrite <- (Permutation_length (status_partition day)).
    rewrite !length_app. lia. }
  eexists. split; [reflexivity|].
  cbn [totalTransactions successfulTransactions failedTransactions
       pendingTransactions totalVolume totalValue].
  rewrite !length_app, LS, LF, LP.
  split; [lia|]. split; [reflexivity|]. split; [reflexivity|].
  split; [reflexivity|]. split; [lia|]. split.
  - rewrite (fold_volume (withStatus SUCCESS sorted ++ withStatus FAILED sorted
                          ++ withStatus PENDING sorted) (ms ++ mf ++ mp) 0%Z).
    + rewrite (volumeOf_perm _ _ (status_partition sorted)).
      simpl. now apply volumeOf_perm.
    + repeat apply Forall2_app; assumption.
  - rewrite (fold_value _ _ 0%Q FS).
    rewrite (valueOf_perm (withStatus SUCCESS sorted) (withStatus SUCCESS day)
               (filter_perm _ _ _ Hperm)). ring.
Qed.

(** X13 on the ledger of one settled purchase. *)
Lemma daily_stats_count_the_day_witness :
  exists stats,
    fst (fst (getDailyTransactionStats 0 5 ledgerWorld)) = Ok stats
    /\ totalTransactions stats = 1%Z.
Proof.
  destruct (daily_stats_count_the_day 0 5 ledgerWorld ledgerWorld_wellFormed)
    as [stats [A [B _]]].
  exists stats. split; [exact A | exact B].
Defined.

(** X14.  The daily report and the daily statistics of the same date agree:
    both fail with the same error or both succeed, with the same counts of
    successful and failed transactions, the same volume and the same value;
    both leave the world as it is and the caller's [Date] at the same time
    value, 23:59:59.999 of the day, which is also the date the report
    carries. *)
Theorem report_agrees_with_stats tz date w :
  let report := generateDailyReport tz date w in
  let stats := getDailyTransactionStats tz date w in
  snd report = w
  /\ snd stats = w
  /\ snd (fst report) = snd (fst stats)
  /\ match fst (fst report), fst (fst stats) with
     | Ok r, Ok s =>
         totalSuccessfulTransactions r = successfulTransactions s
         /\ totalFailedTransactions r = failedTransactions s
         /\ report_totalVolume r = totalVolume s
         /\ report_totalValue r = totalValue s
         /\ Z.of_nat (List.length (report_successfulTransactions r))
            = successfulTransactions s
         /\ report_date r = setHours tz 23 59 59 999 date
     | Throw e, Throw e' => e = e'
     | _, _ => False
     end.
Proof.
  intros report stats. subst report stats.
  unfold generateDailyReport, getDailyTransactionStats.
  pose proof (getTransactionsForDateRange_reads
                (setHours tz 0 0 0 0 date)
                (setHours tz 23 59 59 999 (setHours tz 0 0 0 0 date)) w) as Hr.
  destruct (getTransactionsForDateRange _ _ w) as [[data|e] w1];
    cbn [fst snd] in *; subst w1; repeat split.
  apply setHours_same_day. unfold msPerDay. lia.
Qed.

(** ** Pages of a user's transactions *)









(** ** Portfolio valuation *)

Lemma valueStock_frame this item acc w :
  touches stocksOnly w (snd (valueStock this item acc w))
  /\ keeps w (snd (valueStock this item acc w)).
Proof.
  destruct item as [ps s]. destruct acc as [[ls tv] tc].
  unfold valueStock, bind, ret.
  pose proof (getStockBySymbol_frame this (stock_symbol s) w) as F.
  pose proof (getStockBySymbol_keeps this (stock_symbol s) w) as K.
  destruct (getStockBySymbol this (stock_symbol s) w) as [[[c|]|e] w1];
    simpl in *; split; assumption.
Qed.

Lemma valueStocks_frame this items : forall acc w,
  touches stocksOnly w (snd (valueStocks this items acc w))
  /\ keeps w (snd (valueStocks this items acc w)).
Proof.
  induction items as [|item rest IH]; intros acc w; simpl.
  - split; [apply touches_refl; apply stocksOnly_refl | apply keeps_refl].
  - unfold bind.
    destruct (valueStock_frame this item acc w) as [F K].
    destruct (valueStock this item acc w) as [[acc'|e] w1]; simpl in *.
    + destruct (IH acc' w1) as [F' K']. split.
      * eapply touches_trans; [exact stocksOnly_trans | exact F | exact F'].
      * eapply keeps_trans; eassumption.
    + split; assumption.
Qed.

Lemma valuePortfolio_frame this loaded w :
  touches stocksOnly w (snd (valuePortfolio this loaded w))
  /\ keeps w (snd (valuePortfolio this loaded w)).
Proof.
  destruct loaded as [p items]. unfold valuePortfolio, bind, ret.
  pose proof (valueStocks_frame this items ([], 0%Q, 0%Q) w) as F.
  destruct (valueStocks this items ([], 0%Q, 0%Q) w) as [[[[ls tv] tc]|e] w1];
    simpl in *; exact F.
Qed.

Lemma valuePortfolios_frame this loaded : forall w,
  touches stocksOnly w (snd (valuePortfolios this loaded w))
  /\ keeps w (snd (valuePortfolios this loaded w)).
Proof.
  induction loaded as [|l rest IH]; intro w; simpl.
  - split; [apply touches_refl; apply stocksOnly_refl | apply keeps_refl].
  - unfold bind, ret.
    destruct (valuePortfolio_frame this l w) as [F K].
    destruct (valuePortfolio this l w) as [[dto|e] w1]; simpl in *.
    + destruct (IH w1) as [F' K'].
      destruct (valuePortfolios this rest w1) as [[dtos|e] w2]; simpl in *;
        (split;
         [eapply touches_trans; [exact stocksOnly_trans | exact F | exact F']
         | eapply keeps_trans; eassumption]).
    + split; assumption.
Qed.

Lemma getUserPortfolios_frame this userId w :
  touches stocksOnly w (snd (getUserPortfolios this userId w))
  /\ keeps w (snd (getUserPortfolios this userId w)).
Proof.
  unfold getUserPortfolios, tryCatch, throw.
  destruct (mapResult _ _) as [loaded|e]; simpl.
  - pose proof (valuePortfolios_frame this loaded w) as F.
    destruct (valuePortfolios this loaded w) as [[dtos|e] w1]; simpl in *;
      exact F.
  - split; [apply touches_refl; apply stocksOnly_refl | apply keeps_refl].
Qed.

Lemma getPortfolioById_frame this portfolioId userId w :
  touches stocksOnly w (snd (getPortfolioById this portfolioId userId w))
  /\ keeps w (snd (getPortfolioById this portfolioId userId w)).
Proof.
  assert (R : touches stocksOnly w w /\ keeps w w)
    by (split; [apply touches_refl; apply stocksOnly_refl | apply keeps_refl]).
  unfold getPortfolioById, tryCatch, throw.
  destruct (find _ _) as [p|]; [|exact R].
  destruct (includeStocks (db w) p) as [items|e]; [|exact R].
  pose proof (valuePortfolio_frame this (p, items) w) as F.
  destruct (valuePortfolio this (p, items) w) as [[dto|e] w1]; exact F.
Qed.

(** X16.  Reading portfolios never writes to the portfolios, the positions
    or the ledger: whatever [getUserPortfolios] and [getPortfolioById]
    return, only the stock cache can differ afterwards, in the final
    database and in every snapshot written on the way, and the constraints
    of the schema are kept. *)
Theorem portfolio_reads_touch_only_the_cache this portfolioId userId w :
  let w1 := snd (getUserPortfolios this userId w) in
  let w2 := snd (getPortfolioById this portfolioId userId w) in
  touches stocksOnly w w1 /\ keeps w w1
  /\ touches stocksOnly w w2 /\ keeps w w2.
Proof.
  cbv zeta.
  destruct (getUserPortfolios_frame this userId w) as [A B].
  destruct (getPortfolioById_frame this portfolioId userId w) as [C D].
  split; [exact A|]. split; [exact B|]. split; [exact C | exact D].
Qed.

Lemma sumGain_valued l :
  Forall lineValued l -> (sumGain l == sumValue l - sumLineCost l)%Q.
Proof.
  induction 1 as [|x l [_ Hg] _ IH]; simpl; [reflexivity|].
  rewrite Hg, IH. ring.
Qed.

Lemma sumValue_app a b : (sumValue (a ++ b) == sumValue a + sumValue b)%Q.
Proof. induction a as [|x a IH]; simpl; [ring | rewrite IH; ring]. Qed.

Lemma sumLineCost_app a b :
  (sumLineCost (a ++ b) == sumLineCost a + sumLineCost b)%Q.
Proof. induction a as [|x a IH]; simpl; [ring | rewrite IH; ring]. Qed.

Lemma valueStocks_totals this items : forall ls tv tc w ls' tv' tc' w',
  valueStocks this items (ls, tv, tc) w = (Ok (ls', tv', tc'), w') ->
  exists added,
    ls' = ls ++ added
    /\ (tv' == tv + sumValue added)%Q
    /\ (tc' == tc + sumLineCost added)%Q
    /\ Forall lineValued added
    /\ (List.length added <= List.length items)%nat.
Proof.
  induction items as [|[ps s] rest IH]; intros ls tv tc w ls' tv' tc' w' H.
  - simpl in H. inversion H. subst. exists []. rewrite app_nil_r. simpl.
    repeat split; try ring; auto.
  - simpl in H. unfold bind at 1 in H. unfold valueStock, bind, ret in H.
    destruct (getStockBySymbol this (stock_symbol s) w) as [[[c|]|e] w1];
      [| |discriminate].
    + apply IH in H. destruct H as (added & E & Hv & Hc & Hl & Hn).
      eexists (_ :: added). rewrite <- app_assoc in E. simpl in E.
      split; [exact E|]. simpl. split; [rewrite Hv; ring|].
      split; [rewrite Hc; unfold lineCost; simpl; ring|].
      split; [|lia].
      constructor; [|exact Hl]. split; reflexivity.
    + apply IH in H. destruct H as (added & E & Hv & Hc & Hl & Hn).
      exists added. repeat split; auto. simpl. lia.
Qed.

Lemma valuePortfolio_valued this p items w dto w' :
  valuePortfolio this (p, items) w = (Ok dto, w') ->
  valued dto
  /\ pd_id dto = portfolio_id p
  /\ pd_userId dto = portfolio_userId p
  /\ pd_name dto = portfolio_name p
  /\ (List.length (pd_stocks dto) <= List.length items)%nat.
Proof.
  unfold valuePortfolio, bind, ret. intro H.
  destruct (valueStocks this items ([], 0%Q, 0%Q) w) as [[[[ls tv] tc]|e] w1] eqn:E;
    [|discriminate].
  inversion H. subst. clear H. simpl.
  apply valueStocks_totals in E.
  destruct E as (added & El & Hv & Hc & Hl & Hn). simpl in El. subst ls.
  repeat split; auto; unfold valued; simpl.
  - rewrite Hv. ring.
  - rewrite (sumGain_valued _ Hl), Hv, Hc. ring.
Qed.
Lemma insertPortfolioDesc_perm p l :
  Permutation (insertPortfolioDesc p l) (p :: l).
Proof.
  induction l as [|x r IH]; simpl; [reflexivity|].
  destruct (portfolio_createdAt x <? portfolio_createdAt p)%Z; [reflexivity|].
  rewrite IH. apply perm_swap.
Qed.

Lemma orderPortfoliosDesc_perm l : Permutation (orderPortfoliosDesc l) l.
Proof.
  induction l as [|p l IH]; simpl; [reflexivity|].
  rewrite insertPortfolioDesc_perm. now constructor.
Qed.

Lemma loaded_portfolios d l : forall loaded,
  mapResult (fun p => match includeStocks d p with
                      | Ok items => Ok (p, items)
                      | Throw e => Throw e
                      end) l = Ok loaded ->
  map fst loaded = l.
Proof.
  induction l as [|p l IH]; intros loaded H; simpl in H.
  - inversion H. reflexivity.
  - destruct (includeStocks d p) as [items|e]; [|discriminate].
    destruct (mapResult _ l) as [rest|e]; [|discriminate].
    inversion H. simpl. now rewrite (IH rest eq_refl).
Qed.

Lemma valuePortfolios_valued this loaded : forall w dtos w',
  valuePortfolios this loaded w = (Ok dtos, w') ->
  Forall valued dtos
  /\ map pd_id dtos = map portfolio_id (map fst loaded)
  /\ map pd_userId dtos = map portfolio_userId (map fst loaded).
Proof.
  induction loaded as [|l rest IH]; intros w dtos w' H; simpl in H.
  - unfold ret in H. inversion H. simpl. auto.
  - unfold bind at 1 in H.
    destruct (valuePortfolio this l w) as [[dto|e] w1] eqn:E;
      [|discriminate].
    destruct l as [p items].
    unfold bind, ret in H.
    destruct (valuePortfolios this rest w1) as [[ds|e] w2] eqn:E2;
      [|discriminate].
    inversion H. subst. clear H.
    apply valuePortfolio_valued in E. destruct E as (V & I & U & _).
    destruct (IH _ _ _ E2) as (Vs & Is & Us).
    simpl. rewrite I, U, Is, Us. auto.
Qed.

Lemma getUserPortfolios_ok this userId w dtos w' :
  getUserPortfolios this userId w = (Ok dtos, w') ->
  Forall valued dtos
  /\ map pd_id dtos
     = map portfolio_id (orderPortfoliosDesc (portfoliosOf userId (db w)))
  /\ map pd_userId dtos
     = map portfolio_userId (orderPortfoliosDesc (portfoliosOf userId (db w))).
Proof.
  unfold getUserPortfolios, tryCatch, throw. fold (portfoliosOf userId (db w)).
  destruct (mapResult _ _) as [loaded|e] eqn:L; [|discriminate].
  apply loaded_portfolios in L.
  destruct (valuePortfolios this loaded w) as [[ds|e] w1] eqn:E; [|discriminate].
  intro H. inversion H. subst ds w1.
  apply valuePortfolios_valued in E. now rewrite L in E.
Qed.



(** X18.  A portfolio that [getPortfolioById] returns is the requested one
    and belongs to the requesting user: it is a stored portfolio with that
    identifier and that user, returned under its own name, valued, with at
    most one line for each of its positions. *)
Theorem portfolio_read_is_owners this portfolioId userId w dto w' :
  getPortfolioById this portfolioId userId w = (Ok dto, w') ->
  pd_id dto = portfolioId
  /\ pd_userId dto = userId
  /\ valued dto
  /\ (exists p, In p (portfolios (db w))
                /\ portfolio_id p = portfolioId
                /\ portfolio_userId p = userId
                /\ portfolio_name p = pd_name dto)
  /\ (List.length (pd_stocks dto)
      <= List.length
           (filter (fun ps => Nat.eqb (ps_portfolioId ps) portfolioId)
              (portfolioStocks (db w))))%nat.
Proof.
  unfold getPortfolioById, tryCatch, throw.
  destruct (find _ _) as [p|] eqn:F; [|discriminate].
  apply find_some in F. destruct F as [Hin Hp].
  apply andb_true_iff in Hp. destruct Hp as [Hid Hu].
  apply Nat.eqb_eq in Hid. apply String.eqb_eq in Hu.
  destruct (includeStocks (db w) p) as [items|e] eqn:L; [|discriminate].
  destruct (valuePortfolio this (p, items) w) as [[d|e] w1] eqn:E;
    [|discriminate].
  intro H. inversion H. subst d w1. clear H.
  apply valuePortfolio_valued in E. destruct E as (V & I & U & N & Len).
  split; [congruence|]. split; [congruence|]. split; [exact V|].
  split; [exists p; auto|].
  eapply Nat.le_trans; [exact Len|].
  unfold includeStocks in L. rewrite Hid in L.
  clear -L. revert items L.
  induction (filter _ _) as [|ps l IH]; intros items L; simpl in L.
  - inversion L. auto.
  - destruct (stock_findById (ps_stockId ps) (db w)); [|discriminate].
    destruct (mapResult _ l) as [rest|e]; [|discriminate].
    inversion L. simpl. specialize (IH rest eq_refl). lia.
Qed.

Lemma portfolio_read_is_owners_witness :
  exists dto,
    getPortfolioById vendorConfirms 2 "user1" holdingWorld
    = (Ok dto, holdingWorld)
    /\ pd_id dto = 2%nat
    /\ pd_userId dto = "user1"
    /\ valued dto.
Proof.
  eexists. split; [reflexivity|].
  destruct (portfolio_read_is_owners vendorConfirms 2 "user1" holdingWorld _ _
              eq_refl) as (I & U & V & _).
  split; [exact I|]. split; [exact U | exact V].
Defined.

(** X19.  A portfolio identifier that is not one of the user's portfolios,
    whether no portfolio has it or another user's portfolio has it, is
    answered with 404 "Portfolio <id> not found"; no request is sent and
    nothing is written. *)
Theorem foreign_portfolio_not_found this portfolioId userId w :
  (forall p, In p (portfolios (db w)) ->
             portfolio_id p = portfolioId -> portfolio_userId p <> userId) ->
  getPortfolioById this portfolioId userId w
  = (Throw (HttpException
              ("Portfolio " ++ idText portfolioId ++ " not found")%string 404),
     w).
Proof.
  intro H. unfold getPortfolioById, tryCatch, throw.
  destruct (find _ _) as [p|] eqn:F; [|reflexivity].
  apply find_some in F. destruct F as [Hin Hp].
  apply andb_true_iff in Hp. destruct Hp as [Hid Hu].
  apply Nat.eqb_eq in Hid. apply String.eqb_eq in Hu.
  destruct (H p Hin Hid Hu).
Qed.

Lemma foreign_portfolio_not_found_witness :
  getPortfolioById vendorConfirms 2 "user2" holdingWorld
  = (Throw (HttpException "Portfolio 2 not found" 404), holdingWorld).
Proof.
  apply (foreign_portfolio_not_found vendorConfirms 2 "user2" holdingWorld).
  intros p [<-|[]] _. discriminate.
Defined.
(** ** The default portfolio *)

Lemma getUserPortfolios_none this userId w :
  portfoliosOf userId (db w) = [] ->
  getUserPortfolios this userId w = (Ok [], w).
Proof.
  intro H. unfold getUserPortfolios, tryCatch, throw.
  fold (portfoliosOf userId (db w)). rewrite H. reflexivity.
Qed.

Lemma getOrCreateDefaultPortfolio_new this userId w :
  portfoliosOf userId (db w) = [] ->
  getOrCreateDefaultPortfolio this userId w
  = (Ok (mkPortfolioDto (nextId (db w)) userId "Default Portfolio" [] 0 0 0
           (clock w) (clock w)),
     write (fun d => bump (set_portfolios
                             (portfolios d
                              ++ [mkPortfolio (nextId (db w)) userId
                                    "Default Portfolio" (clock w) (clock w)])
                             d)) w).
Proof.
  intro P. unfold getOrCreateDefaultPortfolio, tryCatch, throw.
  unfold bind at 1.
  rewrite (getUserPortfolios_none this userId w P). reflexivity.
Qed.

Lemma getOrCreateDefaultPortfolio_old this userId w :
  portfoliosOf userId (db w) <> [] ->
  snd (getOrCreateDefaultPortfolio this userId w)
  = snd (getUserPortfolios this userId w).
Proof.
  intro P. unfold getOrCreateDefaultPortfolio, tryCatch, throw.
  unfold bind at 1.
  pose proof (getUserPortfolios_ok this userId w) as V.
  destruct (getUserPortfolios this userId w) as [[dtos|e] w1]; [|reflexivity].
  destruct dtos as [|first rest]; [|reflexivity].
  destruct (V [] w1 eq_refl) as (_ & I & _).
  apply (f_equal (@List.length _)) in I.
  rewrite !length_map in I.
  rewrite (Permutation_length (orderPortfoliosDesc_perm _)) in I.
  destruct (portfoliosOf userId (db w)); [congruence | discriminate].
Qed.

(** X20.  [getOrCreateDefaultPortfolio] leaves the user with at least one
    portfolio and creates none when the user has one: whatever it returns,
    the number of the user's portfolios afterwards is the larger of 1 and
    their number before; positions, ledger and the portfolios of other users
    are as before. *)
Theorem default_portfolio_count this userId w :
  let w' := snd (getOrCreateDefaultPortfolio this userId w) in
  List.length (portfoliosOf userId (db w'))
  = Nat.max 1 (List.length (portfoliosOf userId (db w)))
  /\ portfolioStocks (db w') = portfolioStocks (db w)
  /\ transactions (db w') = transactions (db w)
  /\ (forall other, other <> userId ->
        portfoliosOf other (db w') = portfoliosOf other (db w)).
Proof.
  cbv zeta.
  destruct (portfoliosOf userId (db w)) as [|p0 ps] eqn:P.
  - rewrite (getOrCreateDefaultPortfolio_new this userId w P).
    split; [|split; [reflexivity|split; [reflexivity|]]].
    + unfold portfoliosOf in *. simpl. rewrite filter_app. simpl.
      rewrite String.eqb_refl, P. reflexivity.
    + intros other Ho. unfold portfoliosOf. simpl. rewrite filter_app. simpl.
      destruct (String.eqb_spec userId other) as [E|_]; [congruence|].
      now rewrite app_nil_r.
  - rewrite getOrCreateDefaultPortfolio_old by (rewrite P; discriminate).
    destruct (getUserPortfolios_frame this userId w) as [[(T & Q & S) _] _].
    assert (Same : forall u, portfoliosOf u (db (snd (getUserPortfolios this userId w)))
                             = portfoliosOf u (db w))
      by (intro u; unfold portfoliosOf; now rewrite Q).
    rewrite Same, P. simpl.
    split; [now destruct (List.length ps)|]. auto.
Qed.

Lemma no_position_of_fresh (n : nat) (l : list PortfolioStock) :
  (forall ps, In ps l -> (ps_portfolioId ps < n)%nat) ->
  filter (fun ps => Nat.eqb (ps_portfolioId ps) n) l = [].
Proof.
  induction l as [|ps l IH]; intro Fr; [reflexivity|]. simpl.
  pose proof (Fr ps (or_introl eq_refl)) as Lt.
  destruct (Nat.eqb_spec (ps_portfolioId ps) n) as [E|_]; [lia|].
  apply IH. intros x Hx. apply Fr. now right.
Qed.

(** X21.  For a user without a portfolio, on a well-formed database,
    [getOrCreateDefaultPortfolio] succeeds without a request to the vendor:
    it stores one portfolio named "Default Portfolio" for the user, under a
    fresh identifier, and returns it empty; asked again, it returns the same
    DTO and writes nothing. *)
Theorem default_portfolio_created_once this userId w :
  wellFormed (db w) ->
  portfoliosOf userId (db w) = [] ->
  let p := mkPortfolio (nextId (db w)) userId "Default Portfolio"
             (clock w) (clock w) in
  let dto := mkPortfolioDto (nextId (db w)) userId "Default Portfolio" [] 0 0 0
               (clock w) (clock w) in
  exists w',
    getOrCreateDefaultPortfolio this userId w = (Ok dto, w')
    /\ portfolios (db w') = portfolios (db w) ++ [p]
    /\ httpCalls w' = httpCalls w
    /\ wellFormed (db w')
    /\ getOrCreateDefaultPortfolio this userId w' = (Ok dto, w').
Proof.
  intros Hw P p dto.
  set (w' := write (fun d => bump (set_portfolios (portfolios d ++ [p]) d)) w).
  exists w'.
  assert (First : getOrCreateDefaultPortfolio this userId w = (Ok dto, w')).
  { exact (getOrCreateDefaultPortfolio_new this userId w P). }
  split; [exact First|]. split; [reflexivity|]. split; [reflexivity|].
  assert (Hw' : wellFormed (db w')).
  { apply (wf_portfolio_create (db w) p eq_refl Hw). }
  split; [exact Hw'|].
  assert (Pw' : portfoliosOf userId (db w') = [p]).
  { unfold portfoliosOf in *. simpl. rewrite filter_app, P. simpl.
    now rewrite String.eqb_refl. }
  assert (Empty : filter (fun ps => Nat.eqb (ps_portfolioId ps) (nextId (db w)))
                    (portfolioStocks (db w)) = []).
  { apply no_position_of_fresh. exact (wellFormed_freshIds _ Hw). }
  unfold getOrCreateDefaultPortfolio, tryCatch, throw. unfold bind at 1.
  unfold getUserPortfolios, tryCatch, throw.
  fold (portfoliosOf userId (db w')). rewrite Pw'.
  simpl. unfold includeStocks. simpl. rewrite Empty. reflexivity.
Qed.

Lemma holdingWorld_wellFormed : wellFormed (db holdingWorld).
Proof.
  constructor; simpl.
  - constructor; [simpl; tauto | constructor].
  - constructor; [simpl; tauto | constructor].
  - split; [constructor; [simpl; tauto | constructor]|].
    intros i [E|[]]. subst i. lia.
  - split; [constructor; [simpl; tauto | constructor]|].
    intros i [E|[]]. subst i. lia.
  - split; [constructor; [simpl; tauto | constructor]|].
    intros i [E|[]]. subst i. lia.
  - split; [constructor | intros i []].
  - intros ps [E|[]]. subst ps. simpl. auto.
  - intros ps [E|[]]. subst ps. simpl. auto.
  - intros t [].
Qed.

Lemma default_portfolio_created_once_witness :
  wellFormed (db holdingWorld)
  /\ portfoliosOf "user2" (db holdingWorld) = []
  /\ exists w',
    getOrCreateDefaultPortfolio vendorRejects "user2" holdingWorld
    = (Ok (mkPortfolioDto 4 "user2" "Default Portfolio" [] 0 0 0 1000 1000), w')
    /\ List.length (portfolios (db w')) = 2%nat
    /\ getOrCreateDefaultPortfolio vendorRejects "user2" w'
       = (Ok (mkPortfolioDto 4 "user2" "Default Portfolio" [] 0 0 0 1000 1000),
          w').
Proof.
  split; [exact holdingWorld_wellFormed|]. split; [reflexivity|].
  destruct (default_portfolio_created_once vendorRejects "user2" holdingWorld
              holdingWorld_wellFormed eq_refl)
    as (w' & First & Ps & _ & _ & Again).
  exists w'. split; [exact First|]. split; [|exact Again].
  rewrite Ps. reflexivity.
Defined.

(** ** Reading the ledger *)

Lemma insertDesc_newestFirst t l :
  newestFirst (map tx_createdAt l) ->
  newestFirst (map tx_createdAt (insertDesc t l)).
Proof.
  induction l as [|x r IH]; simpl; [auto|]. intros [Hx Hr].
  destruct (Z.ltb_spec (tx_createdAt x) (tx_createdAt t)) as [Lt|Ge]; simpl.
  - split; [|split; assumption].
    constructor; [lia|]. eapply Forall_impl; [|exact Hx]. simpl. intros. lia.
  - split; [|apply IH; exact Hr].
    apply (Permutation_Forall
             (Permutation_sym (Permutation_map tx_createdAt (insertDesc_perm t r)))).
    simpl. constructor; [lia | exact Hx].
Qed.

Lemma orderByCreatedAtDesc_newestFirst l :
  newestFirst (map tx_createdAt (orderByCreatedAtDesc l)).
Proof.
  induction l as [|t l IH]; simpl; [exact I|].
  now apply insertDesc_newestFirst.
Qed.

Lemma mapResult_columns d l : forall m,
  mapResult (toTransactionDto d) l = Ok m ->
  map tdto_id m = map tx_id l
  /\ map tdto_createdAt m = map tx_createdAt l
  /\ map tdto_status m = map tx_status l.
Proof.
  induction l as [|t l IH]; intros m H; simpl in H.
  - inversion H. auto.
  - unfold toTransactionDto in H at 1.
    destruct (stock_findById (tx_stockId t) d); [|discriminate].
    destruct (mapResult (toTransactionDto d) l) as [rest|e]; [|discriminate].
    inversion H. destruct (IH rest eq_refl) as (A & B & C).
    simpl. rewrite A, B, C. auto.
Qed.

(** X22.  On a well-formed database [getTransactionsByStatus] returns, for
    each status, exactly the transactions of that status (the same
    identifiers, each once), newest first, and writes nothing; the lists of
    the three statuses together hold every transaction of the ledger
    once. *)
Theorem ledger_by_status w :
  wellFormed (db w) ->
  (forall status, exists l,
      getTransactionsByStatus status w = (Ok l, w)
      /\ Forall (fun r => tdto_status r = status) l
      /\ Permutation (map tdto_id l)
           (map tx_id (withStatus status (transactions (db w))))
      /\ newestFirst (map tdto_createdAt l))
  /\ exists s f p,
      getTransactionsByStatus SUCCESS w = (Ok s, w)
      /\ getTransactionsByStatus FAILED w = (Ok f, w)
      /\ getTransactionsByStatus PENDING w = (Ok p, w)
      /\ Permutation (map tdto_id (s ++ f ++ p))
           (map tx_id (transactions (db w))).
Proof.
  intro Hw.
  assert (One : forall status, exists l,
      getTransactionsByStatus status w = (Ok l, w)
      /\ Forall (fun r => tdto_status r = status) l
      /\ Permutation (map tdto_id l)
           (map tx_id (withStatus status (transactions (db w))))
      /\ newestFirst (map tdto_createdAt l)).
  { intro status. unfold getTransactionsByStatus, tryCatch, throw.
    fold (withStatus status (transactions (db w))).
    set (rows := orderByCreatedAtDesc (withStatus status (transactions (db w)))).
    assert (Hin : forall t, In t rows ->
              In t (transactions (db w)) /\ tx_status t = status).
    { intros t Ht. apply (Permutation_in _ (orderByCreatedAtDesc_perm _)) in Ht.
      apply filter_In in Ht. destruct Ht as [A B]. split; [exact A|].
      destruct (tx_status t), status; simpl in B; congruence. }
    destruct (mapResult_rows (db w) rows) as [m [Hm Fm]].
    { intros t Ht. apply (wf_transactionStock _ Hw). now apply Hin. }
    exists m. rewrite Hm. split; [reflexivity|].
    destruct (mapResult_columns _ _ _ Hm) as (Ei & Ec & Es).
    split; [|split].
    - assert (F : Forall (fun s => s = status) (map tdto_status m)).
      { rewrite Es. apply Forall_forall. intros s Hs.
        apply in_map_iff in Hs. destruct Hs as [t [<- Ht]]. now apply Hin. }
      clear -F. induction m as [|r m IH]; constructor.
      + now inversion F.
      + apply IH. now inversion F.
    - rewrite Ei. apply Permutation_map, orderByCreatedAtDesc_perm.
    - rewrite Ec. apply orderByCreatedAtDesc_newestFirst. }
  split; [exact One|].
  destruct (One SUCCESS) as (s & Hs & _ & Ps & _).
  destruct (One FAILED) as (f & Hf & _ & Pf & _).
  destruct (One PENDING) as (p & Hp & _ & Pp & _).
  exists s, f, p. repeat (split; [assumption|]).
  rewrite !map_app, Ps, Pf, Pp, <- !map_app.
  apply Permutation_map, status_partition.
Qed.

Lemma ledger_by_status_witness :
  wellFormed (db ledgerWorld)
  /\ exists l,
       getTransactionsByStatus SUCCESS ledgerWorld = (Ok l, ledgerWorld)
       /\ Forall (fun r => tdto_status r = SUCCESS) l
       /\ Permutation (map tdto_id l) [2%nat].
Proof.
  split; [exact ledgerWorld_wellFormed|].
  destruct (ledger_by_status ledgerWorld ledgerWorld_wellFormed) as [One _].
  destruct (One SUCCESS) as (l & Hl & Fl & Pl & _).
  exists l. split; [exact Hl|]. split; [exact Fl | exact Pl].
Defined.

(** X23.  An identifier that no transaction of the ledger has is an error
    for both the read and the update, and neither writes anything: the read
    throws 404 "Transaction <id> not found", the update throws the storage
    layer's error. *)
Theorem absent_transaction transactionId status errorMessage w :
  (forall t, In t (transactions (db w)) -> tx_id t <> transactionId) ->
  getTransactionById transactionId w
  = (Throw (HttpException
              ("Transaction " ++ idText transactionId ++ " not found")%string
              404), w)
  /\ updateTransactionStatus
       (mkProcess transactionId status errorMessage) w
     = (Throw (PrismaError "Record to update not found."), w).
Proof.
  intro H.
  assert (F : find (hasId transactionId) (transactions (db w)) = None).
  { destruct (find _ _) as [t|] eqn:E; [|reflexivity].
    apply find_some in E. destruct E as [Hin Hid].
    apply Nat.eqb_eq in Hid. destruct (H t Hin Hid). }
  split.
  - unfold getTransactionById, tryCatch, throw. now rewrite F.
  - unfold updateTransactionStatus, tryCatch, throw, bind, now,
      transaction_update. simpl. now rewrite F.
Qed.

Lemma absent_transaction_witness :
  getTransactionById 7 ledgerWorld
  = (Throw (HttpException "Transaction 7 not found" 404), ledgerWorld)
  /\ updateTransactionStatus (mkProcess 7 SUCCESS None) ledgerWorld
     = (Throw (PrismaError "Record to update not found."), ledgerWorld).
Proof.
  apply (absent_transaction 7 SUCCESS None ledgerWorld).
  intros t [<-|[]]. discriminate.
Defined.

(** X24.  The listing endpoint replies with status 200 and the page the
    service returned, or with one of two errors, 503 "Vendor API temporarily
    unavailable" or 502 "Invalid response from vendor API", and then the
    database is as before; a storage fault while the cache is updated never
    reaches the client. *)
Theorem listing_endpoint this nextToken w :
  let reply := fst (handled (controller_getStocks this nextToken) w) in
  let w' := snd (handled (controller_getStocks this nextToken) w) in
  (forall body, reply = Returned body ->
     response_status body = 200%Z
     /\ fst (getAllStocks this nextToken w) = Ok (response_data body))
  /\ (forall status msg, reply = Filtered status msg ->
        ((status = 503%Z /\ msg = "Vendor API temporarily unavailable")
         \/ (status = 502%Z /\ msg = "Invalid response from vendor API"))
        /\ db w' = db w
        /\ history w' = history w).
Proof.
  intros reply w'. subst reply w'.
  unfold handled, controller_getStocks, getAllStocks, tryCatch, bind, ret, throw.
  pose proof (vendorGet_frame this nextToken w) as [Hd Hh].
  destruct (vendorGet this nextToken w) as [[body|err] w1] eqn:Hv;
    cbn [snd] in *.
  - destruct (Z.eq_dec (api_status body) 200) as [Hs|Hs].
    + rewrite (getStocksFromVendor_ok this nextToken w body w1 Hv Hs).
      cbn [fst snd]. split; [|intros status msg H; discriminate].
      intros b H. inversion H. subst b. simpl. auto.
    + rewrite (getStocksFromVendor_invalid this nextToken w body w1 Hv Hs).
      cbn [fst snd]. split; [intros b H; discriminate|].
      intros status msg H. inversion H. auto.
  - rewrite (getStocksFromVendor_failed this nextToken w err w1 Hv).
    unfold vendorGet in Hv.
    destruct (retry _ _ _ _ w) as [[b|x] w2]; inversion Hv. subst.
    cbn [fst snd]. split; [intros b H; discriminate|].
    intros status msg H. inversion H. auto.
Qed.

(** ** Requests and waiting time *)

Lemma spends_same w w' :
  httpCalls w' = httpCalls w -> clock w' = clock w -> spends 0 0 w w'.
Proof. unfold spends. intros -> ->. lia. Qed.

Lemma spends_trans n1 t1 n2 t2 w1 w2 w3 :
  spends n1 t1 w1 w2 -> spends n2 t2 w2 w3 ->
  spends (n1 + n2) (t1 + t2) w1 w3.
Proof. unfold spends. lia. Qed.

Lemma spends_more n t n' t' w w' :
  spends n t w w' -> (n <= n')%nat -> (t <= t')%Z -> spends n' t' w w'.
Proof. unfold spends. lia. Qed.

Lemma retry_spends this count delay req : forall w,
  spends (count + 1) (Z.of_nat count * Z.max 0 delay) w
    (snd (retry this count delay req w)).
Proof.
  induction count as [|k IH]; intro w; simpl retry.
  - destruct (vendor this (httpCalls w) req); unfold spends; simpl; lia.
  - destruct (vendor this (httpCalls w) req).
    + unfold spends. cbn [snd sent httpCalls clock]. nia.
    + specialize (IH (sleep delay (sent w))). unfold spends in *.
      cbn [sleep sent httpCalls clock] in IH. nia.
Qed.

Lemma vendorGet_spends this t w :
  spends (Z.to_nat (retryAttempts (vendorConfig this)) + 1)
    (Z.of_nat (Z.to_nat (retryAttempts (vendorConfig this)))
     * Z.max 0 (retryDelay (vendorConfig this)))
    w (snd (vendorGet this t w)).
Proof.
  unfold vendorGet.
  match goal with
  | |- context [retry this ?c ?d ?r w] =>
      pose proof (retry_spends this c d r w) as H;
      destruct (retry this c d r w) as [[b|e] w1]
  end; exact H.
Qed.

Lemma vendorBuy_spends this symbol buyData w :
  spends (Z.to_nat (retryAttempts (vendorConfig this)) + 1)
    (Z.of_nat (Z.to_nat (retryAttempts (vendorConfig this)))
     * Z.max 0 (retryDelay (vendorConfig this)))
    w (snd (vendorBuy this symbol buyData w)).
Proof.
  unfold vendorBuy.
  match goal with
  | |- context [retry this ?c ?d ?r w] =>
      pose proof (retry_spends this c d r w) as H;
      destruct (retry this c d r w) as [[b|e] w1]
  end; exact H.
Qed.

Lemma stock_upsert_spends this symbol v date w :
  spends 0 0 w (snd (stock_upsert this symbol v date w)).
Proof.
  unfold stock_upsert.
  destruct (upsertFails this v); [apply spends_same; reflexivity|].
  destruct (find _ _); apply spends_same; reflexivity.
Qed.

Lemma getStocksFromVendor_spends this t w :
  spends (Z.to_nat (retryAttempts (vendorConfig this)) + 1)
    (Z.of_nat (Z.to_nat (retryAttempts (vendorConfig this)))
     * Z.max 0 (retryDelay (vendorConfig this)))
    w (snd (getStocksFromVendor this t w)).
Proof.
  pose proof (vendorGet_spends this t w) as H.
  destruct (vendorGet this t w) as [[body|err] w1] eqn:Hv; cbn [snd] in H.
  - destruct (Z.eq_dec (api_status body) 200) as [Hs|Hs].
    + rewrite (getStocksFromVendor_ok this t w body w1 Hv Hs). cbn [snd].
      destruct (upserts_clock this (clock w1) (items (api_data body)) w1)
        as [C N].
      unfold spends in *. rewrite C, N. exact H.
    + now rewrite (getStocksFromVendor_invalid this t w body w1 Hv Hs).
  - now rewrite (getStocksFromVendor_failed this t w err w1 Hv).
Qed.

Lemma getStockBySymbol_spends this symbol w :
  spends (Z.to_nat (retryAttempts (vendorConfig this)) + 1)
    (Z.of_nat (Z.to_nat (retryAttempts (vendorConfig this)))
     * Z.max 0 (retryDelay (vendorConfig this)))
    w (snd (getStockBySymbol this symbol w)).
Proof.
  destruct (absent_stale_or_fresh (toUpperCase symbol) w)
    as [Stale|[s [Hc Hf]]].
  - rewrite (getStockBySymbol_refresh this symbol w Stale).
    pose proof (getStocksFromVendor_spends this None w) as H.
    destruct (getStocksFromVendor this None w) as [[page|e] w1];
      cbn [snd] in H; [|exact H].
    destruct (find _ (items page)) as [v|]; [|exact H].
    pose proof (stock_upsert_spends this (toUpperCase symbol) v (clock w1) w1)
      as U.
    destruct (stock_upsert this (toUpperCase symbol) v (clock w1) w1)
      as [[r|e] w2]; cbn [snd] in *;
      (eapply spends_more; [exact (spends_trans _ _ _ _ _ _ _ H U) | lia | lia]).
  - rewrite (getStockBySymbol_fresh this symbol w s Hc Hf). cbn [snd].
    eapply spends_more; [apply spends_same; reflexivity | lia | nia].
Qed.

(** X25.  What a call can cost, with [n] the configured number of retries
    and [d] the configured delay: a price lookup sends at most [n + 1]
    requests to the vendor and waits at most [n * max 0 d] milliseconds
    between attempts; a purchase sends at most [2 * (n + 1)] requests and
    waits at most [2 * n * max 0 d] milliseconds. *)
Theorem request_budget this symbol buyData userId w :
  let n := Z.to_nat (retryAttempts (vendorConfig this)) in
  let d := Z.max 0 (retryDelay (vendorConfig this)) in
  spends (n + 1) (Z.of_nat n * d) w (snd (getStockBySymbol this symbol w))
  /\ spends (2 * (n + 1)) (2 * Z.of_nat n * d) w
       (snd (buyStock this symbol buyData userId w)).
Proof.
  intros n d. split; [apply getStockBySymbol_spends|].
  pose proof (getStockBySymbol_spends this symbol w) as L.
  fold n d in L.
  assert (Lookup : forall w1, spends (n + 1) (Z.of_nat n * d) w w1 ->
                     spends (2 * (n + 1)) (2 * Z.of_nat n * d) w w1)
    by (intros w1 H; eapply spends_more; [exact H | lia | nia]).
  destruct (getStockBySymbol this symbol w) as [[[stock|]|e] w1] eqn:Hs;
    cbn [snd] in L.
  - pose proof (vendorBuy_spends this symbol buyData
                  (opened userId stock buyData w1)) as B.
    fold n d in B.
    destruct (buyStock_outcomes this symbol buyData userId w stock w1 Hs)
      as [[_ H]|[[w3 [Hv [_ [_ H]]]]|[err [w3 [Hv [_ [_ H]]]]]]];
      rewrite H; cbn [snd].
    + now apply Lookup.
    + rewrite Hv in B. cbn [snd] in B.
      destruct (updateUserPortfolio_total userId (dto_id stock)
                  (buy_quantity buyData) (buy_price buyData)
                  (closed (nextId (db w1)) SUCCESS None w3))
        as (_ & _ & C & N).
      unfold spends in *. rewrite C, N. cbn [closed opened write httpCalls clock] in *.
      nia.
    + rewrite Hv in B. cbn [snd] in B.
      unfold spends in *. cbn [closed opened write httpCalls clock] in *. nia.
  - unfold buyStock, tryCatch, bind, throw. rewrite Hs. cbn [snd].
    now apply Lookup.
  - unfold buyStock, tryCatch, bind, throw. rewrite Hs. cbn [snd].
    now apply Lookup.
Qed.
